(** * stomp_moveit: the STOMP planning context for MoveIt

    A shallow embedding of [stomp_moveit/src/stomp_planner.cpp] and the
    properties of its seed extraction, boundary resolution, trajectory
    conversion, solve orchestration and cancellation.

    Conventions of the embedding.
    - A C++ [double] is a rational [Q]: the planner only copies, compares
      and zero-fills positions, it never does arithmetic on them.
    - [std::vector] is [list]; [v[i] = x] is stdpp's list insert.
    - [Eigen::MatrixXd] is a record of its dimensions and its column-major
      coefficient array, as Eigen stores it.
    - [moveit::core::RobotState] is a finite map from variable names to
      positions.
    - Collaborators whose code lives outside this file (the optimizer, the
      optimization task, kinematics, the planning scene, the time
      parameterization, the wall clock) are fields of [Collaborators].
    - Container sizes are natural numbers; the narrowing of a [size_t] to an
      [int] field is written out where the source does it. *)

From Stdlib Require Import ZArith QArith.
From stdpp Require Import gmap strings list fin_maps.
Close Scope Q_scope.
Open Scope string_scope.

(** ** Scalars *)

Abbreviation double := Q.

Definition wrap_int32 (z : Z) : Z :=
  ((z + 2147483648) mod 4294967296 - 2147483648)%Z.

(** [size_t] to [int]: modular narrowing. *)
Definition int_of_size_t (n : nat) : Z := wrap_int32 (Z.of_nat n).

(** [double] to [int]: truncation toward zero. *)
Definition int_of_double (q : double) : Z := Z.quot (Qnum q) (Zpos (Qden q)).

(** [int] to [double]. *)
Definition double_of_int (z : Z) : double := inject_Z z.

(** Lines 34-36. *)
Definition DESCRIPTION : string := "STOMP".
Definition IK_ATTEMPTS : Z := 10.
Definition IK_TIMEOUT : Z := int_of_double (5 # 100)%Q.

(** ** Messages *)

(** [trajectory_msgs::JointTrajectoryPoint]. *)
Record JointTrajectoryPoint := {
  positions : list double;
  velocities : list double;
  accelerations : list double;
  time_from_start : double
}.

(** [trajectory_msgs::JointTrajectory]. *)
Record JointTrajectory := {
  joint_names : list string;
  points : list JointTrajectoryPoint
}.

Definition JointTrajectoryPoint_new : JointTrajectoryPoint :=
  {| positions := []; velocities := []; accelerations := [];
     time_from_start := 0%Q |}.

Definition JointTrajectory_new : JointTrajectory :=
  {| joint_names := []; points := [] |}.

(** [moveit_msgs::JointConstraint], the fields the planner reads. *)
Record JointConstraint := {
  jc_joint_name : string;
  jc_position : double
}.

Record Point := { pt_x : double; pt_y : double; pt_z : double }.
Record Quaternion := { q_x : double; q_y : double; q_z : double; q_w : double }.
Record Pose := { pose_position : Point; pose_orientation : Quaternion }.

Definition Point_new : Point := {| pt_x := 0%Q; pt_y := 0%Q; pt_z := 0%Q |}.
Definition Quaternion_new : Quaternion :=
  {| q_x := 0%Q; q_y := 0%Q; q_z := 0%Q; q_w := 0%Q |}.
Definition Pose_new : Pose :=
  {| pose_position := Point_new; pose_orientation := Quaternion_new |}.

(** [moveit_msgs::PositionConstraint]: [constraint_region.primitive_poses]. *)
Record PositionConstraint := { primitive_poses : list Pose }.

(** [moveit_msgs::OrientationConstraint]. *)
Record OrientationConstraint := { oc_orientation : Quaternion }.

(** [moveit_msgs::Constraints]. *)
Record Constraints := {
  joint_constraints : list JointConstraint;
  position_constraints : list PositionConstraint;
  orientation_constraints : list OrientationConstraint
}.

(** [moveit_msgs::RobotState]: the joint state it carries. *)
Record RobotStateMsg := {
  js_name : list string;
  js_position : list double
}.

(** [moveit_msgs::MotionPlanRequest], the fields the planner reads. *)
Record MotionPlanRequest := {
  group_name : string;
  start_state : RobotStateMsg;
  goal_constraints : list Constraints;
  trajectory_constraints : list Constraints;
  max_velocity_scaling_factor : double
}.

(** [moveit_msgs::MoveItErrorCodes]. *)
Module MoveItErrorCodes.
Definition SUCCESS : Z := 1.
Definition FAILURE : Z := 99999.
Definition PLANNING_FAILED : Z := (-1).
Definition INVALID_MOTION_PLAN : Z := (-2).
End MoveItErrorCodes.

(** ** Dense matrices and vectors *)

Abbreviation VectorXd := (list double).

(** [Eigen::MatrixXd]: [rows] x [cols], coefficient (i, j) at
    [i + j * rows] of [data]. *)
Record MatrixXd := {
  rows : nat;
  cols : nat;
  data : list double
}.

(** [Eigen::MatrixXd mat(r, c)]; the fresh coefficients read as zero. *)
Definition MatrixXd_new (r c : nat) : MatrixXd :=
  {| rows := r; cols := c; data := replicate (r * c) 0%Q |}.

(** [m(i, j)]. *)
Definition coeff (m : MatrixXd) (i j : nat) : double :=
  default 0%Q (data m !! (i + j * rows m)).

(** [m(i, j) = v]. *)
Definition set_coeff (m : MatrixXd) (i j : nat) (v : double) : MatrixXd :=
  {| rows := rows m; cols := cols m;
     data := <[i + j * rows m := v]> (data m) |}.

(** [m.col(t)] copied into a [std::vector<double>] of [m.rows()] entries. *)
Definition col (m : MatrixXd) (t : nat) : list double :=
  (fun i => coeff m i t) <$> seq 0 (rows m).

(** The invariant of a matrix built by Eigen. *)
Definition MatrixXd_wf (m : MatrixXd) : Prop :=
  length (data m) = rows m * cols m.

(** ** Robot model and robot state *)

Record VariableBounds := {
  min_position : double;
  max_position : double
}.

(** The part of [moveit::core::RobotModel] and of the planning group's
    [JointModelGroup] that the planner consults: the model's variables with
    their bounds, the group's active joints in their canonical order and the
    group's links. *)
Record RobotModel := {
  variable_bounds : gmap string VariableBounds;
  active_joint_model_names : list string;
  link_model_names : list string
}.

(** [moveit::core::RobotState]. *)
Abbreviation RobotState := (gmap string double).

(** [robot_trajectory::RobotTrajectory]: a reference state and way points. *)
Record RobotTrajectory := {
  rt_reference : RobotState;
  rt_msg : JointTrajectory
}.

(** [stomp_core::StompConfiguration]. *)
Record StompConfiguration := {
  num_iterations : Z;
  num_iterations_after_valid : Z;
  num_timesteps : Z;
  num_dimensions : Z;
  delta_t : double;
  initialization_method : Z;
  num_rollouts : Z;
  max_rollouts : Z;
  control_cost_weight : double;
  exponentiated_cost_sensitivity : double
}.

(** [config.num_timesteps = n]. *)
Definition set_num_timesteps (n : Z) (c : StompConfiguration)
  : StompConfiguration :=
  {| num_iterations := num_iterations c;
     num_iterations_after_valid := num_iterations_after_valid c;
     num_timesteps := n;
     num_dimensions := num_dimensions c;
     delta_t := delta_t c;
     initialization_method := initialization_method c;
     num_rollouts := num_rollouts c;
     max_rollouts := max_rollouts c;
     control_cost_weight := control_cost_weight c;
     exponentiated_cost_sensitivity := exponentiated_cost_sensitivity c |}.

(** The optimizer handle [stomp_core::Stomp]: the configuration it holds. *)
Record Stomp := { stomp_applied_config : StompConfiguration }.

(** [planning_scene::PlanningScene], as far as the planner queries it. *)
Record PlanningScene := {
  isPathValid : RobotTrajectory -> string -> bool -> bool
}.

(** ** Responses *)

(** [planning_interface::MotionPlanDetailedResponse]; a null
    [RobotTrajectoryPtr] is [None]. *)
Record MotionPlanDetailedResponse := {
  trajectory_ : list (option RobotTrajectory);
  description_ : list string;
  processing_time_ : list double;
  error_code_ : Z
}.

(** [planning_interface::MotionPlanResponse]. *)
Record MotionPlanResponse := {
  r_trajectory_ : option RobotTrajectory;
  r_planning_time_ : double;
  r_error_code_ : Z
}.

Definition MotionPlanDetailedResponse_new : MotionPlanDetailedResponse :=
  {| trajectory_ := []; description_ := []; processing_time_ := [];
     error_code_ := 0 |}.

Definition set_error_code (v : Z) (res : MotionPlanDetailedResponse)
  : MotionPlanDetailedResponse :=
  {| trajectory_ := trajectory_ res; description_ := description_ res;
     processing_time_ := processing_time_ res; error_code_ := v |}.

Definition set_trajectory (i : nat) (t : option RobotTrajectory)
    (res : MotionPlanDetailedResponse) : MotionPlanDetailedResponse :=
  {| trajectory_ := <[i := t]> (trajectory_ res);
     description_ := description_ res;
     processing_time_ := processing_time_ res;
     error_code_ := error_code_ res |}.

Definition set_processing_time (i : nat) (t : double)
    (res : MotionPlanDetailedResponse) : MotionPlanDetailedResponse :=
  {| trajectory_ := trajectory_ res; description_ := description_ res;
     processing_time_ := <[i := t]> (processing_time_ res);
     error_code_ := error_code_ res |}.

(** [res.trajectory_.back()]; the vector holds one entry when it is read. *)
Definition trajectory_back (res : MotionPlanDetailedResponse)
  : option RobotTrajectory :=
  default None (last (trajectory_ res)).

(** ** The planner object, its collaborators and the effects of a call *)

(** The members of [StompPlanner] that the methods below use. *)
Record StompPlanner := {
  group_ : string;
  robot_model_ : RobotModel;
  stomp_config_ : StompConfiguration;
  stomp_ : option Stomp;
  request_ : MotionPlanRequest;
  planning_scene_ : option PlanningScene
}.

Definition set_stomp (s : option Stomp) (P : StompPlanner) : StompPlanner :=
  {| group_ := group_ P; robot_model_ := robot_model_ P;
     stomp_config_ := stomp_config_ P; stomp_ := s;
     request_ := request_ P; planning_scene_ := planning_scene_ P |}.

(** Calls that leave the planner for a collaborator, in program order. *)
Inductive Event :=
| EvSetMotionPlanRequest (config : StompConfiguration)
| EvSetConfig (config : StompConfiguration)
| EvSolveSeeded (initial_parameters : MatrixXd)
| EvSolveBoundary (start goal : VectorXd)
| EvSetFromIK (pose : Pose) (tip : string) (attempts : Z) (timeout : double)
| EvCancel.

(** Code outside this file, taken as given: each field answers one call.
    - [robotStateMsgToRobotState msg state]: [moveit::core] conversion;
    - [setFromIK state group pose tip attempts timeout]: inverse kinematics
      for the planning group;
    - [task_setMotionPlanRequest scene req config code]: the optimization task
      binds the request, it may rewrite the error code it is handed;
    - [stomp_solve_seeded], [stomp_solve_boundary], [stomp_cancel]: the
      optimizer, which sees the configuration it was last given;
    - [computeTimeStamps traj scale]: iterative parabolic time
      parameterization;
    - [wall_time k]: what the k-th reading of [ros::WallTime::now()] returns,
      in nanoseconds. *)
Record Collaborators := {
  robotStateMsgToRobotState : RobotStateMsg -> RobotState -> bool * RobotState;
  setFromIK :
    RobotState -> string -> Pose -> string -> Z -> double -> bool * RobotState;
  task_setMotionPlanRequest :
    option PlanningScene -> MotionPlanRequest -> StompConfiguration -> Z ->
    bool * Z;
  stomp_solve_seeded : Stomp -> MatrixXd -> bool * MatrixXd;
  stomp_solve_boundary : Stomp -> VectorXd -> VectorXd -> bool * MatrixXd;
  stomp_cancel : Stomp -> bool;
  computeTimeStamps : RobotTrajectory -> double -> bool * RobotTrajectory;
  wall_time : nat -> Z
}.

(** What a member function can change: the planner, how often the clock was
    read, and the calls made so far. *)
Record World := {
  planner : StompPlanner;
  clock_reads : nat;
  trace : list Event
}.

(** A computation over the world; [None] is undefined behaviour
    (dereferencing the null [stomp_] handle). *)
Definition M (A : Type) : Type := World -> option (A * World).

#[global] Instance M_ret : MRet M := fun A a w => Some (a, w).
#[global] Instance M_bind : MBind M := fun A B k m w =>
  match m w with
  | Some (a, w') => k a w'
  | None => None
  end.

Definition this : M StompPlanner := fun w => Some (planner w, w).

Definition emit (e : Event) : M unit := fun w =>
  Some (tt, {| planner := planner w; clock_reads := clock_reads w;
               trace := trace w ++ [e] |}).

Definition emit_all (es : list Event) : M unit := fun w =>
  Some (tt, {| planner := planner w; clock_reads := clock_reads w;
               trace := trace w ++ es |}).

Definition modify_planner (f : StompPlanner -> StompPlanner) : M unit :=
  fun w =>
    Some (tt, {| planner := f (planner w); clock_reads := clock_reads w;
                 trace := trace w |}).

(** [*stomp_]. *)
Definition deref_stomp : M Stomp := fun w =>
  match stomp_ (planner w) with
  | Some s => Some (s, w)
  | None => None
  end.

(** [ros::Duration(wd.sec, wd.nsec).toSec()]. *)
Definition toSec (nanoseconds : Z) : double := (nanoseconds # 1000000000)%Q.

(** [moveit::core::RobotState state(robot_model_)]. *)
Definition RobotState_new : RobotState := ∅.

(** [traj.setRobotTrajectoryMsg(reference, msg)] on a fresh trajectory and
    [traj.getRobotTrajectoryMsg(msg)]. *)
Definition setRobotTrajectoryMsg (reference : RobotState)
    (msg : JointTrajectory) : RobotTrajectory :=
  {| rt_reference := reference; rt_msg := msg |}.
Definition getRobotTrajectoryMsg (traj : RobotTrajectory) : JointTrajectory :=
  rt_msg traj.

(** *** [moveit::core::RobotState] accessors

    [moveit::Exception] is raised for a variable the model does not have. *)
Inductive Exc (A : Type) :=
| Returned (a : A)
| Thrown.
Arguments Returned {A} a.
Arguments Thrown {A}.

Definition position_of (state : RobotState) (name : string) : double :=
  default 0%Q (state !! name).

Definition getVariablePosition (model : RobotModel) (state : RobotState)
    (name : string) : Exc double :=
  match variable_bounds model !! name with
  | Some _ => Returned (position_of state name)
  | None => Thrown
  end.

Definition setVariablePosition (model : RobotModel) (state : RobotState)
    (name : string) (value : double) : Exc RobotState :=
  match variable_bounds model !! name with
  | Some _ => Returned (<[name := value]> state)
  | None => Thrown
  end.

Definition Qltb (x y : double) : bool := negb (Qle_bool y x).

Definition clamp (b : VariableBounds) (v : double) : double :=
  if Qltb v (min_position b) then min_position b
  else if Qltb (max_position b) v then max_position b
  else v.

(** Modelled from the spec: [RobotState::enforceBounds(group)] of
    moveit_core is not in this file; the spec has it "clamp/enforce joint
    bounds" on the group's active joints. *)
Definition enforceBounds (model : RobotModel) (state : RobotState)
  : RobotState :=
  foldl (fun st name =>
           match variable_bounds model !! name with
           | Some b => <[name := clamp b (position_of st name)]> st
           | None => st
           end)
        state (active_joint_model_names model).

(** [satisfiesBounds] for one value. *)
Definition within_bounds (b : VariableBounds) (v : double) : Prop :=
  (min_position b <= v)%Q /\ (v <= max_position b)%Q.

(** ** Trajectory representation bridge *)

(** [traj.points[step].positions[joint]]; the subscripts are unchecked in
    the source, a read past the end yields zero here. *)
Definition position_at (traj : JointTrajectory) (step joint : nat) : double :=
  default 0%Q (pt ← points traj !! step; positions pt !! joint).

(** Lines 316-319: the inner loop over [joint]. *)
Definition fill_column (traj : JointTrajectory) (dof step : nat)
    (mat : MatrixXd) : MatrixXd :=
  foldl (fun mat joint => set_coeff mat joint step (position_at traj step joint))
        mat (seq 0 dof).

(** Lines 314-320: the outer loop over [step], run for [k] steps. *)
Definition fill_steps (traj : JointTrajectory) (dof k : nat) (m : MatrixXd)
  : MatrixXd :=
  foldl (fun mat step => fill_column traj dof step mat) m (seq 0 k).

(** Lines 307-324. *)
Definition jointTrajectorytoParameters (traj : JointTrajectory)
  : bool * MatrixXd :=
  let dof := length (joint_names traj) in
  let timesteps := length (points traj) in
  let mat := MatrixXd_new dof timesteps in
  let mat := fill_steps traj dof timesteps mat in
  (true, mat).

(** Lines 280-289: the structural conversion of a matrix to sample points. *)
Definition parameters_to_points (parameters : MatrixXd)
  : list JointTrajectoryPoint :=
  let pts := replicate (cols parameters) JointTrajectoryPoint_new in
  let zeros := replicate (rows parameters) 0%Q in
  foldl (fun pts t =>
           let vals := col parameters t in
           <[t := {| positions := vals; velocities := zeros;
                     accelerations := zeros; time_from_start := 0%Q |}]> pts)
        pts (seq 0 (cols parameters)).

(** The sample point that line 284-288 writes at index [t]. *)
Definition untimed_point (parameters : MatrixXd) (t : nat)
  : JointTrajectoryPoint :=
  {| positions := col parameters t;
     velocities := replicate (rows parameters) 0%Q;
     accelerations := replicate (rows parameters) 0%Q;
     time_from_start := 0%Q |}.

(** ** Seed extraction *)

(** Lines 348-358: the loop over the joint constraints of one way point;
    [None] is the [return false] of line 355. *)
Fixpoint seed_point (names : list string) (jcs : list JointConstraint)
    (j : nat) (joint_pt : JointTrajectoryPoint) : option JointTrajectoryPoint :=
  match jcs with
  | [] => Some joint_pt
  | c :: jcs' =>
      if bool_decide (jc_joint_name c ≠ default "" (names !! j)) then None
      else seed_point names jcs' (S j)
             {| positions := positions joint_pt ++ [jc_position c];
                velocities := velocities joint_pt;
                accelerations := accelerations joint_pt;
                time_from_start := time_from_start joint_pt |}
  end.

(** Lines 337-361: the loop over the way points; the seed is an out
    parameter and keeps the points pushed before a [return false]. *)
Fixpoint seed_points (names : list string) (constraints : list Constraints)
    (seed : JointTrajectory) : bool * JointTrajectory :=
  match constraints with
  | [] => (true, seed)
  | c :: constraints' =>
      let n := length (joint_constraints c) in
      if bool_decide (n ≠ length names) then (false, seed)
      else match seed_point names (joint_constraints c) 0
                   JointTrajectoryPoint_new with
           | None => (false, seed)
           | Some joint_pt =>
               seed_points names constraints'
                 {| joint_names := joint_names seed;
                    points := points seed ++ [joint_pt] |}
           end
  end.

(** Lines 326-365. *)
Definition extractSeedTrajectory (P : StompPlanner) (req : MotionPlanRequest)
    (seed : JointTrajectory) : bool * JointTrajectory :=
  match trajectory_constraints req with
  | [] => (false, seed)
  | constraints =>
      let names := active_joint_model_names (robot_model_ P) in
      match seed_points names constraints seed with
      | (false, seed) => (false, seed)
      | (true, seed) =>
          (true, {| joint_names := names; points := points seed |})
      end
  end.

Section Planner.

Context (env : Collaborators).

(** [ros::WallTime::now()]. *)
Definition now : M Z := fun w =>
  Some (wall_time env (clock_reads w),
        {| planner := planner w; clock_reads := S (clock_reads w);
           trace := trace w |}).

(** ** Cancellation *)

(** Lines 482-493. *)
Definition terminate : M bool :=
  P ← this;
  match stomp_ P with
  | Some stomp =>
      emit EvCancel;;
      if negb (stomp_cancel env stomp) then mret false
      else mret true
  | None => mret true
  end.

(** ** Trajectory reification *)

(** Lines 273-305; the out parameter [trajectory] is overwritten, its joint
    names at line 277 and its points at lines 278-279. *)
Definition parametersToJointTrajectory (P : StompPlanner)
    (parameters : MatrixXd) (trajectory : JointTrajectory)
  : bool * JointTrajectory :=
  let trajectory :=
    {| joint_names := active_joint_model_names (robot_model_ P);
       points := parameters_to_points parameters |} in
  let robot_state :=
    snd (robotStateMsgToRobotState env (start_state (request_ P))
           RobotState_new) in
  let traj := setRobotTrajectoryMsg robot_state trajectory in
  let '(timed, traj) :=
    computeTimeStamps env traj (max_velocity_scaling_factor (request_ P)) in
  if timed then (true, getRobotTrajectoryMsg traj)
  else (true, trajectory).

(** ** Boundary resolution *)

(** Lines 388-391, 420-423, 437-440: [v(j) = state->getVariablePosition
    (joint_names[j])] for every [j]. *)
Fixpoint read_positions (model : RobotModel) (state : RobotState)
    (names : list string) (j : nat) (v : VectorXd) : Exc VectorXd :=
  match names with
  | [] => Returned v
  | name :: names' =>
      match getVariablePosition model state name with
      | Returned x => read_positions model state names' (S j) (<[j := x]> v)
      | Thrown => Thrown
      end
  end.

(** Lines 429-433. *)
Fixpoint set_goal_positions (model : RobotModel) (jcs : list JointConstraint)
    (state : RobotState) : Exc RobotState :=
  match jcs with
  | [] => Returned state
  | jc :: jcs' =>
      match setVariablePosition model state (jc_joint_name jc)
              (jc_position jc) with
      | Returned state' => set_goal_positions model jcs' state'
      | Thrown => Thrown
      end
  end.

(** Lines 405-410; [front()] and [[0]] of an empty vector are undefined in
    the source and read a zero-initialised value here: on a goal constraint
    set with neither joint constraints nor a position constraint with a
    primitive pose and an orientation constraint, the program has no defined
    behaviour, and the value below stands for none of the program's. *)
Definition goal_pose (gc : Constraints) : Pose :=
  let pos_constraint :=
    default {| primitive_poses := [] |} (head (position_constraints gc)) in
  let orient_constraint :=
    default {| oc_orientation := Quaternion_new |}
            (head (orientation_constraints gc)) in
  {| pose_position :=
       pose_position (default Pose_new (primitive_poses pos_constraint !! 0));
     pose_orientation := oc_orientation orient_constraint |}.

(** Lines 367-453. The result is [None] when the function returns [false]
    (its out parameters are then dead in the caller), together with the
    calls it made. A [moveit::Exception] inside the [try] block lands in the
    handler of line 445. *)
Definition getStartAndGoal (P : StompPlanner)
  : option (VectorXd * VectorXd) * list Event :=
  let model := robot_model_ P in
  let state := RobotState_new in
  let tool_link := List.last (link_model_names model) "" in
  let '(parsed, state) :=
    robotStateMsgToRobotState env (start_state (request_ P)) state in
  if negb parsed then (None, [])
  else
    let joint_names := active_joint_model_names model in
    let start := replicate (length joint_names) 0%Q in
    let goal := replicate (length joint_names) 0%Q in
    let state := enforceBounds model state in
    match read_positions model state joint_names 0 start with
    | Thrown => (None, [])
    | Returned start =>
        match goal_constraints (request_ P) with
        | [] => (None, [])
        | gc :: _ =>
            match joint_constraints gc with
            | [] =>
                let pose := goal_pose gc in
                let timeout := double_of_int IK_TIMEOUT in
                let call := EvSetFromIK pose tool_link IK_ATTEMPTS timeout in
                let '(solved, state) :=
                  setFromIK env state (group_ P) pose tool_link IK_ATTEMPTS
                            timeout in
                if negb solved then (None, [call])
                else
                  let state := enforceBounds model state in
                  match read_positions model state joint_names 0 goal with
                  | Thrown => (None, [call])
                  | Returned goal => (Some (start, goal), [call])
                  end
            | jcs =>
                match set_goal_positions model jcs state with
                | Thrown => (None, [])
                | Returned state =>
                    let state := enforceBounds model state in
                    match read_positions model state joint_names 0 goal with
                    | Thrown => (None, [])
                    | Returned goal => (Some (start, goal), [])
                    end
                end
            end
        end
    end.

(** ** Solve orchestration *)

(** [task_->setMotionPlanRequest(planning_scene_, request_, config,
    res.error_code_)]. *)
Definition bind_task (config : StompConfiguration)
    (res : MotionPlanDetailedResponse) : M (bool * MotionPlanDetailedResponse) :=
  P ← this;
  emit (EvSetMotionPlanRequest config);;
  let '(ok, code) :=
    task_setMotionPlanRequest env (planning_scene_ P)
      (request_ P) config (error_code_ res) in
  mret (ok, set_error_code code res).

(** [stomp_->setConfig(config)]. *)
Definition stomp_setConfig (config : StompConfiguration) : M unit :=
  _ ← deref_stomp;
  emit (EvSetConfig config);;
  modify_planner (set_stomp (Some {| stomp_applied_config := config |})).

(** [stomp_->solve(initial_parameters, parameters)]. *)
Definition stomp_solve_initial (initial_parameters : MatrixXd)
  : M (bool * MatrixXd) :=
  stomp ← deref_stomp;
  emit (EvSolveSeeded initial_parameters);;
  mret (stomp_solve_seeded env stomp initial_parameters).

(** [stomp_->solve(start, goal, parameters)]. *)
Definition stomp_solve_start_goal (start goal : VectorXd)
  : M (bool * MatrixXd) :=
  stomp ← deref_stomp;
  emit (EvSolveBoundary start goal);;
  mret (stomp_solve_boundary env stomp start goal).

(** Lines 236-270: what follows the optimizer call on both branches. *)
Definition handle_results (start_time : Z) (success planning_success : bool)
    (parameters : MatrixXd) (res : MotionPlanDetailedResponse)
  : M (bool * MotionPlanDetailedResponse) :=
  P ← this;
  if planning_success then
    let '(converted, trajectory) :=
      parametersToJointTrajectory P parameters JointTrajectory_new in
    if negb converted then
      mret (false, set_error_code MoveItErrorCodes.PLANNING_FAILED res)
    else
      let robot_state :=
        snd (robotStateMsgToRobotState env (start_state (request_ P))
               RobotState_new) in
      let res :=
        set_trajectory 0 (Some (setRobotTrajectoryMsg robot_state trajectory))
                       res in
      (* checking against planning scene *)
      let in_collision :=
        match planning_scene_ P, trajectory_back res with
        | Some scene, Some path => negb (isPathValid scene path (group_ P) true)
        | _, _ => false
        end in
      (* lines 261-262: the error code and [success = false] *)
      let '(res, success) :=
        if in_collision
        then (set_error_code MoveItErrorCodes.PLANNING_FAILED res, false)
        else (res, success) in
      end_time ← now;
      let wd := (end_time - start_time)%Z in
      let res := set_processing_time 0 (toSec wd) res in
      (* line 270: [return true], whatever [success] holds *)
      mret (true, res)
  else
    mret (false, set_error_code MoveItErrorCodes.PLANNING_FAILED res).

(** Lines 172-176: initializing the response. *)
Definition initialize_response (res : MotionPlanDetailedResponse)
  : MotionPlanDetailedResponse :=
  {| description_ := resize 1 "" (description_ res);
     processing_time_ := resize 1 0%Q (processing_time_ res);
     trajectory_ := resize 1 None (trajectory_ res);
     error_code_ := MoveItErrorCodes.SUCCESS |}.

(** Lines 168-271: [solve(MotionPlanDetailedResponse&)]. *)
Definition solve_detailed (res : MotionPlanDetailedResponse)
  : M (bool * MotionPlanDetailedResponse) :=
  let res := initialize_response res in
  start_time ← now;
  let success := false in
  P ← this;
  (* local stomp config copy *)
  let config_copy := stomp_config_ P in
  (* look for seed state *)
  let '(seed_provided, seed_traj) :=
    extractSeedTrajectory P (request_ P) JointTrajectory_new in
  if seed_provided then
    let initial_parameters := snd (jointTrajectorytoParameters seed_traj) in
    let config_copy :=
      set_num_timesteps (int_of_size_t (length (points seed_traj)))
                        config_copy in
    '(bound, res) ← bind_task config_copy res;
    if negb bound then
      mret (false, set_error_code MoveItErrorCodes.FAILURE res)
    else
      stomp_setConfig config_copy;;
      '(planning_success, parameters) ← stomp_solve_initial initial_parameters;
      handle_results start_time success planning_success parameters res
  else
    let '(resolved, calls) := getStartAndGoal P in
    emit_all calls;;
    match resolved with
    | None =>
        mret (false, set_error_code MoveItErrorCodes.INVALID_MOTION_PLAN res)
    | Some (start, goal) =>
        '(bound, res) ← bind_task config_copy res;
        if negb bound then
          mret (false, set_error_code MoveItErrorCodes.FAILURE res)
        else
          stomp_setConfig config_copy;;
          '(planning_success, parameters) ← stomp_solve_start_goal start goal;
          handle_results start_time success planning_success parameters res
    end.

(** Lines 153-166: [solve(MotionPlanResponse&)]. *)
Definition solve (res : MotionPlanResponse) : M (bool * MotionPlanResponse) :=
  start_time ← now;
  '(success, detailed_res) ← solve_detailed MotionPlanDetailedResponse_new;
  end_time ← now;
  let wd := (end_time - start_time)%Z in
  mret (success,
        {| r_trajectory_ := trajectory_back detailed_res;
           r_planning_time_ := toSec wd;
           r_error_code_ := error_code_ detailed_res |}).

(** Lines 495-498. *)
Definition clear : M unit :=
  _ ← deref_stomp;
  mret tt.

End Planner.


(** ** Vocabulary of the statements *)

(** The position of the last joint constraint of [jcs] that names [name]:
    the value the loop of lines 429-433 leaves in the state. *)
Fixpoint named_position (jcs : list JointConstraint) (name : string)
  : option double :=
  match jcs with
  | [] => None
  | jc :: jcs' =>
      match named_position jcs' name with
      | Some p => Some p
      | None =>
          if decide (jc_joint_name jc = name) then Some (jc_position jc)
          else None
      end
  end.

(** Every variable of the model has its lower bound below its upper one. *)
Definition bounds_ordered (model : RobotModel) : Prop :=
  forall name b, variable_bounds model !! name = Some b ->
                 (min_position b <= max_position b)%Q.

(** The group's active joints are variables of the model. *)
Definition group_in_model (model : RobotModel) : Prop :=
  forall name, name ∈ active_joint_model_names model ->
               is_Some (variable_bounds model !! name).

(** The calls a member function added to the trace. *)
Definition new_calls (before after : World) : list Event :=
  drop (length (trace before)) (trace after).

Definition is_optimizer_call (e : Event) : bool :=
  match e with
  | EvSetMotionPlanRequest _ | EvSetConfig _
  | EvSolveSeeded _ | EvSolveBoundary _ _ => true
  | EvSetFromIK _ _ _ _ | EvCancel => false
  end.


(** Boundary resolution cannot form its problem: the goal-constraint list is
    empty, or the start state does not parse, or the goal is Cartesian and
    inverse kinematics fails on it. *)
Definition boundary_problem_unformable (env : Collaborators)
    (P : StompPlanner) : Prop :=
  let model := robot_model_ P in
  goal_constraints (request_ P) = [] \/
  fst (robotStateMsgToRobotState env (start_state (request_ P))
         RobotState_new) = false \/
  exists state0 gc rest,
    robotStateMsgToRobotState env (start_state (request_ P)) RobotState_new
      = (true, state0) /\
    goal_constraints (request_ P) = gc :: rest /\
    joint_constraints gc = [] /\
    fst (setFromIK env (enforceBounds model state0) (group_ P) (goal_pose gc)
           (List.last (link_model_names model) "") IK_ATTEMPTS
           (double_of_int IK_TIMEOUT)) = false.

(** The trajectory that lines 239-250 store in the response. *)
Definition reified_trajectory (env : Collaborators) (P : StompPlanner)
    (parameters : MatrixXd) : RobotTrajectory :=
  setRobotTrajectoryMsg
    (snd (robotStateMsgToRobotState env (start_state (request_ P))
            RobotState_new))
    (snd (parametersToJointTrajectory env P parameters JointTrajectory_new)).

(** The world after [reads] more clock readings and the calls [calls]. *)
Definition advance (reads : nat) (calls : list Event) (w : World) : World :=
  {| planner := planner w; clock_reads := reads + clock_reads w;
     trace := trace w ++ calls |}.

(** The world in which the optimizer runs: the clock was read once, the
    task was bound, [config] was applied, and [call] asks for the solve. *)
Definition solving_world (config : StompConfiguration) (call : Event)
    (w : World) : World :=
  {| planner :=
       set_stomp (Some {| stomp_applied_config := config |}) (planner w);
     clock_reads := S (clock_reads w);
     trace := trace w ++ [EvSetMotionPlanRequest config; EvSetConfig config;
                          call] |}.

(** A seed way point as line 340 and line 351 accept it. *)
Definition waypoint_matches_group (names : list string) (c : Constraints)
  : Prop :=
  length (joint_constraints c) = length names /\
  jc_joint_name <$> joint_constraints c = names.

(** The sample point that lines 346-360 build from a way point. *)
Definition seed_sample (c : Constraints) : JointTrajectoryPoint :=
  {| positions := jc_position <$> joint_constraints c;
     velocities := []; accelerations := []; time_from_start := 0%Q |}.

(** The optimizer is reached and answers with success and [parameters]:
    on the seeded branch (lines 193-212) or the boundary branch (lines
    213-234), after the task accepted the request. *)
Definition optimizer_succeeds (env : Collaborators) (w : World)
    (parameters : MatrixXd) : Prop :=
  let P := planner w in
  match extractSeedTrajectory P (request_ P) JointTrajectory_new with
  | (true, seed) =>
      let config :=
        set_num_timesteps (int_of_size_t (length (points seed)))
                          (stomp_config_ P) in
      fst (task_setMotionPlanRequest env (planning_scene_ P)
      (request_ P) config
             MoveItErrorCodes.SUCCESS) = true /\
      stomp_solve_seeded env {| stomp_applied_config := config |}
        (snd (jointTrajectorytoParameters seed)) = (true, parameters)
  | (false, _) =>
      exists start goal,
        fst (getStartAndGoal env P) = Some (start, goal) /\
        fst (task_setMotionPlanRequest env (planning_scene_ P)
      (request_ P) (stomp_config_ P)
               MoveItErrorCodes.SUCCESS) = true /\
        stomp_solve_boundary env
          {| stomp_applied_config := stomp_config_ P |} start goal
          = (true, parameters)
  end.

(** The collaborators with another inverse-kinematics solver. *)
Definition with_setFromIK
    (ik : RobotState -> string -> Pose -> string -> Z -> double ->
          bool * RobotState)
    (env : Collaborators) : Collaborators :=
  {| robotStateMsgToRobotState := robotStateMsgToRobotState env;
     setFromIK := ik;
     task_setMotionPlanRequest := task_setMotionPlanRequest env;
     stomp_solve_seeded := stomp_solve_seeded env;
     stomp_solve_boundary := stomp_solve_boundary env;
     stomp_cancel := stomp_cancel env;
     computeTimeStamps := computeTimeStamps env;
     wall_time := wall_time env |}.

(** ** Request screening *)

(** Lines 456-480; [getGroupName()] returns the group the context was
    constructed for. *)
Definition canServiceRequest (P : StompPlanner) (req : MotionPlanRequest)
  : bool :=
  (* check group *)
  if bool_decide (group_name req <> group_ P) then false
  (* check for single goal region *)
  else if bool_decide (length (goal_constraints req) <> 1) then false
  (* check that we have only joint constraints at the goal *)
  else if bool_decide
            (length (joint_constraints
                       (default {| joint_constraints := [];
                                   position_constraints := [];
                                   orientation_constraints := [] |}
                                (goal_constraints req !! 0))) = 0)
       then false
  else true.

(** The optimizer is reached and answers with failure. *)
Definition optimizer_fails (env : Collaborators) (w : World) : Prop :=
  let P := planner w in
  match extractSeedTrajectory P (request_ P) JointTrajectory_new with
  | (true, seed) =>
      let config :=
        set_num_timesteps (int_of_size_t (length (points seed)))
                          (stomp_config_ P) in
      fst (task_setMotionPlanRequest env (planning_scene_ P) (request_ P)
             config MoveItErrorCodes.SUCCESS) = true /\
      fst (stomp_solve_seeded env {| stomp_applied_config := config |}
             (snd (jointTrajectorytoParameters seed))) = false
  | (false, _) =>
      exists start goal,
        fst (getStartAndGoal env P) = Some (start, goal) /\
        fst (task_setMotionPlanRequest env (planning_scene_ P) (request_ P)
               (stomp_config_ P) MoveItErrorCodes.SUCCESS) = true /\
        fst (stomp_solve_boundary env
               {| stomp_applied_config := stomp_config_ P |} start goal)
          = false
  end.

(** The failure codes that the detailed solve assigns itself. *)
Definition is_failure_code (code : Z) : Prop :=
  code = MoveItErrorCodes.FAILURE \/
  code = MoveItErrorCodes.INVALID_MOTION_PLAN \/
  code = MoveItErrorCodes.PLANNING_FAILED.

(** ** Configuration values

    [XmlRpc::XmlRpcValue] of xmlrpcpp, as far as the planner uses it. A
    struct is a [std::map]: its members are listed in iteration order, which
    is the order of their keys, each key once. The date and binary kinds
    are left out; they behave like an array wherever the planner looks. *)

#[warnings="-register-all"] Inductive XmlRpcValue :=
| TypeInvalid
| TypeBoolean (b : bool)
| TypeInt (i : Z)
| TypeDouble (d : double)
| TypeString (s : string)
| TypeArray (a : list XmlRpcValue)
| TypeStruct (members : list (string * XmlRpcValue)).

(** What the planner's setup code can raise. *)
Inductive Exception :=
| XmlRpcException (message : string)
| logic_error (what : string)
| foreign_exception (what : string).

Inductive Try (A : Type) :=
| Value (a : A)
| Raise (e : Exception).
Arguments Value {A} a.
Arguments Raise {A} e.

#[global] Instance Try_ret : MRet Try := fun A a => Value a.
#[global] Instance Try_bind : MBind Try := fun A B k m =>
  match m with
  | Value a => k a
  | Raise e => Raise e
  end.

#[global] Instance Try_fmap : FMap Try := fun A B f m =>
  match m with
  | Value a => Value (f a)
  | Raise e => Raise e
  end.

(** [asStruct->find(name)]. *)
Fixpoint struct_find (name : string) (members : list (string * XmlRpcValue))
  : option XmlRpcValue :=
  match members with
  | [] => None
  | (k, v) :: members' =>
      if String.eqb k name then Some v else struct_find name members'
  end.

(** Assignment to the member [name] of the ordered members. *)
Fixpoint struct_set (name : string) (v : XmlRpcValue)
    (members : list (string * XmlRpcValue)) : list (string * XmlRpcValue) :=
  match members with
  | [] => [(name, v)]
  | (k, x) :: members' =>
      if String.eqb k name then (name, v) :: members'
      else if String.ltb name k then (name, v) :: (k, x) :: members'
      else (k, x) :: struct_set name v members'
  end.

(** [hasMember(name)]: a struct that holds the key. *)
Definition hasMember (v : XmlRpcValue) (name : string) : bool :=
  match v with
  | TypeStruct members => bool_decide (is_Some (struct_find name members))
  | _ => false
  end.

(** The value that [v[name]] refers to: [assertStruct()] raises on a value
    that is neither a struct nor invalid, and a key that is missing is
    created with an invalid value. *)
Definition member_of (v : XmlRpcValue) (name : string) : Try XmlRpcValue :=
  match v with
  | TypeStruct members => Value (default TypeInvalid (struct_find name members))
  | TypeInvalid => Value TypeInvalid
  | _ => Raise (XmlRpcException "type error: expected a struct")
  end.

(** [static_cast<int>(v)], [static_cast<double>(v)]: [assertTypeOrInvalid]
    raises on another type and turns an invalid value into a zero. *)
Definition cast_int (v : XmlRpcValue) : Try Z :=
  match v with
  | TypeInt i => Value i
  | TypeInvalid => Value 0%Z
  | _ => Raise (XmlRpcException "type error")
  end.

Definition cast_double (v : XmlRpcValue) : Try double :=
  match v with
  | TypeDouble d => Value d
  | TypeInvalid => Value 0%Q
  | _ => Raise (XmlRpcException "type error")
  end.

(** [static_cast<std::string>(e[name])] together with [e] afterwards: an
    invalid [e] has become a struct, a missing or invalid member has become
    the empty string. *)
Definition string_member_of (e : XmlRpcValue) (name : string)
  : Try (string * XmlRpcValue) :=
  let read members :=
    match struct_find name members with
    | Some (TypeString s) => Value (s, TypeStruct members)
    | Some TypeInvalid | None =>
        Value ("", TypeStruct (struct_set name (TypeString "") members))
    | Some _ => Raise (XmlRpcException "type error")
    end in
  match e with
  | TypeStruct members => read members
  | TypeInvalid => read []
  | _ => Raise (XmlRpcException "type error: expected a struct")
  end.

(** ** Solver configuration from parameters *)

Definition set_control_cost_weight (x : double) (c : StompConfiguration)
  : StompConfiguration :=
  {| num_iterations := num_iterations c;
     num_iterations_after_valid := num_iterations_after_valid c;
     num_timesteps := num_timesteps c;
     num_dimensions := num_dimensions c;
     delta_t := delta_t c;
     initialization_method := initialization_method c;
     num_rollouts := num_rollouts c;
     max_rollouts := max_rollouts c;
     control_cost_weight := x;
     exponentiated_cost_sensitivity := exponentiated_cost_sensitivity c |}.

Definition set_initialization_method (x : Z) (c : StompConfiguration)
  : StompConfiguration :=
  {| num_iterations := num_iterations c;
     num_iterations_after_valid := num_iterations_after_valid c;
     num_timesteps := num_timesteps c;
     num_dimensions := num_dimensions c;
     delta_t := delta_t c;
     initialization_method := x;
     num_rollouts := num_rollouts c;
     max_rollouts := max_rollouts c;
     control_cost_weight := control_cost_weight c;
     exponentiated_cost_sensitivity := exponentiated_cost_sensitivity c |}.

Definition set_delta_t (x : double) (c : StompConfiguration)
  : StompConfiguration :=
  {| num_iterations := num_iterations c;
     num_iterations_after_valid := num_iterations_after_valid c;
     num_timesteps := num_timesteps c;
     num_dimensions := num_dimensions c;
     delta_t := x;
     initialization_method := initialization_method c;
     num_rollouts := num_rollouts c;
     max_rollouts := max_rollouts c;
     control_cost_weight := control_cost_weight c;
     exponentiated_cost_sensitivity := exponentiated_cost_sensitivity c |}.

Definition set_num_iterations (x : Z) (c : StompConfiguration)
  : StompConfiguration :=
  {| num_iterations := x;
     num_iterations_after_valid := num_iterations_after_valid c;
     num_timesteps := num_timesteps c;
     num_dimensions := num_dimensions c;
     delta_t := delta_t c;
     initialization_method := initialization_method c;
     num_rollouts := num_rollouts c;
     max_rollouts := max_rollouts c;
     control_cost_weight := control_cost_weight c;
     exponentiated_cost_sensitivity := exponentiated_cost_sensitivity c |}.

Definition set_num_iterations_after_valid (x : Z) (c : StompConfiguration)
  : StompConfiguration :=
  {| num_iterations := num_iterations c;
     num_iterations_after_valid := x;
     num_timesteps := num_timesteps c;
     num_dimensions := num_dimensions c;
     delta_t := delta_t c;
     initialization_method := initialization_method c;
     num_rollouts := num_rollouts c;
     max_rollouts := max_rollouts c;
     control_cost_weight := control_cost_weight c;
     exponentiated_cost_sensitivity := exponentiated_cost_sensitivity c |}.

Definition set_max_rollouts (x : Z) (c : StompConfiguration)
  : StompConfiguration :=
  {| num_iterations := num_iterations c;
     num_iterations_after_valid := num_iterations_after_valid c;
     num_timesteps := num_timesteps c;
     num_dimensions := num_dimensions c;
     delta_t := delta_t c;
     initialization_method := initialization_method c;
     num_rollouts := num_rollouts c;
     max_rollouts := x;
     control_cost_weight := control_cost_weight c;
     exponentiated_cost_sensitivity := exponentiated_cost_sensitivity c |}.

Definition set_num_rollouts (x : Z) (c : StompConfiguration)
  : StompConfiguration :=
  {| num_iterations := num_iterations c;
     num_iterations_after_valid := num_iterations_after_valid c;
     num_timesteps := num_timesteps c;
     num_dimensions := num_dimensions c;
     delta_t := delta_t c;
     initialization_method := initialization_method c;
     num_rollouts := x;
     max_rollouts := max_rollouts c;
     control_cost_weight := control_cost_weight c;
     exponentiated_cost_sensitivity := exponentiated_cost_sensitivity c |}.

Definition set_exponentiated_cost_sensitivity (x : double)
    (c : StompConfiguration) : StompConfiguration :=
  {| num_iterations := num_iterations c;
     num_iterations_after_valid := num_iterations_after_valid c;
     num_timesteps := num_timesteps c;
     num_dimensions := num_dimensions c;
     delta_t := delta_t c;
     initialization_method := initialization_method c;
     num_rollouts := num_rollouts c;
     max_rollouts := max_rollouts c;
     control_cost_weight := control_cost_weight c;
     exponentiated_cost_sensitivity := x |}.

Definition set_num_dimensions (x : Z) (c : StompConfiguration)
  : StompConfiguration :=
  {| num_iterations := num_iterations c;
     num_iterations_after_valid := num_iterations_after_valid c;
     num_timesteps := num_timesteps c;
     num_dimensions := x;
     delta_t := delta_t c;
     initialization_method := initialization_method c;
     num_rollouts := num_rollouts c;
     max_rollouts := max_rollouts c;
     control_cost_weight := control_cost_weight c;
     exponentiated_cost_sensitivity := exponentiated_cost_sensitivity c |}.

(** [if (config.hasMember(key)) field = static_cast<int>(config[key]);] *)
Definition load_int (config : XmlRpcValue) (key : string)
    (set : Z -> StompConfiguration -> StompConfiguration)
    (c : StompConfiguration) : Try StompConfiguration :=
  if hasMember config key then
    v ← member_of config key; i ← cast_int v; mret (set i c)
  else mret c.

(** [if (config.hasMember(key)) field = static_cast<double>(config[key]);] *)
Definition load_double (config : XmlRpcValue) (key : string)
    (set : double -> StompConfiguration -> StompConfiguration)
    (c : StompConfiguration) : Try StompConfiguration :=
  if hasMember config key then
    v ← member_of config key; d ← cast_double v; mret (set d c)
  else mret c.

(** Lines 49-57: the default values of the optional parameters. *)
Definition default_parameters (c : StompConfiguration) : StompConfiguration :=
  let c := set_control_cost_weight 0%Q c in
  let c := set_initialization_method 1 c in
  let c := set_num_timesteps 40 c in
  let c := set_delta_t 1%Q c in
  let c := set_num_iterations 50 c in
  let c := set_num_iterations_after_valid 0 c in
  let c := set_max_rollouts 100 c in
  let c := set_num_rollouts 10 c in
  set_exponentiated_cost_sensitivity 10%Q c.

(** Lines 59-85: the optional parameters that the configuration holds; the
    cost sensitivity is read with [static_cast<int>] (line 85) and stored in
    a [double]. *)
Definition load_parameters (config : XmlRpcValue) (c : StompConfiguration)
  : Try StompConfiguration :=
  c ← load_double config "control_cost_weight" set_control_cost_weight c;
  c ← load_int config "initialization_method" set_initialization_method c;
  c ← load_int config "num_timesteps" set_num_timesteps c;
  c ← load_double config "delta_t" set_delta_t c;
  c ← load_int config "num_iterations" set_num_iterations c;
  c ← load_int config "num_iterations_after_valid"
        set_num_iterations_after_valid c;
  c ← load_int config "max_rollouts" set_max_rollouts c;
  c ← load_int config "num_rollouts" set_num_rollouts c;
  load_int config "exponentiated_cost_sensitivity"
    (fun i => set_exponentiated_cost_sensitivity (double_of_int i)) c.

(** Lines 45-96. The group is the planner's, whose active joints the robot
    model lists. A raise leaves the function with the structure half
    written; the caller gives it up. *)
Definition parseConfig (config : XmlRpcValue) (group : RobotModel)
    (stomp_config : StompConfiguration) : Try (bool * StompConfiguration) :=
  (* Set default values for optional config parameters *)
  let c := default_parameters stomp_config in
  (* Load optional config parameters if they exist *)
  c ← load_parameters config c;
  (* getting number of joints *)
  let c :=
    set_num_dimensions
      (int_of_size_t (length (active_joint_model_names group))) c in
  if bool_decide (num_dimensions c = 0%Z) then mret (false, c)
  else mret (true, c).

(** ** Construction of the planner *)

Definition set_planning_scene (scene : option PlanningScene)
    (P : StompPlanner) : StompPlanner :=
  {| group_ := group_ P; robot_model_ := robot_model_ P;
     stomp_config_ := stomp_config_ P; stomp_ := stomp_ P;
     request_ := request_ P; planning_scene_ := scene |}.

Definition set_stomp_config (c : StompConfiguration) (P : StompPlanner)
  : StompPlanner :=
  {| group_ := group_ P; robot_model_ := robot_model_ P;
     stomp_config_ := c; stomp_ := stomp_ P;
     request_ := request_ P; planning_scene_ := planning_scene_ P |}.

(** What [setup()] asks of code outside this file:
    - [new_PlanningScene model]: a planning scene for the robot model;
    - [new_StompOptimizationTask model group task_config]: the constructor
      of the optimization task, [Some e] when it raises [e];
    - [hasJointModelGroup model group]. *)
Record Construction := {
  new_PlanningScene : RobotModel -> PlanningScene;
  new_StompOptimizationTask :
    RobotModel -> string -> XmlRpcValue -> option Exception;
  hasJointModelGroup : RobotModel -> string -> bool
}.

(** The handler of lines 146-149. *)
Definition rethrow_as_logic_error {A} (group : string) (body : Try A)
  : Try A :=
  match body with
  | Raise (XmlRpcException message) =>
      Raise (logic_error
               ("Stomp Planner failed to load configuration for group '"
                ++ group ++ "'; " ++ message))
  | other => other
  end.

(** Lines 114-151, run on the planner [P] that the constructor has
    initialised with its group and robot model, with [config_] as the
    configuration member. The optimizer is constructed from the parsed
    configuration and holds it. *)
Definition setup (ext : Construction) (config_ : XmlRpcValue)
    (P : StompPlanner) : Try StompPlanner :=
  let P :=
    match planning_scene_ P with
    | None =>
        set_planning_scene (Some (new_PlanningScene ext (robot_model_ P))) P
    | Some _ => P
    end in
  (* loading parameters *)
  rethrow_as_logic_error (group_ P)
    ((* creating tasks *)
     task_config ← member_of config_ "task";
     match new_StompOptimizationTask ext (robot_model_ P) (group_ P)
             task_config with
     | Some e => Raise e
     | None =>
         if negb (hasJointModelGroup ext (robot_model_ P) (group_ P)) then
           Raise (logic_error ("Stomp Planning Group '" ++ group_ P
                               ++ "' was not found"))
         else
           (* parsing stomp parameters *)
           let failed_to_load :=
             logic_error ("Stomp 'optimization' parameter for group '"
                          ++ group_ P ++ "' failed to load") in
           if negb (hasMember config_ "optimization") then Raise failed_to_load
           else
             optimization ← member_of config_ "optimization";
             '(parsed, stomp_config) ←
               parseConfig optimization (robot_model_ P) (stomp_config_ P);
             if negb parsed then Raise failed_to_load
             else
               mret (set_stomp
                       (Some {| stomp_applied_config := stomp_config |})
                       (set_stomp_config stomp_config P))
     end).

(** ** Planner configurations by group *)

(** [config.insert(std::make_pair(k, v))]: an existing entry stays. *)
Definition insert_if_absent (k : string) (v : XmlRpcValue)
    (config : gmap string XmlRpcValue) : gmap string XmlRpcValue :=
  match config !! k with
  | Some _ => config
  | None => <[k := v]> config
  end.

(** Lines 512-525: the loop over the members of the parameter inside its
    [try] block; a raise ends it with [false] and leaves in the map what was
    inserted before. *)
Fixpoint collect_groups (members : list (string * XmlRpcValue))
    (config : gmap string XmlRpcValue) : bool * gmap string XmlRpcValue :=
  match members with
  | [] => (true, config)
  | (_, element) :: members' =>
      match string_member_of element "group_name" with
      | Value (group_name, element) =>
          collect_groups members'
            (insert_if_absent group_name element config)
      | Raise _ => (false, config)
      end
  end.

(** Lines 500-526; [getParam] is [nh.getParam], [None] when the parameter
    is not set. [begin()] raises on a value that is neither a struct nor
    invalid, and makes an invalid value an empty struct. *)
Definition getConfigData (getParam : string -> option XmlRpcValue)
    (config : gmap string XmlRpcValue) (param : string)
  : bool * gmap string XmlRpcValue :=
  match getParam param with
  | None => (false, config)
  | Some stomp_config =>
      (* each element under 'stomp' should be a group name *)
      match stomp_config with
      | TypeStruct members => collect_groups members config
      | TypeInvalid => (true, config)
      | _ => (false, config)
      end
  end.

(** ** Vocabulary of the further statements *)

(** The nine optional parameters of the solver configuration. *)
Definition optional_parameters : list string :=
  [ "control_cost_weight"; "initialization_method"; "num_timesteps";
    "delta_t"; "num_iterations"; "num_iterations_after_valid";
    "max_rollouts"; "num_rollouts"; "exponentiated_cost_sensitivity" ].

(** The integer, or double, that a struct holds under [key], [d] when it
    holds none. *)
Definition int_parameter (members : list (string * XmlRpcValue))
    (key : string) (d : Z) : Z :=
  match struct_find key members with
  | Some (TypeInt i) => i
  | _ => d
  end.

Definition double_parameter (members : list (string * XmlRpcValue))
    (key : string) (d : double) : double :=
  match struct_find key members with
  | Some (TypeDouble x) => x
  | _ => d
  end.

(** The member under [key], when present, is an integer, or a double. *)
Definition int_typed (members : list (string * XmlRpcValue)) (key : string)
  : Prop :=
  struct_find key members = None \/
  exists i, struct_find key members = Some (TypeInt i).

Definition double_typed (members : list (string * XmlRpcValue)) (key : string)
  : Prop :=
  struct_find key members = None \/
  exists d, struct_find key members = Some (TypeDouble d).

(** The goal constraint set carries the pose that lines 405-410 read: its
    first position constraint has a first primitive pose, whose position is
    taken, and it has a first orientation constraint, whose orientation is
    taken. *)
Definition carries_pose (gc : Constraints) (pose : Pose) : Prop :=
  exists pos_constraint orient_constraint primitive_pose,
    head (position_constraints gc) = Some pos_constraint /\
    head (orientation_constraints gc) = Some orient_constraint /\
    primitive_poses pos_constraint !! 0 = Some primitive_pose /\
    pose = {| pose_position := pose_position primitive_pose;
              pose_orientation := oc_orientation orient_constraint |}.

(** ** A two-joint planning group, used to run the definitions *)

Module Fixture.

Definition model : RobotModel :=
  {| variable_bounds :=
       <["j1" := {| min_position := -(1); max_position := 1 |}]>
         (<["j2" := {| min_position := -(2); max_position := 2 |}]> ∅);
     active_joint_model_names := ["j1"; "j2"];
     link_model_names := ["base_link"; "tool0"] |}.

(** A conversion that accepts a message with one position per name. *)
Definition parse (msg : RobotStateMsg) (state : RobotState)
  : bool * RobotState :=
  if bool_decide (length (js_name msg) = length (js_position msg))
  then (true, list_to_map (zip (js_name msg) (js_position msg)) ∪ state)
  else (false, state).

Definition ik_unreachable (state : RobotState) (group : string) (pose : Pose)
    (tip : string) (attempts : Z) (timeout : double) : bool * RobotState :=
  (false, state).

Definition ik_reachable (state : RobotState) (group : string) (pose : Pose)
    (tip : string) (attempts : Z) (timeout : double) : bool * RobotState :=
  (true, <["j1" := (1 # 2)%Q]> (<["j2" := (3 # 2)%Q]> state)).

Definition bind_ok (scene : option PlanningScene) (req : MotionPlanRequest)
    (config : StompConfiguration) (code : Z) : bool * Z := (true, code).

Definition bind_refused (scene : option PlanningScene)
    (req : MotionPlanRequest) (config : StompConfiguration) (code : Z)
  : bool * Z := (false, code).

(** An optimizer that hands the seed back, or joins start and goal. *)
Definition optimize_seed (stomp : Stomp) (initial : MatrixXd)
  : bool * MatrixXd := (true, initial).

Definition optimize_boundary (stomp : Stomp) (start goal : VectorXd)
  : bool * MatrixXd :=
  (true, {| rows := length start; cols := 2; data := start ++ goal |}).

Definition no_timing (traj : RobotTrajectory) (scale : double)
  : bool * RobotTrajectory := (false, traj).

(** A time parameterization that stamps every sample and leaves the
    positions alone. *)
Definition stamp (pt : JointTrajectoryPoint) : JointTrajectoryPoint :=
  {| positions := positions pt;
     velocities := (fun _ => (1 # 2)%Q) <$> positions pt;
     accelerations := accelerations pt;
     time_from_start := 1%Q |}.

Definition timing (traj : RobotTrajectory) (scale : double)
  : bool * RobotTrajectory :=
  (true, {| rt_reference := rt_reference traj;
            rt_msg := {| joint_names := joint_names (rt_msg traj);
                         points := stamp <$> points (rt_msg traj) |} |}).

(** One second between two readings of the clock. *)
Definition clock (k : nat) : Z := (1000000000 * Z.of_nat k)%Z.

Definition env : Collaborators :=
  {| robotStateMsgToRobotState := parse;
     setFromIK := ik_reachable;
     task_setMotionPlanRequest := bind_ok;
     stomp_solve_seeded := optimize_seed;
     stomp_solve_boundary := optimize_boundary;
     stomp_cancel := fun _ => true;
     computeTimeStamps := timing;
     wall_time := clock |}.

Definition env_untimed : Collaborators :=
  {| robotStateMsgToRobotState := parse;
     setFromIK := ik_unreachable;
     task_setMotionPlanRequest := bind_ok;
     stomp_solve_seeded := optimize_seed;
     stomp_solve_boundary := optimize_boundary;
     stomp_cancel := fun _ => false;
     computeTimeStamps := no_timing;
     wall_time := clock |}.

Definition config : StompConfiguration :=
  {| num_iterations := 50; num_iterations_after_valid := 0;
     num_timesteps := 40; num_dimensions := 2; delta_t := 1%Q;
     initialization_method := 1; num_rollouts := 10; max_rollouts := 100;
     control_cost_weight := 0%Q; exponentiated_cost_sensitivity := 10%Q |}.

Definition free_scene : PlanningScene :=
  {| isPathValid := fun _ _ _ => true |}.
Definition blocked_scene : PlanningScene :=
  {| isPathValid := fun _ _ _ => false |}.

Definition start_msg : RobotStateMsg :=
  {| js_name := ["j1"; "j2"]; js_position := [0%Q; 0%Q] |}.

Definition joint_goal (p1 p2 : double) : Constraints :=
  {| joint_constraints :=
       [ {| jc_joint_name := "j1"; jc_position := p1 |};
         {| jc_joint_name := "j2"; jc_position := p2 |} ];
     position_constraints := []; orientation_constraints := [] |}.

Definition cartesian_goal : Constraints :=
  {| joint_constraints := [];
     position_constraints := [ {| primitive_poses := [Pose_new] |} ];
     orientation_constraints := [ {| oc_orientation := Quaternion_new |} ] |}.

Definition request (goals seed : list Constraints) : MotionPlanRequest :=
  {| group_name := "arm"; start_state := start_msg;
     goal_constraints := goals; trajectory_constraints := seed;
     max_velocity_scaling_factor := 1%Q |}.

Definition stomp_planner (req : MotionPlanRequest)
    (scene : option PlanningScene) : StompPlanner :=
  {| group_ := "arm"; robot_model_ := model; stomp_config_ := config;
     stomp_ := Some {| stomp_applied_config := config |};
     request_ := req; planning_scene_ := scene |}.

Definition world (P : StompPlanner) : World :=
  {| planner := P; clock_reads := 0; trace := [] |}.

Definition sample (p1 p2 : double) : JointTrajectoryPoint :=
  {| positions := [p1; p2]; velocities := []; accelerations := [];
     time_from_start := 0%Q |}.

Definition path : JointTrajectory :=
  {| joint_names := ["j1"; "j2"];
     points := [sample 0 0; sample (1 # 4) (1 # 2); sample (1 # 2) 1]%Q |}.

Definition fresh_response : MotionPlanDetailedResponse :=
  MotionPlanDetailedResponse_new.

(** A joint-space goal inside the bounds, in a scene that rejects every
    path. *)
Definition colliding_planner : StompPlanner :=
  stomp_planner (request [joint_goal 1 (1 # 2)%Q] []) (Some blocked_scene).

(** A joint-space goal whose first position lies beyond the bounds of
    [j1]. *)
Definition far_goal_planner : StompPlanner :=
  stomp_planner (request [joint_goal 5 (1 # 2)%Q] []) (Some free_scene).

Definition cartesian_planner : StompPlanner :=
  stomp_planner (request [cartesian_goal] []) (Some free_scene).

(** A request without goal constraints. *)
Definition goalless_planner : StompPlanner :=
  stomp_planner (request [] []) (Some free_scene).

(** A seed of two way points that match the group. *)
Definition seeded_planner : StompPlanner :=
  stomp_planner
    (request [joint_goal 1 1] [joint_goal 0 0; joint_goal 1 1])
    (Some free_scene).

(** A seed way point with three joint constraints for the two joints. *)
Definition three_joint_waypoint : Constraints :=
  {| joint_constraints :=
       [ {| jc_joint_name := "j1"; jc_position := 0%Q |};
         {| jc_joint_name := "j2"; jc_position := 0%Q |};
         {| jc_joint_name := "j3"; jc_position := 0%Q |} ];
     position_constraints := []; orientation_constraints := [] |}.

Definition misseeded_planner : StompPlanner :=
  stomp_planner (request [joint_goal 1 1] [three_joint_waypoint])
                (Some free_scene).

(** A planner whose optimizer was never created. *)
Definition unset_planner : StompPlanner :=
  set_stomp None goalless_planner.

End Fixture.

(** ** Further collaborators for the two-joint group *)

Module Scenario.



(** An optimizer that does not converge. *)
Definition env_diverging : Collaborators :=
  {| robotStateMsgToRobotState := Fixture.parse;
     setFromIK := Fixture.ik_reachable;
     task_setMotionPlanRequest := Fixture.bind_ok;
     stomp_solve_seeded := fun _ initial => (false, initial);
     stomp_solve_boundary :=
       fun _ start goal => (false, MatrixXd_new 0 0);
     stomp_cancel := fun _ => true;
     computeTimeStamps := Fixture.timing;
     wall_time := Fixture.clock |}.

(** A time parameterization that succeeds and hands back other positions
    than it was given: every position one unit higher. *)
Definition moved (pt : JointTrajectoryPoint) : JointTrajectoryPoint :=
  {| positions := (fun p => (p + 1)%Q) <$> positions pt;
     velocities := velocities pt;
     accelerations := accelerations pt;
     time_from_start := time_from_start pt |}.

Definition rewriting_timing (traj : RobotTrajectory) (scale : double)
  : bool * RobotTrajectory :=
  (true, {| rt_reference := rt_reference traj;
            rt_msg := {| joint_names := joint_names (rt_msg traj);
                         points := moved <$> points (rt_msg traj) |} |}).

Definition env_rewriting : Collaborators :=
  {| robotStateMsgToRobotState := Fixture.parse;
     setFromIK := Fixture.ik_reachable;
     task_setMotionPlanRequest := Fixture.bind_ok;
     stomp_solve_seeded := Fixture.optimize_seed;
     stomp_solve_boundary := Fixture.optimize_boundary;
     stomp_cancel := fun _ => true;
     computeTimeStamps := rewriting_timing;
     wall_time := Fixture.clock |}.

(** A joint-space goal inside the bounds, in a scene that accepts every
    path. *)
Definition reachable_planner : StompPlanner :=
  Fixture.stomp_planner (Fixture.request [Fixture.joint_goal 1 (1 # 2)%Q] [])
                        (Some Fixture.free_scene).

Definition compact_response : MotionPlanResponse :=
  {| r_trajectory_ := None; r_planning_time_ := 0%Q; r_error_code_ := 0 |}.

End Scenario.

(** ** A parameter tree for the two-joint group *)

Module Launch.

Definition construction : Construction :=
  {| new_PlanningScene := fun _ => Fixture.free_scene;
     new_StompOptimizationTask := fun _ _ _ => None;
     hasJointModelGroup := fun _ group => bool_decide (group = "arm") |}.

Definition optimization : XmlRpcValue :=
  TypeStruct [("num_rollouts", TypeInt 5); ("num_timesteps", TypeInt 20)].

Definition arm_config : XmlRpcValue :=
  TypeStruct [("group_name", TypeString "arm");
              ("optimization", optimization);
              ("task", TypeStruct [])].

(** A second entry that also claims the group [arm], and an entry whose
    group name is a number. *)
Definition arm_again : XmlRpcValue :=
  TypeStruct [("group_name", TypeString "arm")].

Definition misnamed : XmlRpcValue :=
  TypeStruct [("group_name", TypeInt 3)].

(** The planner as the constructor leaves it before [setup()] runs. *)
Definition unconfigured (group : string) : StompPlanner :=
  {| group_ := group; robot_model_ := Fixture.model;
     stomp_config_ := Fixture.config; stomp_ := None;
     request_ := Fixture.request [] []; planning_scene_ := None |}.

(** What the parameters of [optimization] amount to for the group. *)
Definition parsed_config : StompConfiguration :=
  {| num_iterations := 50; num_iterations_after_valid := 0;
     num_timesteps := 20; num_dimensions := 2; delta_t := 1%Q;
     initialization_method := 1; num_rollouts := 5; max_rollouts := 100;
     control_cost_weight := 0%Q; exponentiated_cost_sensitivity := 10%Q |}.

(** The planner that [setup()] makes of [unconfigured "arm"]. *)
Definition configured : StompPlanner :=
  {| group_ := "arm"; robot_model_ := Fixture.model;
     stomp_config_ := parsed_config;
     stomp_ := Some {| stomp_applied_config := parsed_config |};
     request_ := Fixture.request [] [];
     planning_scene_ := Some Fixture.free_scene |}.

Definition parameters (name : string) : option XmlRpcValue :=
  if String.eqb name "stomp"
  then Some (TypeStruct [("a", arm_config); ("b", arm_again)])
  else None.

End Launch.
(** * Properties *)

(** ** Matrices filled coefficient by coefficient *)

Lemma column_major_index_inj (r i j i' j' : nat) :
  i < r -> i' < r -> i + j * r = i' + j' * r -> j = j'.
Proof.
  intros Hi Hi' H.
  destruct (Nat.lt_trichotomy j j') as [Hlt | [Heq | Hgt]];
    [exfalso | done | exfalso].
  - assert (j * r + r <= j' * r).
    { replace (j * r + r) with (S j * r) by lia.
      apply Nat.mul_le_mono_r. lia. }
    lia.
  - assert (j' * r + r <= j * r).
    { replace (j' * r + r) with (S j' * r) by lia.
      apply Nat.mul_le_mono_r. lia. }
    lia.
Qed.

Lemma column_major_index_lt (r c i j : nat) :
  i < r -> j < c -> i + j * r < r * c.
Proof.
  intros Hi Hj.
  assert (S j * r <= c * r) by (apply Nat.mul_le_mono_r; lia).
  lia.
Qed.

Lemma coeff_set_coeff (m : MatrixXd) (i j i' j' : nat) (v : double) :
  MatrixXd_wf m -> i < rows m -> j < cols m -> i' < rows m ->
  coeff (set_coeff m i j v) i' j' =
    if decide (i' = i /\ j' = j) then v else coeff m i' j'.
Proof.
  unfold MatrixXd_wf, coeff, set_coeff. cbn. intros Hwf Hi Hj Hi'.
  case_decide as Heq.
  - destruct Heq as [-> ->].
    rewrite list_lookup_insert_eq; [done |].
    pose proof (column_major_index_lt (rows m) (cols m) i j Hi Hj). lia.
  - rewrite list_lookup_insert_ne; [done |].
    intros Hidx. apply Heq.
    assert (j' = j) as -> by (symmetry; eauto using column_major_index_inj).
    split; [lia | done].
Qed.

Lemma set_coeff_wf (m : MatrixXd) (i j : nat) (v : double) :
  MatrixXd_wf m -> MatrixXd_wf (set_coeff m i j v).
Proof. unfold MatrixXd_wf, set_coeff. cbn. by rewrite length_insert. Qed.

Lemma fill_column_shape (traj : JointTrajectory) (n step : nat) (m : MatrixXd) :
  MatrixXd_wf m ->
  rows (fill_column traj n step m) = rows m /\
  cols (fill_column traj n step m) = cols m /\
  MatrixXd_wf (fill_column traj n step m).
Proof.
  intros Hwf. unfold fill_column. induction n as [|n IH].
  - done.
  - rewrite seq_S, foldl_snoc. cbn. destruct IH as (Hr & Hc & Hw).
    repeat split; [done | done | by apply set_coeff_wf].
Qed.

Lemma fill_column_coeff (traj : JointTrajectory) (n step : nat) (m : MatrixXd)
    (i t : nat) :
  MatrixXd_wf m -> n <= rows m -> step < cols m -> i < rows m ->
  coeff (fill_column traj n step m) i t =
    if decide (t = step /\ i < n) then position_at traj step i
    else coeff m i t.
Proof.
  intros Hwf Hn Hstep Hi. induction n as [|n IH].
  - cbn. case_decide; [lia | done].
  - destruct (fill_column_shape traj n step m Hwf) as (Hr & Hc & Hw).
    unfold fill_column in *. rewrite seq_S, foldl_snoc. cbn.
    rewrite coeff_set_coeff by (rewrite ?Hr, ?Hc; first [done | lia]).
    rewrite IH by lia.
    repeat case_decide; destruct_and?; subst; first [done | exfalso; lia].
Qed.

Lemma fill_steps_shape (traj : JointTrajectory) (dof k : nat) (m : MatrixXd) :
  MatrixXd_wf m ->
  rows (fill_steps traj dof k m) = rows m /\
  cols (fill_steps traj dof k m) = cols m /\
  MatrixXd_wf (fill_steps traj dof k m).
Proof.
  intros Hwf. unfold fill_steps. induction k as [|k IH].
  - done.
  - rewrite seq_S, foldl_snoc. cbn. destruct IH as (Hr & Hc & Hw).
    destruct (fill_column_shape traj dof k _ Hw) as (Hr' & Hc' & Hw').
    repeat split; [congruence | congruence | done].
Qed.

Lemma fill_steps_coeff (traj : JointTrajectory) (k : nat) (m : MatrixXd)
    (i t : nat) :
  MatrixXd_wf m -> k <= cols m -> i < rows m ->
  coeff (fill_steps traj (rows m) k m) i t =
    if decide (t < k) then position_at traj t i else coeff m i t.
Proof.
  intros Hwf Hk Hi. induction k as [|k IH].
  - cbn. case_decide; [lia | done].
  - destruct (fill_steps_shape traj (rows m) k m Hwf) as (Hr & Hc & Hw).
    unfold fill_steps in *. rewrite seq_S, foldl_snoc. cbn.
    rewrite fill_column_coeff by (rewrite ?Hr, ?Hc; first [done | lia]).
    rewrite IH by lia.
    repeat case_decide; destruct_and?; subst; first [done | exfalso; lia].
Qed.

Lemma MatrixXd_new_wf (r c : nat) : MatrixXd_wf (MatrixXd_new r c).
Proof. unfold MatrixXd_wf, MatrixXd_new. cbn. by rewrite length_replicate. Qed.

Lemma jointTrajectorytoParameters_shape (traj : JointTrajectory) :
  rows (snd (jointTrajectorytoParameters traj)) = length (joint_names traj) /\
  cols (snd (jointTrajectorytoParameters traj)) = length (points traj).
Proof.
  unfold jointTrajectorytoParameters. cbn.
  destruct (fill_steps_shape traj (length (joint_names traj))
              (length (points traj))
              (MatrixXd_new (length (joint_names traj)) (length (points traj)))
              (MatrixXd_new_wf _ _)) as (Hr & Hc & _).
  by rewrite Hr, Hc.
Qed.

Lemma jointTrajectorytoParameters_coeff (traj : JointTrajectory) (i t : nat) :
  i < length (joint_names traj) -> t < length (points traj) ->
  coeff (snd (jointTrajectorytoParameters traj)) i t = position_at traj t i.
Proof.
  intros Hi Ht. unfold jointTrajectorytoParameters. cbn.
  pose proof (fill_steps_coeff traj (length (points traj))
                (MatrixXd_new (length (joint_names traj)) (length (points traj)))
                i t (MatrixXd_new_wf _ _)) as H.
  cbn in H. rewrite H by lia.
  case_decide; [done | lia].
Qed.

(** ** Vectors assigned slot by slot *)

Lemma foldl_insert_seq_length {A} (f : nat -> A) (k : nat) (l : list A) :
  length (foldl (fun l t => <[t := f t]> l) l (seq 0 k)) = length l.
Proof.
  induction k as [|k IH]; [done |].
  rewrite seq_S, foldl_snoc. cbn. by rewrite length_insert.
Qed.

Lemma foldl_insert_seq_lookup {A} (f : nat -> A) (k : nat) (l : list A)
    (t : nat) :
  k <= length l ->
  foldl (fun l t => <[t := f t]> l) l (seq 0 k) !! t =
    if decide (t < k) then Some (f t) else l !! t.
Proof.
  intros Hk. induction k as [|k IH].
  - cbn. case_decide; [lia | done].
  - rewrite seq_S, foldl_snoc. cbn.
    destruct (decide (t = k)) as [-> | Hne].
    + rewrite list_lookup_insert_eq
        by (rewrite foldl_insert_seq_length; lia).
      by rewrite decide_True by lia.
    + rewrite list_lookup_insert_ne by done. rewrite IH by lia.
      repeat case_decide; first [done | exfalso; lia].
Qed.

Lemma parameters_to_points_lookup (parameters : MatrixXd) (t : nat) :
  parameters_to_points parameters !! t =
    if decide (t < cols parameters) then Some (untimed_point parameters t)
    else None.
Proof.
  unfold parameters_to_points.
  rewrite (foldl_insert_seq_lookup (untimed_point parameters))
    by (rewrite length_replicate; lia).
  case_decide; [done |].
  apply lookup_replicate_None. lia.
Qed.

Lemma parameters_to_points_length (parameters : MatrixXd) :
  length (parameters_to_points parameters) = cols parameters.
Proof.
  unfold parameters_to_points.
  rewrite (foldl_insert_seq_length (untimed_point parameters)).
  apply length_replicate.
Qed.

Lemma positions_as_reads (l : list double) :
  (fun i => default 0%Q (l !! i)) <$> seq 0 (length l) = l.
Proof.
  apply list_eq. intros i. rewrite list_lookup_fmap.
  destruct (decide (i < length l)) as [Hlt | Hge].
  - rewrite lookup_seq_lt by done. cbn.
    destruct (lookup_lt_is_Some_2 l i Hlt) as [x ->]. done.
  - rewrite lookup_seq_ge by lia. cbn.
    symmetry. apply lookup_ge_None. lia.
Qed.

(** The structural part of the round trip: the sample points read back from
    the matrix hold the positions of the trajectory they came from. *)
Lemma structural_round_trip (traj : JointTrajectory) :
  (forall pt, pt ∈ points traj ->
              length (positions pt) = length (joint_names traj)) ->
  positions <$>
    parameters_to_points (snd (jointTrajectorytoParameters traj)) =
  positions <$> points traj.
Proof.
  intros Hshape.
  destruct (jointTrajectorytoParameters_shape traj) as [Hrows Hcols].
  pose proof (jointTrajectorytoParameters_coeff traj) as Hcoeff.
  remember (snd (jointTrajectorytoParameters traj)) as mat eqn:Hmat.
  clear Hmat.
  apply list_eq. intros t. rewrite !list_lookup_fmap.
  rewrite parameters_to_points_lookup, Hcols.
  case_decide as Ht.
  - destruct (lookup_lt_is_Some_2 (points traj) t Ht) as [pt Hpt].
    rewrite Hpt. cbn. f_equal. unfold col. rewrite Hrows.
    rewrite <- (positions_as_reads (positions pt)).
    rewrite (Hshape pt) by (by eapply list_elem_of_lookup_2).
    apply list_fmap_ext. intros k i Hi.
    apply lookup_seq in Hi as [-> Hi].
    rewrite Hcoeff by done.
    unfold position_at. by rewrite Hpt.
  - rewrite (proj2 (lookup_ge_None (points traj) t)) by lia. done.
Qed.

(** ** Joint bounds *)

Lemma Qltb_true (x y : double) : Qltb x y = true -> (x < y)%Q.
Proof.
  unfold Qltb. intros H. apply negb_true_iff in H.
  apply Qnot_le_lt. intros Hle. apply Qle_bool_iff in Hle. congruence.
Qed.

Lemma Qltb_false (x y : double) : Qltb x y = false -> (y <= x)%Q.
Proof.
  unfold Qltb. intros H. apply negb_false_iff in H. by apply Qle_bool_iff.
Qed.

Lemma Qltb_irrefl (x : double) : Qltb x x = false.
Proof.
  unfold Qltb. apply negb_false_iff, Qle_bool_iff, Qle_refl.
Qed.

Lemma Qltb_le_false (x y : double) : (x <= y)%Q -> Qltb y x = false.
Proof. intros H. unfold Qltb. by apply negb_false_iff, Qle_bool_iff. Qed.

Lemma clamp_within (b : VariableBounds) (v : double) :
  (min_position b <= max_position b)%Q -> within_bounds b (clamp b v).
Proof.
  intros Hb. unfold clamp, within_bounds.
  destruct (Qltb v (min_position b)) eqn:Hlo.
  - split; [apply Qle_refl | done].
  - destruct (Qltb (max_position b) v) eqn:Hhi.
    + split; [done | apply Qle_refl].
    + split; by apply Qltb_false.
Qed.

Lemma clamp_idem (b : VariableBounds) (v : double) :
  (min_position b <= max_position b)%Q -> clamp b (clamp b v) = clamp b v.
Proof.
  intros Hb. unfold clamp.
  destruct (Qltb v (min_position b)) eqn:Hlo.
  - by rewrite Qltb_irrefl, (Qltb_le_false _ _ Hb).
  - destruct (Qltb (max_position b) v) eqn:Hhi.
    + by rewrite (Qltb_le_false _ _ Hb), Qltb_irrefl.
    + by rewrite Hlo, Hhi.
Qed.

Lemma position_of_insert (state : RobotState) (name x : string) (v : double) :
  position_of (<[name := v]> state) x =
    if decide (name = x) then v else position_of state x.
Proof.
  unfold position_of. rewrite lookup_insert. by case_decide.
Qed.

(** The loop of [enforceBounds], over any list of joint names. *)
Lemma enforce_loop_position (model : RobotModel) (names : list string)
    (state : RobotState) (x : string) :
  bounds_ordered model ->
  position_of
    (foldl (fun st name =>
              match variable_bounds model !! name with
              | Some b => <[name := clamp b (position_of st name)]> st
              | None => st
              end) state names) x =
    match variable_bounds model !! x with
    | Some b => if decide (x ∈ names) then clamp b (position_of state x)
                else position_of state x
    | None => position_of state x
    end.
Proof.
  intros Hord. revert state. induction names as [|name names IH]; intros state.
  - cbn. destruct (variable_bounds model !! x); [|done].
    rewrite decide_False; [done | apply not_elem_of_nil].
  - cbn [foldl]. rewrite IH.
    destruct (variable_bounds model !! name) as [b|] eqn:Hname.
    + rewrite position_of_insert.
      destruct (decide (name = x)) as [-> | Hne].
      * rewrite Hname. rewrite (decide_True (P := x ∈ x :: names))
          by apply list_elem_of_here.
        case_decide; [by apply clamp_idem, (Hord x) | done].
      * destruct (variable_bounds model !! x); [|done].
        destruct (decide (x ∈ names)) as [Hin | Hnin];
          [rewrite decide_True by (by apply list_elem_of_further)
          | rewrite decide_False
              by (apply not_elem_of_cons; split; [congruence | done])];
          done.
    + destruct (variable_bounds model !! x) as [b|] eqn:Hx; [|done].
      assert (name <> x) by congruence.
      destruct (decide (x ∈ names)) as [Hin | Hnin];
        [rewrite decide_True by (by apply list_elem_of_further)
        | rewrite decide_False
            by (apply not_elem_of_cons; split; [congruence | done])];
        done.
Qed.

Lemma enforceBounds_position (model : RobotModel) (state : RobotState)
    (x : string) (b : VariableBounds) :
  bounds_ordered model ->
  x ∈ active_joint_model_names model ->
  variable_bounds model !! x = Some b ->
  position_of (enforceBounds model state) x = clamp b (position_of state x).
Proof.
  intros Hord Hin Hb. unfold enforceBounds.
  rewrite enforce_loop_position by done. rewrite Hb. by rewrite decide_True.
Qed.

(** ** Reading and writing the robot state *)

Lemma read_positions_known (model : RobotModel) (state : RobotState)
    (names : list string) (j : nat) (v : list double) :
  (forall name, name ∈ names -> is_Some (variable_bounds model !! name)) ->
  length v = j + length names ->
  read_positions model state names j v =
    Returned (take j v ++ (position_of state <$> names))%list.
Proof.
  revert j v. induction names as [|name names IH]; intros j v Hknown Hlen.
  - cbn in *. rewrite app_nil_r, take_ge by lia. done.
  - cbn [read_positions]. unfold getVariablePosition.
    destruct (Hknown name) as [b ->]; [apply list_elem_of_here |].
    rewrite IH.
    + f_equal. cbn [fmap list_fmap].
      rewrite (take_S_r _ _ (position_of state name)).
      * rewrite take_insert_ge by lia. by rewrite <- app_assoc.
      * apply list_lookup_insert_eq. cbn in Hlen. lia.
    + intros n Hn. apply Hknown. by apply list_elem_of_further.
    + rewrite length_insert. cbn in Hlen. lia.
Qed.

Lemma read_positions_group (model : RobotModel) (state : RobotState) :
  group_in_model model ->
  read_positions model state (active_joint_model_names model) 0
    (replicate (length (active_joint_model_names model)) 0%Q) =
    Returned (position_of state <$> active_joint_model_names model).
Proof.
  intros Hgroup. rewrite read_positions_known.
  - done.
  - done.
  - by rewrite length_replicate.
Qed.

Lemma set_goal_positions_known (model : RobotModel)
    (jcs : list JointConstraint) (state : RobotState) :
  (forall jc, jc ∈ jcs -> is_Some (variable_bounds model !! jc_joint_name jc)) ->
  exists state',
    set_goal_positions model jcs state = Returned state' /\
    forall x, position_of state' x =
              default (position_of state x) (named_position jcs x).
Proof.
  revert state. induction jcs as [|jc jcs IH]; intros state Hknown.
  - by exists state.
  - cbn [set_goal_positions]. unfold setVariablePosition.
    destruct (Hknown jc) as [b ->]; [apply list_elem_of_here |].
    destruct (IH (<[jc_joint_name jc := jc_position jc]> state))
      as (state' & Hrun & Hpos).
    { intros jc' Hin. apply Hknown. by apply list_elem_of_further. }
    exists state'. split; [done |]. intros x. rewrite Hpos.
    cbn [named_position]. rewrite position_of_insert.
    destruct (named_position jcs x); [done |].
    by case_decide.
Qed.

Lemma set_goal_positions_unknown (model : RobotModel)
    (jcs : list JointConstraint) (state : RobotState) (jc : JointConstraint) :
  jc ∈ jcs -> variable_bounds model !! jc_joint_name jc = None ->
  set_goal_positions model jcs state = Thrown.
Proof.
  revert state. induction jcs as [|jc' jcs IH]; intros state Hin Hunknown.
  - by apply elem_of_nil in Hin.
  - cbn [set_goal_positions]. unfold setVariablePosition.
    destruct (variable_bounds model !! jc_joint_name jc') eqn:Hjc'; [|done].
    apply IH; [|done].
    apply elem_of_cons in Hin as [-> | Hin]; [congruence | done].
Qed.

Lemma named_position_unique (jcs : list JointConstraint) (jc : JointConstraint) :
  NoDup (jc_joint_name <$> jcs) -> jc ∈ jcs ->
  named_position jcs (jc_joint_name jc) = Some (jc_position jc).
Proof.
  induction jcs as [|jc' jcs IH]; intros Hnd Hin.
  - by apply elem_of_nil in Hin.
  - cbn in Hnd. apply NoDup_cons in Hnd as [Hfresh Hnd].
    cbn [named_position].
    apply elem_of_cons in Hin as [-> | Hin].
    + destruct (named_position jcs (jc_joint_name jc')) as [p|] eqn:Hp.
      * exfalso. apply Hfresh. clear -Hp.
        induction jcs as [|c jcs IH]; [done |].
        cbn in Hp. destruct (named_position jcs (jc_joint_name jc')).
        -- cbn. apply list_elem_of_further. by apply IH.
        -- case_decide as Hc; [|done]. cbn. rewrite Hc.
           apply list_elem_of_here.
      * by rewrite decide_True.
    + by rewrite IH.
Qed.

Lemma named_position_None (jcs : list JointConstraint) (name : string) :
  name ∉ jc_joint_name <$> jcs <-> named_position jcs name = None.
Proof.
  induction jcs as [|jc jcs IH].
  - cbn. split; [done | intros _; apply not_elem_of_nil].
  - cbn. rewrite not_elem_of_cons, IH.
    destruct (named_position jcs name) as [p|].
    + split; [intros [_ ?]; done | done].
    + destruct (decide (jc_joint_name jc = name)) as [Heq | Hne].
      * split; [intros [Hne _]; congruence | done].
      * split; [done | split; [congruence | done]].
Qed.

(** ** Seed extraction *)

Lemma seed_point_accepts (names : list string) (jcs : list JointConstraint)
    (j : nat) (joint_pt joint_pt' : JointTrajectoryPoint) :
  seed_point names jcs j joint_pt = Some joint_pt' ->
  j + length jcs <= length names ->
  jc_joint_name <$> jcs = take (length jcs) (drop j names) /\
  joint_pt' =
    {| positions := (positions joint_pt ++ (jc_position <$> jcs))%list;
       velocities := velocities joint_pt;
       accelerations := accelerations joint_pt;
       time_from_start := time_from_start joint_pt |}.
Proof.
  revert j joint_pt. induction jcs as [|c jcs IH]; intros j joint_pt Hrun Hlen.
  - cbn in Hrun. injection Hrun as <-. cbn. rewrite app_nil_r.
    split; [done | by destruct joint_pt].
  - cbn [seed_point] in Hrun. case_bool_decide as Hname; [done |].
    cbn [length] in Hlen.
    destruct (lookup_lt_is_Some_2 names j) as [n Hn]; [lia |].
    rewrite Hn in Hname. cbn in Hname.
    apply IH in Hrun as [Hnames ->]; [| lia].
    split.
    + cbn. rewrite (drop_S _ _ _ Hn). cbn. by rewrite Hname, Hnames.
    + cbn. by rewrite <- app_assoc.
Qed.

Lemma seed_point_rejects (names : list string) (jcs : list JointConstraint)
    (j : nat) (joint_pt : JointTrajectoryPoint) :
  j + length jcs <= length names ->
  jc_joint_name <$> jcs <> take (length jcs) (drop j names) ->
  seed_point names jcs j joint_pt = None.
Proof.
  intros Hlen Hdiff.
  destruct (seed_point names jcs j joint_pt) as [joint_pt'|] eqn:Hrun; [|done].
  by apply seed_point_accepts in Hrun as [Hnames _].
Qed.

Lemma seed_point_matching (names : list string) (jcs : list JointConstraint)
    (j : nat) (joint_pt : JointTrajectoryPoint) :
  jc_joint_name <$> jcs = take (length jcs) (drop j names) ->
  j + length jcs <= length names ->
  seed_point names jcs j joint_pt =
    Some {| positions := (positions joint_pt ++ (jc_position <$> jcs))%list;
            velocities := velocities joint_pt;
            accelerations := accelerations joint_pt;
            time_from_start := time_from_start joint_pt |}.
Proof.
  revert j joint_pt. induction jcs as [|c jcs IH]; intros j joint_pt Hnames Hlen.
  - cbn. rewrite app_nil_r. by destruct joint_pt.
  - cbn [length] in *.
    destruct (lookup_lt_is_Some_2 names j) as [n Hn]; [lia |].
    rewrite (drop_S _ _ _ Hn) in Hnames. cbn in Hnames.
    injection Hnames as Hc Hnames.
    cbn [seed_point]. rewrite Hn. cbn [default].
    rewrite bool_decide_eq_false_2 by (intros Hne; by apply Hne).
    rewrite IH by (first [done | lia]).
    cbn. by rewrite <- app_assoc.
Qed.

Lemma seed_points_accepts (names : list string) (constraints : list Constraints)
    (seed seed' : JointTrajectory) :
  seed_points names constraints seed = (true, seed') ->
  Forall (waypoint_matches_group names) constraints /\
  seed' = {| joint_names := joint_names seed;
             points := (points seed ++ (seed_sample <$> constraints))%list |}.
Proof.
  revert seed. induction constraints as [|c cs IH]; intros seed Hrun.
  - cbn in Hrun. injection Hrun as <-. cbn. rewrite app_nil_r.
    split; [done | by destruct seed].
  - cbn [seed_points] in Hrun. case_bool_decide as Hn; [done |].
    destruct (seed_point names (joint_constraints c) 0
                JointTrajectoryPoint_new) as [joint_pt|] eqn:Hpt; [|done].
    apply seed_point_accepts in Hpt as [Hnames ->]; [| lia].
    rewrite drop_0, Hn, firstn_all in Hnames.
    apply IH in Hrun as [Hrest ->]. split.
    + by constructor.
    + cbn. by rewrite <- app_assoc.
Qed.

Lemma seed_points_matching (names : list string)
    (constraints : list Constraints) (seed : JointTrajectory) :
  Forall (waypoint_matches_group names) constraints ->
  seed_points names constraints seed =
    (true, {| joint_names := joint_names seed;
              points := (points seed ++ (seed_sample <$> constraints))%list |}).
Proof.
  intros Hall. revert seed.
  induction Hall as [|c cs [Hn Hnames] Hall IH]; intros seed.
  - cbn. rewrite app_nil_r. by destruct seed.
  - cbn [seed_points].
    rewrite bool_decide_eq_false_2 by (intros Hne; by apply Hne).
    rewrite seed_point_matching.
    + rewrite IH. cbn. by rewrite <- app_assoc.
    + by rewrite drop_0, Hn, firstn_all.
    + lia.
Qed.

(** [extractSeedTrajectory] on a fresh seed: it accepts exactly the
    non-empty sequences of way points that match the group, and then returns
    one sample per way point under the canonical joint names. *)
Lemma extractSeedTrajectory_accepts (P : StompPlanner)
    (req : MotionPlanRequest) (seed : JointTrajectory) :
  extractSeedTrajectory P req JointTrajectory_new = (true, seed) ->
  trajectory_constraints req <> [] /\
  Forall (waypoint_matches_group (active_joint_model_names (robot_model_ P)))
         (trajectory_constraints req) /\
  seed = {| joint_names := active_joint_model_names (robot_model_ P);
            points := seed_sample <$> trajectory_constraints req |}.
Proof.
  unfold extractSeedTrajectory.
  destruct (trajectory_constraints req) as [|c cs] eqn:Hcs; [done |].
  destruct (seed_points _ (c :: cs) JointTrajectory_new)
    as [[|] seed'] eqn:Hrun; [|done].
  apply seed_points_accepts in Hrun as [Hall ->].
  intros [= <-]. done.
Qed.

Lemma extractSeedTrajectory_rejects (P : StompPlanner)
    (req : MotionPlanRequest) (c : Constraints) :
  c ∈ trajectory_constraints req ->
  ~ waypoint_matches_group (active_joint_model_names (robot_model_ P)) c ->
  fst (extractSeedTrajectory P req JointTrajectory_new) = false.
Proof.
  intros Hin Hbad.
  destruct (extractSeedTrajectory P req JointTrajectory_new)
    as [[|] seed] eqn:Hrun; [|done].
  apply extractSeedTrajectory_accepts in Hrun as (_ & Hall & _).
  rewrite Forall_forall in Hall. exfalso. by apply Hbad, Hall.
Qed.

(** ** Running the orchestrator *)

Arguments extractSeedTrajectory : simpl never.
Arguments getStartAndGoal : simpl never.
Arguments parametersToJointTrajectory : simpl never.
Arguments jointTrajectorytoParameters : simpl never.
Arguments initialize_response : simpl never.

Ltac run_M :=
  unfold bind_task, stomp_setConfig, stomp_solve_initial,
    stomp_solve_start_goal, modify_planner, deref_stomp, emit, emit_all,
    now, this, mbind, M_bind, mret, M_ret;
  cbn.

Lemma parametersToJointTrajectory_true (env : Collaborators)
    (P : StompPlanner) (parameters : MatrixXd) (trajectory : JointTrajectory) :
  fst (parametersToJointTrajectory env P parameters trajectory) = true.
Proof.
  unfold parametersToJointTrajectory.
  by destruct (computeTimeStamps env _ _) as [[|] timed_traj].
Qed.

Section Orchestrator.

Context (env : Collaborators).

Lemma handle_results_optimizer_failure (start_time : Z) (success : bool)
    (parameters : MatrixXd) (res : MotionPlanDetailedResponse) (w : World) :
  handle_results env start_time success false parameters res w =
    Some ((false, set_error_code MoveItErrorCodes.PLANNING_FAILED res), w).
Proof. unfold handle_results. run_M. done. Qed.

Lemma handle_results_optimizer_success (start_time : Z) (success : bool)
    (parameters : MatrixXd) (res : MotionPlanDetailedResponse) (w : World) :
  length (trajectory_ res) = 1 ->
  let path := reified_trajectory env (planner w) parameters in
  let in_collision :=
    match planning_scene_ (planner w) with
    | Some scene => negb (isPathValid scene path (group_ (planner w)) true)
    | None => false
    end in
  let res1 := set_trajectory 0 (Some path) res in
  let res2 :=
    if in_collision
    then set_error_code MoveItErrorCodes.PLANNING_FAILED res1 else res1 in
  handle_results env start_time success true parameters res w =
    Some ((true,
           set_processing_time 0
             (toSec (wall_time env (clock_reads w) - start_time)) res2),
          advance 1 [] w).
Proof.
  intros Hlen path in_collision res1 res2.
  unfold handle_results. run_M.
  pose proof (parametersToJointTrajectory_true env (planner w) parameters
                JointTrajectory_new) as Hok.
  destruct (parametersToJointTrajectory env (planner w) parameters
              JointTrajectory_new) as [converted trajectory] eqn:Hconv.
  cbn in Hok. subst converted. cbn.
  assert (path = setRobotTrajectoryMsg
                   (snd (robotStateMsgToRobotState env
                           (start_state (request_ (planner w))) RobotState_new))
                   trajectory) as Hpath.
  { unfold path, reified_trajectory. by rewrite Hconv. }
  rewrite <- Hpath.
  assert (default None (last (<[0 := Some path]> (trajectory_ res)))
          = Some path) as Hback.
  { destruct (trajectory_ res) as [|x [|y l]]; done. }
  rewrite Hback.
  unfold advance, res2, in_collision, res1.
  destruct (planning_scene_ (planner w)) as [scene|]; cbn.
  - destruct (isPathValid scene path (group_ (planner w)) true); cbn;
      by rewrite app_nil_r.
  - by rewrite app_nil_r.
Qed.

(** What [handle_results] leaves behind, whatever the optimizer answered:
    it returns what the optimizer returned, calls nobody, keeps the planner,
    and reads the clock, to stamp the response, only after a success. *)
Lemma handle_results_frame (start_time : Z) (success planning_success : bool)
    (parameters : MatrixXd) (res : MotionPlanDetailedResponse) (w : World) :
  length (trajectory_ res) = 1 ->
  length (processing_time_ res) = 1 ->
  exists res' w',
    handle_results env start_time success planning_success parameters res w
      = Some ((planning_success, res'), w') /\
    planner w' = planner w /\ trace w' = trace w /\
    if planning_success then
      clock_reads w' = S (clock_reads w) /\
      processing_time_ res' =
        [toSec (wall_time env (clock_reads w) - start_time)]
    else
      clock_reads w' = clock_reads w /\
      processing_time_ res' = processing_time_ res /\
      error_code_ res' = MoveItErrorCodes.PLANNING_FAILED.
Proof.
  intros Htraj Htime. destruct planning_success.
  - rewrite handle_results_optimizer_success by done.
    eexists _, _. split; [done |]. cbn. rewrite app_nil_r.
    repeat split.
    destruct (processing_time_ res) as [|t [|t' l]] eqn:Hpt; try done.
    by destruct (planning_scene_ (planner w)) as [scene|];
      [destruct (negb _) |]; cbn; rewrite Hpt.
  - rewrite handle_results_optimizer_failure.
    eexists _, _. split; [done |]. done.
Qed.

Lemma initialize_response_shape (res : MotionPlanDetailedResponse) (code : Z) :
  length (trajectory_ (set_error_code code (initialize_response res))) = 1 /\
  length (processing_time_ (set_error_code code (initialize_response res)))
    = 1.
Proof.
  unfold set_error_code, initialize_response.
  cbn [trajectory_ processing_time_]. split; apply length_resize.
Qed.

Lemma new_calls_app (w w' : World) (calls : list Event) :
  trace w' = (trace w ++ calls)%list -> new_calls w w' = calls.
Proof. intros H. unfold new_calls. rewrite H. by rewrite drop_app_length. Qed.

Lemma new_calls_advance (w : World) (reads : nat) (calls : list Event) :
  new_calls w (advance reads calls w) = calls.
Proof. by apply new_calls_app. Qed.

Lemma solve_detailed_seeded (res : MotionPlanDetailedResponse) (w : World)
    (s : Stomp) (seed : JointTrajectory) :
  stomp_ (planner w) = Some s ->
  extractSeedTrajectory (planner w) (request_ (planner w)) JointTrajectory_new
    = (true, seed) ->
  let config :=
    set_num_timesteps (int_of_size_t (length (points seed)))
                      (stomp_config_ (planner w)) in
  let initial := snd (jointTrajectorytoParameters seed) in
  let bound :=
    task_setMotionPlanRequest env (planning_scene_ (planner w))
      (request_ (planner w)) config
      MoveItErrorCodes.SUCCESS in
  let res0 := set_error_code (snd bound) (initialize_response res) in
  let solved :=
    stomp_solve_seeded env {| stomp_applied_config := config |} initial in
  solve_detailed env res w =
    if fst bound then
      handle_results env (wall_time env (clock_reads w)) false
        (fst solved) (snd solved) res0
        (solving_world config (EvSolveSeeded initial) w)
    else
      Some ((false, set_error_code MoveItErrorCodes.FAILURE res0),
            advance 1 [EvSetMotionPlanRequest config] w).
Proof.
  intros Hstomp Hseed config initial bound res0 solved.
  unfold solve_detailed. run_M. rewrite Hseed. run_M.
  fold config. fold initial.
  change (error_code_ (initialize_response res))
    with MoveItErrorCodes.SUCCESS.
  fold bound. unfold res0. destruct bound as [[|] code]; cbn.
  - rewrite Hstomp. cbn. fold solved.
    destruct solved as [planning_success parameters]. cbn.
    unfold solving_world. by rewrite <- !app_assoc.
  - done.
Qed.

Lemma solve_detailed_boundary (res : MotionPlanDetailedResponse) (w : World)
    (s : Stomp) (seed : JointTrajectory) :
  stomp_ (planner w) = Some s ->
  extractSeedTrajectory (planner w) (request_ (planner w)) JointTrajectory_new
    = (false, seed) ->
  let config := stomp_config_ (planner w) in
  let resolved := getStartAndGoal env (planner w) in
  let bound :=
    task_setMotionPlanRequest env (planning_scene_ (planner w))
      (request_ (planner w)) config
      MoveItErrorCodes.SUCCESS in
  let res0 := set_error_code (snd bound) (initialize_response res) in
  solve_detailed env res w =
    match fst resolved with
    | None =>
        Some ((false, set_error_code MoveItErrorCodes.INVALID_MOTION_PLAN
                        (initialize_response res)),
              advance 1 (snd resolved) w)
    | Some (start, goal) =>
        if fst bound then
          let solved :=
            stomp_solve_boundary env {| stomp_applied_config := config |}
              start goal in
          handle_results env (wall_time env (clock_reads w)) false
            (fst solved) (snd solved) res0
            (solving_world config (EvSolveBoundary start goal)
               (advance 0 (snd resolved) w))
        else
          Some ((false, set_error_code MoveItErrorCodes.FAILURE res0),
                advance 1 (snd resolved ++ [EvSetMotionPlanRequest config]) w)
    end.
Proof.
  intros Hstomp Hseed config resolved bound res0.
  unfold solve_detailed. run_M. rewrite Hseed. run_M.
  fold config. fold resolved.
  destruct resolved as [[[start goal]|] calls]; cbn; [|done].
  change (error_code_ (initialize_response res))
    with MoveItErrorCodes.SUCCESS.
  fold bound. unfold res0. destruct bound as [[|] code]; cbn.
  - rewrite Hstomp. cbn.
    destruct (stomp_solve_boundary env _ start goal)
      as [planning_success parameters]. cbn.
    unfold solving_world, advance. cbn. by rewrite <- !app_assoc.
  - unfold advance. cbn. by rewrite <- !app_assoc.
Qed.

Lemma solve_detailed_unresolved (res : MotionPlanDetailedResponse) (w : World)
    (seed : JointTrajectory) :
  extractSeedTrajectory (planner w) (request_ (planner w)) JointTrajectory_new
    = (false, seed) ->
  fst (getStartAndGoal env (planner w)) = None ->
  solve_detailed env res w =
    Some ((false, set_error_code MoveItErrorCodes.INVALID_MOTION_PLAN
                    (initialize_response res)),
          advance 1 (snd (getStartAndGoal env (planner w))) w).
Proof.
  intros Hseed Hnone.
  unfold solve_detailed. run_M. rewrite Hseed. run_M.
  destruct (getStartAndGoal env (planner w)) as [resolved calls].
  cbn in Hnone. subst resolved. done.
Qed.


End Orchestrator.

(** ** Trajectory representation bridge *)

Section Bridge.

Context (env : Collaborators) (P : StompPlanner).

(** C6. [parametersToJointTrajectory] returns [true] for every parameter
    matrix, whether or not [computeTimeStamps] succeeds; when the time
    parameterization fails its output is the untimed trajectory: the group's
    joint names and, per column, the column as positions with zero-filled
    velocities, accelerations and time from start. *)
Theorem parametersToJointTrajectory_never_fails (parameters : MatrixXd)
    (trajectory : JointTrajectory) :
  let untimed :=
    {| joint_names := active_joint_model_names (robot_model_ P);
       points := untimed_point parameters <$> seq 0 (cols parameters) |} in
  let reference :=
    snd (robotStateMsgToRobotState env (start_state (request_ P))
           RobotState_new) in
  fst (parametersToJointTrajectory env P parameters trajectory) = true /\
  (fst (computeTimeStamps env (setRobotTrajectoryMsg reference untimed)
          (max_velocity_scaling_factor (request_ P))) = false ->
   snd (parametersToJointTrajectory env P parameters trajectory) = untimed).
Proof.
  intros untimed reference.
  assert (parameters_to_points parameters =
          untimed_point parameters <$> seq 0 (cols parameters)) as Hpts.
  { apply list_eq. intros t.
    rewrite parameters_to_points_lookup, list_lookup_fmap.
    case_decide as Ht.
    - by rewrite lookup_seq_lt.
    - by rewrite lookup_seq_ge by lia. }
  unfold parametersToJointTrajectory. rewrite Hpts.
  fold untimed. fold reference.
  destruct (computeTimeStamps env (setRobotTrajectoryMsg reference untimed)
              (max_velocity_scaling_factor (request_ P)))
    as [[|] timed_traj]; cbn; split; first [done | intros; done].
Qed.

(** C2. For a joint trajectory whose every sample holds one position per
    joint name, the sample points that [parametersToJointTrajectory] rebuilds
    from the matrix of [jointTrajectorytoParameters] hold the original
    positions at every sample and joint: the structural conversion is
    lossless. The rebuilt trajectory is then handed to the time
    parameterization, and the function returns the original positions exactly
    when the time parameterization fails, so that the untimed trajectory is
    returned, or returns the positions it was given. *)
Theorem bridge_round_trip (traj trajectory : JointTrajectory) :
  (forall pt, pt ∈ points traj ->
              length (positions pt) = length (joint_names traj)) ->
  let parameters := snd (jointTrajectorytoParameters traj) in
  let reference :=
    snd (robotStateMsgToRobotState env (start_state (request_ P))
           RobotState_new) in
  let rebuilt :=
    setRobotTrajectoryMsg reference
      {| joint_names := active_joint_model_names (robot_model_ P);
         points := parameters_to_points parameters |} in
  let timed :=
    computeTimeStamps env rebuilt (max_velocity_scaling_factor (request_ P)) in
  positions <$> points (rt_msg rebuilt) = positions <$> points traj /\
  (positions <$>
     points (snd (parametersToJointTrajectory env P parameters trajectory)) =
   positions <$> points traj
   <->
   fst timed = false \/
   positions <$> points (rt_msg (snd timed)) =
   positions <$> points (rt_msg rebuilt)).
Proof.
  intros Hshape parameters reference rebuilt timed.
  pose proof (structural_round_trip traj Hshape) as Hstructural.
  fold parameters in Hstructural.
  split; [exact Hstructural |].
  unfold parametersToJointTrajectory.
  fold parameters reference rebuilt timed.
  change (positions <$> points (rt_msg rebuilt))
    with (positions <$> parameters_to_points parameters).
  rewrite Hstructural.
  destruct timed as [[|] timed_traj];
    cbv beta iota delta [fst snd getRobotTrajectoryMsg points].
  - split; [by right | by intros [? | ?]].
  - split; [by left | done].
Qed.

End Bridge.

Lemma parametersToJointTrajectory_never_fails_witness :
  fst (parametersToJointTrajectory Fixture.env_untimed
         (Fixture.stomp_planner (Fixture.request [] []) None)
         (snd (jointTrajectorytoParameters Fixture.path))
         JointTrajectory_new) = true /\
  points (snd (parametersToJointTrajectory Fixture.env_untimed
                 (Fixture.stomp_planner (Fixture.request [] []) None)
                 (snd (jointTrajectorytoParameters Fixture.path))
                 JointTrajectory_new))
  = [ {| positions := [0; 0]; velocities := [0; 0]; accelerations := [0; 0];
         time_from_start := 0 |};
      {| positions := [1 # 4; 1 # 2]; velocities := [0; 0];
         accelerations := [0; 0]; time_from_start := 0 |};
      {| positions := [1 # 2; 1]; velocities := [0; 0];
         accelerations := [0; 0]; time_from_start := 0 |} ]%Q.
Proof.
  destruct (parametersToJointTrajectory_never_fails Fixture.env_untimed
              (Fixture.stomp_planner (Fixture.request [] []) None)
              (snd (jointTrajectorytoParameters Fixture.path))
              JointTrajectory_new) as [Hok Huntimed].
  split; [exact Hok |].
  rewrite Huntimed; reflexivity.
Defined.

Lemma bridge_round_trip_witness :
  positions <$>
    points (snd (parametersToJointTrajectory Fixture.env
                   (Fixture.stomp_planner (Fixture.request [] []) None)
                   (snd (jointTrajectorytoParameters Fixture.path))
                   JointTrajectory_new)) =
  [[0; 0]; [1 # 4; 1 # 2]; [1 # 2; 1]]%Q.
Proof.
  apply (bridge_round_trip Fixture.env
           (Fixture.stomp_planner (Fixture.request [] []) None)
           Fixture.path JointTrajectory_new).
  - intros pt Hpt. cbn in Hpt.
    repeat (apply elem_of_cons in Hpt as [-> | Hpt]; [reflexivity |]).
    by apply elem_of_nil in Hpt.
  - right. reflexivity.
Defined.

(** With a time parameterization that succeeds and hands back every
    position one unit higher, the three-sample path, which has one position
    per joint name in every sample, does not come back with its original
    positions. *)
Lemma round_trip_under_rewriting_timing :
  (forall pt, pt ∈ points Fixture.path ->
              length (positions pt) = length (joint_names Fixture.path)) /\
  positions <$>
    points (snd (parametersToJointTrajectory Scenario.env_rewriting
                   (Fixture.stomp_planner (Fixture.request [] []) None)
                   (snd (jointTrajectorytoParameters Fixture.path))
                   JointTrajectory_new)) <>
  positions <$> points Fixture.path.
Proof.
  split.
  - intros pt Hpt. cbn in Hpt.
    repeat (apply elem_of_cons in Hpt as [-> | Hpt]; [reflexivity |]).
    by apply elem_of_nil in Hpt.
  - vm_compute. discriminate.
Qed.

(** ** Boundary resolution *)

Section Boundary.

Context (env : Collaborators) (P : StompPlanner).

#[local] Abbreviation model := (robot_model_ P).
#[local] Abbreviation names := (active_joint_model_names (robot_model_ P)).

(** C4. For a robot model in which every active joint of the group is a
    variable and no variable has its lower bound above its upper one, with a
    start state that parses and a first goal constraint set holding joint
    constraints on variables of the model, [getStartAndGoal] succeeds
    without calling anyone; the start vector holds the
    bounds-enforced start-state position of every active joint; the goal
    vector holds, for a joint named by a goal constraint, the bounds-enforced
    position of the last constraint naming it and, for a joint not named,
    the entry of the start vector; every entry of both lies within the
    joint's bounds. *)
Theorem getStartAndGoal_joint_goal (state0 : RobotState) (gc : Constraints)
    (rest : list Constraints) :
  robotStateMsgToRobotState env (start_state (request_ P)) RobotState_new
    = (true, state0) ->
  goal_constraints (request_ P) = gc :: rest ->
  joint_constraints gc <> [] ->
  group_in_model model ->
  bounds_ordered model ->
  (forall jc, jc ∈ joint_constraints gc ->
              is_Some (variable_bounds model !! jc_joint_name jc)) ->
  exists start goal,
    getStartAndGoal env P = (Some (start, goal), []) /\
    length start = length names /\ length goal = length names /\
    forall j name b,
      names !! j = Some name -> variable_bounds model !! name = Some b ->
      start !! j = Some (clamp b (position_of state0 name)) /\
      goal !! j =
        match named_position (joint_constraints gc) name with
        | Some p => Some (clamp b p)
        | None => start !! j
        end /\
      (exists s, start !! j = Some s /\ within_bounds b s) /\
      (exists g, goal !! j = Some g /\ within_bounds b g).
Proof.
  intros Hparse Hgoals Hjoint Hgroup Hord Hknown.
  destruct (set_goal_positions_known model (joint_constraints gc)
              (enforceBounds model state0) Hknown) as (state1 & Hset & Hpos).
  exists (position_of (enforceBounds model state0) <$> names),
         (position_of (enforceBounds model state1) <$> names).
  split; [| split; [| split]].
  - unfold getStartAndGoal. rewrite Hparse. cbn [negb].
    fold model. rewrite read_positions_group by done.
    rewrite Hgoals.
    destruct (joint_constraints gc) as [|jc jcs] eqn:Hjcs; [done |].
    rewrite Hset. rewrite read_positions_group by done. done.
  - by rewrite length_fmap.
  - by rewrite length_fmap.
  - intros j name b Hj Hb.
    assert (name ∈ active_joint_model_names model) as Hin
      by (by eapply list_elem_of_lookup_2).
    rewrite !list_lookup_fmap, Hj. cbn [fmap option_fmap option_map].
    rewrite !(enforceBounds_position model _ name b) by done.
    rewrite Hpos.
    rewrite (enforceBounds_position model _ name b) by done.
    destruct (named_position (joint_constraints gc) name) as [p|];
      cbn [default].
    + repeat split; try done; eexists; (split; [done |]);
        by apply clamp_within, (Hord name).
    + rewrite clamp_idem by (by apply (Hord name)).
      repeat split; try done; eexists; (split; [done |]);
        by apply clamp_within, (Hord name).
Qed.

Lemma getStartAndGoal_fails :
  boundary_problem_unformable env P ->
  fst (getStartAndGoal env P) = None.
Proof.
  unfold boundary_problem_unformable, getStartAndGoal. fold model.
  intros [Hempty | [Hparse | (state0 & gc & rest & Hparse & Hgoals & Hjcs & Hik)]].
  - destruct (robotStateMsgToRobotState _ _ _) as [[|] state0]; [|done].
    cbn [negb]. destruct (read_positions _ _ _ _ _); [|done].
    by rewrite Hempty.
  - destruct (robotStateMsgToRobotState _ _ _) as [[|] state0]; [|done].
    done.
  - rewrite Hparse. cbn [negb].
    destruct (read_positions _ _ _ _ _); [|done].
    rewrite Hgoals, Hjcs.
    destruct (setFromIK _ _ _ _ _ _ _) as [[|] state1]; done.
Qed.

(** The calls of [getStartAndGoal]: none, or one inverse-kinematics query
    with [IK_ATTEMPTS] attempts and the timeout [IK_TIMEOUT]. *)
Lemma getStartAndGoal_calls :
  snd (getStartAndGoal env P) = [] \/
  exists gc rest,
    goal_constraints (request_ P) = gc :: rest /\
    joint_constraints gc = [] /\
    snd (getStartAndGoal env P) =
      [EvSetFromIK (goal_pose gc) (List.last (link_model_names model) "")
                   IK_ATTEMPTS (double_of_int IK_TIMEOUT)].
Proof.
  unfold getStartAndGoal. fold model.
  destruct (robotStateMsgToRobotState _ _ _) as [[|] state0]; [|by left].
  cbn [negb]. destruct (read_positions _ _ _ _ _); [|by left].
  destruct (goal_constraints (request_ P)) as [|gc rest]; [by left |].
  destruct (joint_constraints gc) as [|jc jcs] eqn:Hjcs.
  - right. exists gc, rest. split; [done |]. split; [done |].
    destruct (setFromIK _ _ _ _ _ _ _) as [[|] state1]; [|done].
    cbn [negb]. by destruct (read_positions _ _ _ _ _).
  - left. destruct (set_goal_positions _ _ _); [|done].
    by destruct (read_positions _ _ _ _ _).
Qed.

End Boundary.

(** ** Solve orchestration *)

Section Solve.

Context (env : Collaborators).

(** C1. When the optimizer succeeds and the planning scene finds the
    reified trajectory invalid, the detailed solve sets the error code to
    PLANNING_FAILED and nevertheless returns [true]: line 262 clears
    [success], line 270 returns the constant. *)
Theorem collision_is_returned_as_success (res : MotionPlanDetailedResponse)
    (w : World) (s : Stomp) (scene : PlanningScene) (parameters : MatrixXd) :
  stomp_ (planner w) = Some s ->
  optimizer_succeeds env w parameters ->
  planning_scene_ (planner w) = Some scene ->
  isPathValid scene (reified_trajectory env (planner w) parameters)
              (group_ (planner w)) true = false ->
  exists res' w',
    solve_detailed env res w = Some ((true, res'), w') /\
    error_code_ res' = MoveItErrorCodes.PLANNING_FAILED.
Proof.
  intros Hstomp Hopt Hscene Hinvalid. unfold optimizer_succeeds in Hopt.
  destruct (extractSeedTrajectory (planner w) (request_ (planner w))
              JointTrajectory_new) as [[|] seed] eqn:Hseed.
  - destruct Hopt as [Hbound Hsolved].
    rewrite (solve_detailed_seeded env res w s seed Hstomp Hseed).
    cbv zeta. rewrite Hbound, Hsolved. cbn [fst snd].
    rewrite handle_results_optimizer_success
      by apply initialize_response_shape.
    eexists _, _. split; [done |].
    change (planning_scene_ (planner (solving_world _ _ w)))
      with (planning_scene_ (planner w)).
    change (reified_trajectory env (planner (solving_world _ _ w)) parameters)
      with (reified_trajectory env (planner w) parameters).
    change (group_ (planner (solving_world _ _ w))) with (group_ (planner w)).
    by rewrite Hscene, Hinvalid.
  - destruct Hopt as (start & goal & Hresolved & Hbound & Hsolved).
    rewrite (solve_detailed_boundary env res w s seed Hstomp Hseed).
    cbv zeta. rewrite Hresolved, Hbound, Hsolved. cbn [fst snd].
    rewrite handle_results_optimizer_success
      by apply initialize_response_shape.
    eexists _, _. split; [done |].
    change (planning_scene_ (planner (solving_world _ _ _)))
      with (planning_scene_ (planner w)).
    change (reified_trajectory env (planner (solving_world _ _ _)) parameters)
      with (reified_trajectory env (planner w) parameters).
    change (group_ (planner (solving_world _ _ _))) with (group_ (planner w)).
    by rewrite Hscene, Hinvalid.
Qed.

(** C5. Without a seed, when the goal-constraint list is empty, or the
    start state does not parse, or inverse kinematics fails for a Cartesian
    goal, [getStartAndGoal] fails and the detailed solve returns [false] with
    INVALID_MOTION_PLAN; nothing is tried after that: the planner is as it
    was and neither the task nor the optimizer was called. *)
Theorem unformable_boundary_problem_is_reported
    (res : MotionPlanDetailedResponse) (w : World) :
  fst (extractSeedTrajectory (planner w) (request_ (planner w))
         JointTrajectory_new) = false ->
  boundary_problem_unformable env (planner w) ->
  fst (getStartAndGoal env (planner w)) = None /\
  exists res' w',
    solve_detailed env res w = Some ((false, res'), w') /\
    error_code_ res' = MoveItErrorCodes.INVALID_MOTION_PLAN /\
    planner w' = planner w /\
    forall e, e ∈ new_calls w w' -> is_optimizer_call e = false.
Proof.
  intros Hseed Hproblem.
  pose proof (getStartAndGoal_fails env (planner w) Hproblem) as Hnone.
  split; [done |].
  destruct (extractSeedTrajectory (planner w) (request_ (planner w))
              JointTrajectory_new) as [provided seed] eqn:Hextract.
  cbn in Hseed. subst provided.
  rewrite (solve_detailed_unresolved env res w seed Hextract Hnone).
  eexists _, _. split; [done |]. split; [done |]. split; [done |].
  intros e. rewrite new_calls_advance.
  destruct (getStartAndGoal_calls env (planner w))
    as [-> | (gc & rest & _ & _ & ->)].
  - by intros ?%elem_of_nil.
  - by intros ->%list_elem_of_singleton.
Qed.

(** C3. When some way point of the trajectory constraints has a number of
    joint constraints other than the group's active-joint count, or lists
    joint names that differ from the canonical order, [extractSeedTrajectory]
    returns [false] and the detailed solve runs in boundary-value mode: it
    returns, never asks for a seeded solve, reports INVALID_MOTION_PLAN or
    FAILURE only when boundary resolution or the task binding fails, and
    otherwise applies the baseline configuration and asks the optimizer for a
    boundary solve between the resolved start and goal. *)
Theorem malformed_seed_falls_back_to_boundary_mode
    (res : MotionPlanDetailedResponse) (w : World) (s : Stomp)
    (c : Constraints) :
  let P := planner w in
  let names := active_joint_model_names (robot_model_ P) in
  stomp_ P = Some s ->
  c ∈ trajectory_constraints (request_ P) ->
  (length (joint_constraints c) <> length names \/
   jc_joint_name <$> joint_constraints c <> names) ->
  fst (extractSeedTrajectory P (request_ P) JointTrajectory_new) = false /\
  exists out w',
    solve_detailed env res w = Some (out, w') /\
    (forall initial, EvSolveSeeded initial ∉ new_calls w w') /\
    match fst (getStartAndGoal env P) with
    | None =>
        fst out = false /\
        error_code_ (snd out) = MoveItErrorCodes.INVALID_MOTION_PLAN
    | Some (start, goal) =>
        if fst (task_setMotionPlanRequest env (planning_scene_ P)
      (request_ P) (stomp_config_ P)
                  MoveItErrorCodes.SUCCESS)
        then
          new_calls w w' =
            (snd (getStartAndGoal env P) ++
             [EvSetMotionPlanRequest (stomp_config_ P);
              EvSetConfig (stomp_config_ P);
              EvSolveBoundary start goal])%list /\
          fst out =
            fst (stomp_solve_boundary env
                   {| stomp_applied_config := stomp_config_ P |} start goal)
        else
          fst out = false /\
          error_code_ (snd out) = MoveItErrorCodes.FAILURE
    end.
Proof.
  intros P names Hstomp Hin Hbad.
  assert (fst (extractSeedTrajectory P (request_ P) JointTrajectory_new)
          = false) as Hreject.
  { apply (extractSeedTrajectory_rejects P (request_ P) c Hin).
    intros [Hlen Hnames]. by destruct Hbad. }
  split; [done |].
  destruct (extractSeedTrajectory P (request_ P) JointTrajectory_new)
    as [provided seed] eqn:Hextract.
  cbn in Hreject. subst provided.
  rewrite (solve_detailed_boundary env res w s seed Hstomp Hextract).
  cbv zeta. fold P.
  assert (forall (calls : list Event) initial,
            (forall e, e ∈ calls -> is_optimizer_call e = false) ->
            EvSolveSeeded initial ∉ calls) as Hno_seeded.
  { intros calls initial Hcalls Hin'. by apply Hcalls in Hin'. }
  assert (forall e, e ∈ snd (getStartAndGoal env P) ->
                    is_optimizer_call e = false) as Hik.
  { intros e. destruct (getStartAndGoal_calls env P)
      as [-> | (gc & rest & _ & _ & ->)].
    - by intros ?%elem_of_nil.
    - by intros ->%list_elem_of_singleton. }
  destruct (fst (getStartAndGoal env P)) as [[start goal]|] eqn:Hresolved.
  - destruct (task_setMotionPlanRequest env (planning_scene_ P)
      (request_ P) (stomp_config_ P)
                MoveItErrorCodes.SUCCESS) as [[|] code] eqn:Hbound;
      cbn [fst snd].
    + destruct (handle_results_frame env
                  (wall_time env (clock_reads w)) false
                  (fst (stomp_solve_boundary env
                          {| stomp_applied_config := stomp_config_ P |}
                          start goal))
                  (snd (stomp_solve_boundary env
                          {| stomp_applied_config := stomp_config_ P |}
                          start goal))
                  (set_error_code code (initialize_response res))
                  (solving_world (stomp_config_ P)
                     (EvSolveBoundary start goal)
                     (advance 0 (snd (getStartAndGoal env P)) w)))
        as (res' & w' & Hrun & _ & Htrace & _);
        [apply initialize_response_shape .. |].
      rewrite Hrun. eexists _, w'. split; [done |].
      assert (new_calls w w' =
                (snd (getStartAndGoal env P) ++
                 [EvSetMotionPlanRequest (stomp_config_ P);
                  EvSetConfig (stomp_config_ P);
                  EvSolveBoundary start goal])%list) as Hcalls.
      { apply new_calls_app. rewrite Htrace. cbn. by rewrite <- app_assoc. }
      split; [| by split].
      intros initial. rewrite Hcalls. intros Hin'.
      apply elem_of_app in Hin' as [Hin' | Hin'].
      * by apply Hik in Hin'.
      * repeat (apply elem_of_cons in Hin' as [? | Hin']; [done |]).
        by apply elem_of_nil in Hin'.
    + eexists _, _. split; [done |]. split; [| done].
      intros initial. rewrite new_calls_advance. intros Hin'.
      apply elem_of_app in Hin' as [Hin' | Hin'].
      * by apply Hik in Hin'.
      * apply list_elem_of_singleton in Hin'. done.
  - eexists _, _. split; [done |]. split; [| done].
    intros initial. rewrite new_calls_advance. intros Hin'.
    by apply Hik in Hin'.
Qed.

(** C9. In a seeded solve the configuration handed to the task and applied
    to the optimizer is the baseline configuration with the timestep count
    set to the number of seed samples (one per way point of the trajectory
    constraints; the count itself whenever it fits the [int] field) and
    every other field as in the baseline; the optimizer holds it when the
    task accepted the request; the planner's baseline configuration is the
    same after the solve. *)
Theorem seeded_solve_configuration (res : MotionPlanDetailedResponse)
    (w : World) (s : Stomp) (seed : JointTrajectory) :
  let P := planner w in
  let baseline := stomp_config_ P in
  let applied :=
    set_num_timesteps (int_of_size_t (length (points seed))) baseline in
  stomp_ P = Some s ->
  extractSeedTrajectory P (request_ P) JointTrajectory_new = (true, seed) ->
  exists out w',
    solve_detailed env res w = Some (out, w') /\
    stomp_config_ (planner w') = baseline /\
    (forall config,
       EvSetMotionPlanRequest config ∈ new_calls w w' \/
       EvSetConfig config ∈ new_calls w w' -> config = applied) /\
    (if fst (task_setMotionPlanRequest env (planning_scene_ P)
      (request_ P) applied
               MoveItErrorCodes.SUCCESS)
     then EvSetConfig applied ∈ new_calls w w' /\
          stomp_ (planner w') = Some {| stomp_applied_config := applied |}
     else stomp_ (planner w') = stomp_ P) /\
    length (points seed) = length (trajectory_constraints (request_ P)) /\
    ((Z.of_nat (length (points seed)) <= 2147483647)%Z ->
     num_timesteps applied = Z.of_nat (length (points seed))) /\
    num_iterations applied = num_iterations baseline /\
    num_iterations_after_valid applied = num_iterations_after_valid baseline /\
    num_dimensions applied = num_dimensions baseline /\
    delta_t applied = delta_t baseline /\
    initialization_method applied = initialization_method baseline /\
    num_rollouts applied = num_rollouts baseline /\
    max_rollouts applied = max_rollouts baseline /\
    control_cost_weight applied = control_cost_weight baseline /\
    exponentiated_cost_sensitivity applied =
      exponentiated_cost_sensitivity baseline.
Proof.
  intros P baseline applied Hstomp Hseed.
  assert ((Z.of_nat (length (points seed)) <= 2147483647)%Z ->
          num_timesteps applied = Z.of_nat (length (points seed))) as Hint.
  { intros Hrange. cbn. unfold int_of_size_t, wrap_int32.
    rewrite Z.mod_small by lia. lia. }
  rewrite (solve_detailed_seeded env res w s seed Hstomp Hseed).
  cbv zeta. fold P. fold baseline. fold applied.
  assert (length (points seed) = length (trajectory_constraints (request_ P)))
    as Hsamples.
  { apply extractSeedTrajectory_accepts in Hseed as (_ & _ & ->).
    cbn. by rewrite length_fmap. }
  destruct (task_setMotionPlanRequest env (planning_scene_ P)
      (request_ P) applied
              MoveItErrorCodes.SUCCESS) as [[|] code] eqn:Hbound;
    cbn [fst snd].
  - destruct (handle_results_frame env
                (wall_time env (clock_reads w)) false
                (fst (stomp_solve_seeded env
                        {| stomp_applied_config := applied |}
                        (snd (jointTrajectorytoParameters seed))))
                (snd (stomp_solve_seeded env
                        {| stomp_applied_config := applied |}
                        (snd (jointTrajectorytoParameters seed))))
                (set_error_code code (initialize_response res))
                (solving_world applied
                   (EvSolveSeeded (snd (jointTrajectorytoParameters seed))) w))
      as (res' & w' & Hrun & Hplanner & Htrace & _);
      [apply initialize_response_shape .. |].
    rewrite Hrun. eexists _, w'. split; [done |].
    assert (new_calls w w' =
              [EvSetMotionPlanRequest applied; EvSetConfig applied;
               EvSolveSeeded (snd (jointTrajectorytoParameters seed))])
      as Hcalls by (by apply new_calls_app).
    rewrite Hplanner, Hcalls. split; [done |]. split; [| split].
    + intros config [Hin | Hin];
        repeat (apply elem_of_cons in Hin as [Heq | Hin];
                [by (discriminate || injection Heq as ->) |]);
        by apply elem_of_nil in Hin.
    + split; [| done]. apply list_elem_of_further, list_elem_of_here.
    + done.
  - eexists _, _. split; [done |]. split; [done |].
    rewrite new_calls_advance. split; [| split].
    + intros config [Hin | Hin];
        apply list_elem_of_singleton in Hin;
        by (discriminate || injection Hin as ->).
    + done.
    + done.
Qed.


(** ** Cancellation *)

(** C8. [terminate] returns [true] when no optimizer instance exists, and
    signals nobody; when an instance exists it calls [cancel()] once and
    returns what [cancel()] returned. The planner is left as it was. *)
Theorem terminate_result (w : World) :
  terminate env w =
    match stomp_ (planner w) with
    | Some stomp => Some (stomp_cancel env stomp, advance 0 [EvCancel] w)
    | None => Some (true, w)
    end.
Proof.
  unfold terminate. run_M.
  destruct (stomp_ (planner w)) as [stomp|]; [| done].
  run_M. by destruct (stomp_cancel env stomp).
Qed.

End Solve.

Section InverseKinematics.

Context (env : Collaborators) (P : StompPlanner).

(** C10. [IK_TIMEOUT], an [int] initialised from 0.05, is 0; every
    inverse-kinematics query of [getStartAndGoal] carries 10 attempts and a
    timeout of exactly 0; a Cartesian goal is resolved by one such query; and
    the outcome of [getStartAndGoal] depends on the solver only through its
    answers at 10 attempts and timeout 0. *)
Theorem ik_query_arguments :
  IK_ATTEMPTS = 10%Z /\ IK_TIMEOUT = 0%Z /\
  double_of_int IK_TIMEOUT = 0%Q /\
  (forall pose tip attempts timeout,
     EvSetFromIK pose tip attempts timeout ∈ snd (getStartAndGoal env P) ->
     attempts = 10%Z /\ timeout = 0%Q) /\
  (forall state0 gc rest,
     robotStateMsgToRobotState env (start_state (request_ P)) RobotState_new
       = (true, state0) ->
     group_in_model (robot_model_ P) ->
     goal_constraints (request_ P) = gc :: rest ->
     joint_constraints gc = [] ->
     snd (getStartAndGoal env P) =
       [EvSetFromIK (goal_pose gc)
          (List.last (link_model_names (robot_model_ P)) "") 10%Z 0%Q]) /\
  (forall ik,
     (forall state group pose tip,
        ik state group pose tip 10%Z 0%Q =
          setFromIK env state group pose tip 10%Z 0%Q) ->
     getStartAndGoal (with_setFromIK ik env) P = getStartAndGoal env P).
Proof.
  split; [done |]. split; [done |]. split; [done |]. split; [| split].
  - intros pose tip attempts timeout Hin.
    destruct (getStartAndGoal_calls env P)
      as [Hnone | (gc & rest & _ & _ & Hone)].
    + rewrite Hnone in Hin. by apply elem_of_nil in Hin.
    + rewrite Hone in Hin. apply list_elem_of_singleton in Hin.
      by injection Hin as _ _ -> ->.
  - intros state0 gc rest Hparse Hgroup Hgoals Hcartesian.
    unfold getStartAndGoal. rewrite Hparse. cbn [negb].
    rewrite read_positions_group by done. rewrite Hgoals, Hcartesian.
    destruct (setFromIK env _ _ _ _ _ _) as [[|] state1]; [| done].
    cbn [negb]. by rewrite read_positions_group.
  - intros ik Hik. unfold getStartAndGoal. cbn [robotStateMsgToRobotState
      setFromIK with_setFromIK].
    change (double_of_int IK_TIMEOUT) with 0%Q.
    change IK_ATTEMPTS with 10%Z.
    destruct (robotStateMsgToRobotState env _ _) as [[|] state0]; [| done].
    cbn [negb]. destruct (read_positions _ _ _ _ _) as [start|]; [| done].
    destruct (goal_constraints (request_ P)) as [|gc rest]; [done |].
    destruct (joint_constraints gc) as [|jc jcs]; [| done].
    by rewrite Hik.
Qed.

End InverseKinematics.

(** ** The statements at the two-joint group *)

Lemma fixture_group_in_model : group_in_model Fixture.model.
Proof.
  intros name Hin. cbn in Hin.
  repeat (apply elem_of_cons in Hin as [-> | Hin]; [by eexists |]).
  by apply elem_of_nil in Hin.
Qed.

Lemma fixture_bounds_ordered : bounds_ordered Fixture.model.
Proof.
  intros name b. cbn. rewrite !lookup_insert.
  repeat case_decide; intros [= <-]; cbn; by apply Qle_bool_iff.
Qed.

Lemma collision_is_returned_as_success_witness :
  exists res' w',
    solve_detailed Fixture.env Fixture.fresh_response
      (Fixture.world Fixture.colliding_planner) = Some ((true, res'), w') /\
    error_code_ res' = MoveItErrorCodes.PLANNING_FAILED.
Proof.
  apply (collision_is_returned_as_success Fixture.env Fixture.fresh_response
           (Fixture.world Fixture.colliding_planner)
           {| stomp_applied_config := Fixture.config |}
           Fixture.blocked_scene
           {| rows := 2; cols := 2; data := [0; 0; 1; 1 # 2]%Q |}).
  - reflexivity.
  - exists [0; 0]%Q, [1; 1 # 2]%Q. vm_compute. repeat split.
  - reflexivity.
  - reflexivity.
Defined.

Lemma malformed_seed_falls_back_to_boundary_mode_witness :
  fst (extractSeedTrajectory Fixture.misseeded_planner
         (request_ Fixture.misseeded_planner) JointTrajectory_new) = false /\
  exists out w',
    solve_detailed Fixture.env Fixture.fresh_response
      (Fixture.world Fixture.misseeded_planner) = Some (out, w') /\
    forall initial,
      EvSolveSeeded initial
        ∉ new_calls (Fixture.world Fixture.misseeded_planner) w'.
Proof.
  destruct (malformed_seed_falls_back_to_boundary_mode Fixture.env
              Fixture.fresh_response (Fixture.world Fixture.misseeded_planner)
              {| stomp_applied_config := Fixture.config |}
              Fixture.three_joint_waypoint)
    as (Hreject & out & w' & Hrun & Hno_seeded & _).
  - reflexivity.
  - apply list_elem_of_here.
  - left. cbn. lia.
  - split; [exact Hreject |]. exists out, w'. split; [exact Hrun |].
    exact Hno_seeded.
Defined.

Lemma getStartAndGoal_joint_goal_witness :
  exists start goal,
    getStartAndGoal Fixture.env Fixture.far_goal_planner
      = (Some (start, goal), []) /\
    length start = 2 /\ length goal = 2.
Proof.
  destruct (getStartAndGoal_joint_goal Fixture.env Fixture.far_goal_planner
              (list_to_map [("j1", 0%Q); ("j2", 0%Q)] ∪ RobotState_new)
              (Fixture.joint_goal 5 (1 # 2)%Q) [])
    as (start & goal & Hrun & Hstart & Hgoal & _).
  - reflexivity.
  - reflexivity.
  - discriminate.
  - exact fixture_group_in_model.
  - exact fixture_bounds_ordered.
  - intros jc Hin. cbn in Hin.
    repeat (apply elem_of_cons in Hin as [-> | Hin]; [by eexists |]).
    by apply elem_of_nil in Hin.
  - exists start, goal. split; [exact Hrun |]. split; [exact Hstart |].
    exact Hgoal.
Defined.

(** The goal constraint on [j1] asks for 5, beyond the upper bound 1 of
    [j1]; the goal vector holds 1 for it. *)
Lemma goal_beyond_bounds_is_not_copied :
  fst (getStartAndGoal Fixture.env Fixture.far_goal_planner)
    = Some ([0; 0]%Q, [1; 1 # 2]%Q) /\
  ~ (forall start goal j jc,
       fst (getStartAndGoal Fixture.env Fixture.far_goal_planner)
         = Some (start, goal) ->
       jc ∈ joint_constraints (Fixture.joint_goal 5 (1 # 2)%Q) ->
       active_joint_model_names Fixture.model !! j = Some (jc_joint_name jc) ->
       goal !! j = Some (jc_position jc)).
Proof.
  assert (fst (getStartAndGoal Fixture.env Fixture.far_goal_planner)
          = Some ([0; 0]%Q, [1; 1 # 2]%Q)) as Hrun by (vm_compute; reflexivity).
  split; [exact Hrun |].
  intros Hcopy.
  specialize (Hcopy _ _ 0 {| jc_joint_name := "j1"; jc_position := 5%Q |}
                Hrun).
  cbn in Hcopy. discriminate Hcopy; [apply list_elem_of_here | done].
Qed.

Lemma unformable_boundary_problem_is_reported_witness :
  fst (getStartAndGoal Fixture.env_untimed Fixture.cartesian_planner) = None /\
  exists res' w',
    solve_detailed Fixture.env_untimed Fixture.fresh_response
      (Fixture.world Fixture.cartesian_planner) = Some ((false, res'), w') /\
    error_code_ res' = MoveItErrorCodes.INVALID_MOTION_PLAN.
Proof.
  destruct (unformable_boundary_problem_is_reported Fixture.env_untimed
              Fixture.fresh_response
              (Fixture.world Fixture.cartesian_planner))
    as (Hnone & res' & w' & Hrun & Hcode & _).
  - reflexivity.
  - right. right.
    exists (list_to_map [("j1", 0%Q); ("j2", 0%Q)] ∪ RobotState_new),
           Fixture.cartesian_goal, [].
    repeat split.
  - split; [exact Hnone |]. exists res', w'. split; [exact Hrun |].
    exact Hcode.
Defined.



(** With no optimizer instance, [terminate] returns [true]. *)
Lemma terminate_without_optimizer_returns_true :
  stomp_ (planner (Fixture.world Fixture.unset_planner)) = None /\
  fst <$> terminate Fixture.env (Fixture.world Fixture.unset_planner)
    = Some true /\
  fst <$> terminate Fixture.env (Fixture.world Fixture.unset_planner)
    <> Some false.
Proof. repeat split. discriminate. Qed.

Lemma seeded_solve_configuration_witness :
  exists out w',
    solve_detailed Fixture.env Fixture.fresh_response
      (Fixture.world Fixture.seeded_planner) = Some (out, w') /\
    stomp_config_ (planner w') = Fixture.config /\
    stomp_ (planner w') =
      Some {| stomp_applied_config := set_num_timesteps 2 Fixture.config |}.
Proof.
  destruct (seeded_solve_configuration Fixture.env Fixture.fresh_response
              (Fixture.world Fixture.seeded_planner)
              {| stomp_applied_config := Fixture.config |}
              {| joint_names := ["j1"; "j2"];
                 points := [seed_sample (Fixture.joint_goal 0 0);
                            seed_sample (Fixture.joint_goal 1 1)] |})
    as (out & w' & Hrun & Hbaseline & _ & Happlied & _).
  - reflexivity.
  - reflexivity.
  - exists out, w'. split; [exact Hrun |]. split; [exact Hbaseline |].
    exact (proj2 Happlied).
Defined.

Lemma ik_query_arguments_witness :
  snd (getStartAndGoal Fixture.env Fixture.cartesian_planner) =
    [EvSetFromIK (goal_pose Fixture.cartesian_goal) "tool0" 10%Z 0%Q].
Proof.
  destruct (ik_query_arguments Fixture.env Fixture.cartesian_planner)
    as (_ & _ & _ & _ & Hquery & _).
  apply (Hquery (list_to_map [("j1", 0%Q); ("j2", 0%Q)] ∪ RobotState_new)
           Fixture.cartesian_goal []).
  - reflexivity.
  - exact fixture_group_in_model.
  - reflexivity.
  - reflexivity.
Defined.

(** * Further properties of the planner *)

(** ** Matrices and trajectories *)

Lemma data_lookup_coeff (m : MatrixXd) (i j : nat) :
  MatrixXd_wf m -> i < rows m -> j < cols m ->
  data m !! (i + j * rows m) = Some (coeff m i j).
Proof.
  intros Hwf Hi Hj. unfold coeff.
  pose proof (column_major_index_lt (rows m) (cols m) i j Hi Hj) as Hlt.
  destruct (lookup_lt_is_Some_2 (data m) (i + j * rows m)) as [x ->];
    [unfold MatrixXd_wf in Hwf; lia | done].
Qed.

Lemma column_major_index_split (r c k : nat) :
  k < r * c -> exists i j, i < r /\ j < c /\ k = i + j * r.
Proof.
  intros Hk.
  assert (0 < r) as Hpos by (destruct r; [cbn in Hk |]; lia).
  exists (k mod r), (k / r). split; [| split].
  - apply Nat.mod_upper_bound. lia.
  - apply Nat.Div0.div_lt_upper_bound. lia.
  - pose proof (Nat.div_mod_eq k r). lia.
Qed.

(** Two well-formed matrices of the same shape with the same coefficients
    are the same matrix. *)
Lemma MatrixXd_eq (m1 m2 : MatrixXd) :
  MatrixXd_wf m1 -> MatrixXd_wf m2 ->
  rows m1 = rows m2 -> cols m1 = cols m2 ->
  (forall i j, i < rows m1 -> j < cols m1 -> coeff m1 i j = coeff m2 i j) ->
  m1 = m2.
Proof.
  intros Hwf1 Hwf2 Hrows Hcols Hcoeff.
  assert (data m1 = data m2) as Hdata.
  { apply list_eq. intros k.
    destruct (decide (k < rows m1 * cols m1)) as [Hk | Hk].
    - destruct (column_major_index_split (rows m1) (cols m1) k Hk)
        as (i & j & Hi & Hj & ->).
      rewrite (data_lookup_coeff m1) by done.
      rewrite Hrows.
      rewrite (data_lookup_coeff m2) by (first [done | lia]).
      by rewrite Hcoeff.
    - unfold MatrixXd_wf in *.
      rewrite (proj2 (lookup_ge_None (data m1) k)) by lia.
      rewrite (proj2 (lookup_ge_None (data m2) k)) by lia. done. }
  destruct m1, m2. cbn in *. by subst.
Qed.

Lemma jointTrajectorytoParameters_wf (traj : JointTrajectory) :
  MatrixXd_wf (snd (jointTrajectorytoParameters traj)).
Proof.
  unfold jointTrajectorytoParameters. cbn [snd].
  by apply fill_steps_shape, MatrixXd_new_wf.
Qed.

Lemma position_at_via_positions (traj : JointTrajectory) (t i : nat) :
  position_at traj t i =
    default 0%Q (ps ← (positions <$> points traj) !! t; ps !! i).
Proof.
  unfold position_at. rewrite list_lookup_fmap.
  by destruct (points traj !! t).
Qed.

Lemma col_lookup (m : MatrixXd) (t i : nat) :
  i < rows m -> col m t !! i = Some (coeff m i t).
Proof.
  intros Hi. unfold col. rewrite list_lookup_fmap, lookup_seq_lt by done.
  done.
Qed.

Section MatrixRoundTrip.

Context (env : Collaborators) (P : StompPlanner).

(** X1. A well-formed parameter matrix with one row per active joint,
    converted to a joint trajectory and back, is the matrix it was: shape
    and every coefficient; the time parameterization is taken to keep the
    joint names and the positions. *)
Theorem parameters_round_trip (parameters : MatrixXd)
    (trajectory : JointTrajectory) :
  MatrixXd_wf parameters ->
  rows parameters = length (active_joint_model_names (robot_model_ P)) ->
  (forall rt scale rt',
     computeTimeStamps env rt scale = (true, rt') ->
     joint_names (rt_msg rt') = joint_names (rt_msg rt) /\
     positions <$> points (rt_msg rt') = positions <$> points (rt_msg rt)) ->
  snd (jointTrajectorytoParameters
         (snd (parametersToJointTrajectory env P parameters trajectory)))
    = parameters.
Proof.
  intros Hwf Hrows Htiming.
  set (untimed :=
         {| joint_names := active_joint_model_names (robot_model_ P);
            points := parameters_to_points parameters |}).
  assert (exists traj,
            snd (parametersToJointTrajectory env P parameters trajectory)
              = traj /\
            joint_names traj = joint_names untimed /\
            positions <$> points traj = positions <$> points untimed)
    as (traj & -> & Hnames & Hpositions).
  { unfold parametersToJointTrajectory. fold untimed.
    destruct (computeTimeStamps env _ _) as [[|] timed] eqn:Hts.
    - apply Htiming in Hts as [Hn Hp]. by eexists.
    - by eexists. }
  assert (length (points traj) = cols parameters) as Hcols.
  { rewrite <- (length_fmap positions), Hpositions, length_fmap.
    apply parameters_to_points_length. }
  assert (length (joint_names traj) = rows parameters) as Hdof
    by (by rewrite Hnames, Hrows).
  destruct (jointTrajectorytoParameters_shape traj) as [Hr Hc].
  apply MatrixXd_eq.
  - apply jointTrajectorytoParameters_wf.
  - done.
  - by rewrite Hr.
  - by rewrite Hc.
  - intros i j Hi Hj. rewrite Hr in Hi. rewrite Hc in Hj.
    rewrite jointTrajectorytoParameters_coeff by done.
    rewrite position_at_via_positions, Hpositions, list_lookup_fmap.
    cbn [untimed points].
    rewrite parameters_to_points_lookup, decide_True by lia.
    cbn. rewrite col_lookup by lia. done.
Qed.

End MatrixRoundTrip.

Lemma parameters_round_trip_witness :
  snd (jointTrajectorytoParameters
         (snd (parametersToJointTrajectory Fixture.env
                 Fixture.goalless_planner
                 {| rows := 2; cols := 3;
                    data := [0; 1; 2; 3; 4; 5]%Q |}
                 JointTrajectory_new)))
    = {| rows := 2; cols := 3; data := [0; 1; 2; 3; 4; 5]%Q |}.
Proof.
  apply (parameters_round_trip Fixture.env Fixture.goalless_planner).
  - reflexivity.
  - reflexivity.
  - intros rt scale rt' Hts. cbn in Hts. injection Hts as <-. cbn.
    split; [done |]. rewrite <- list_fmap_compose. done.
Defined.

(** ** Seed extraction *)

Lemma seed_points_rejects_at (names : list string)
    (good : list Constraints) (bad : Constraints) (rest : list Constraints)
    (seed : JointTrajectory) :
  Forall (waypoint_matches_group names) good ->
  ~ waypoint_matches_group names bad ->
  seed_points names (good ++ bad :: rest) seed =
    (false, {| joint_names := joint_names seed;
               points := (points seed ++ (seed_sample <$> good))%list |}).
Proof.
  intros Hgood Hbad. revert seed.
  induction Hgood as [|c cs [Hn Hnames] Hgood IH]; intros seed.
  - cbn [app seed_points fmap list_fmap]. rewrite app_nil_r.
    case_bool_decide as Hcount; [by destruct seed |].
    rewrite seed_point_rejects; [by destruct seed | lia |].
    rewrite drop_0, Hcount, firstn_all. intros Heq. by apply Hbad.
  - cbn [app seed_points].
    rewrite bool_decide_eq_false_2 by (intros Hne; by apply Hne).
    rewrite seed_point_matching;
      [| by rewrite drop_0, Hn, firstn_all | lia].
    rewrite IH. cbn. by rewrite <- app_assoc.
Qed.

Section SeedExtraction.

Context (P : StompPlanner) (req : MotionPlanRequest).

#[local] Abbreviation canonical_names :=
  (active_joint_model_names (robot_model_ P)).

(** X2. [extractSeedTrajectory] returns [true] exactly for a non-empty
    sequence of way points that all carry one joint constraint per active
    joint, named in the canonical order; it then sets the canonical joint
    names and appends, to the points its out parameter already holds, one
    sample per way point whose positions are the constraint positions, with
    no velocities or accelerations. *)
Theorem extractSeedTrajectory_accepts_exactly (seed : JointTrajectory) :
  (fst (extractSeedTrajectory P req seed) = true <->
   trajectory_constraints req <> [] /\
   Forall (waypoint_matches_group canonical_names)
          (trajectory_constraints req)) /\
  (fst (extractSeedTrajectory P req seed) = true ->
   snd (extractSeedTrajectory P req seed) =
     {| joint_names := canonical_names;
        points := (points seed ++
                   (seed_sample <$> trajectory_constraints req))%list |}).
Proof.
  unfold extractSeedTrajectory.
  destruct (trajectory_constraints req) as [|c cs] eqn:Hcs.
  - cbn. split; [| done]. split; [done | by intros [? _]].
  - destruct (seed_points canonical_names (c :: cs) seed)
      as [[|] seed'] eqn:Hrun.
    + apply seed_points_accepts in Hrun as [Hall ->]. cbn. split; [| done].
      split; [done | done].
    + cbn. split; [| done]. split; [done |]. intros [_ Hall].
      rewrite (seed_points_matching _ _ seed Hall) in Hrun. done.
Qed.

(** X3. What a rejected seed leaves in the out parameter: nothing is
    touched when there are no trajectory constraints; otherwise the samples
    of the way points before the first one that does not match the group
    have been appended, and the joint names are not set. *)
Theorem extractSeedTrajectory_rejection_leaves_prefix
    (seed : JointTrajectory) (good : list Constraints) (bad : Constraints)
    (rest : list Constraints) :
  (trajectory_constraints req = [] ->
   extractSeedTrajectory P req seed = (false, seed)) /\
  (trajectory_constraints req = (good ++ bad :: rest)%list ->
   Forall (waypoint_matches_group canonical_names) good ->
   ~ waypoint_matches_group canonical_names bad ->
   extractSeedTrajectory P req seed =
     (false, {| joint_names := joint_names seed;
                points := (points seed ++ (seed_sample <$> good))%list |})).
Proof.
  unfold extractSeedTrajectory. split.
  - by intros ->.
  - intros Hcs Hgood Hbad.
    pose proof (seed_points_rejects_at canonical_names good bad rest seed
                  Hgood Hbad) as Hrun.
    rewrite <- Hcs in Hrun.
    destruct (trajectory_constraints req) as [|c cs];
      [by destruct good | by rewrite Hrun].
Qed.

(** X4. The matrix that seeds the optimizer: for an accepted seed it has
    one row per active joint and one column per way point, and its
    coefficient at row [j] and column [t] is the position of the [j]-th
    joint constraint of the [t]-th way point. *)
Theorem seed_parameters_hold_the_waypoints (seed : JointTrajectory) :
  extractSeedTrajectory P req JointTrajectory_new = (true, seed) ->
  let initial := snd (jointTrajectorytoParameters seed) in
  rows initial = length canonical_names /\
  cols initial = length (trajectory_constraints req) /\
  MatrixXd_wf initial /\
  forall t c j jc,
    trajectory_constraints req !! t = Some c ->
    joint_constraints c !! j = Some jc ->
    coeff initial j t = jc_position jc.
Proof.
  intros Hseed initial.
  apply extractSeedTrajectory_accepts in Hseed as (_ & Hall & ->).
  destruct (jointTrajectorytoParameters_shape
              {| joint_names := canonical_names;
                 points := seed_sample <$> trajectory_constraints req |})
    as [Hr Hc].
  cbn [joint_names points] in Hr, Hc. rewrite length_fmap in Hc.
  split; [done |]. split; [done |].
  split; [apply jointTrajectorytoParameters_wf |].
  intros t c j jc Ht Hj. unfold initial.
  assert (waypoint_matches_group canonical_names c) as [Hn _].
  { rewrite Forall_forall in Hall. apply Hall.
    by eapply list_elem_of_lookup_2. }
  rewrite jointTrajectorytoParameters_coeff.
  - unfold position_at. cbn [points].
    rewrite list_lookup_fmap, Ht. cbn.
    by rewrite list_lookup_fmap, Hj.
  - cbn [joint_names]. rewrite <- Hn. by eapply lookup_lt_Some.
  - cbn [points]. rewrite length_fmap. by eapply lookup_lt_Some.
Qed.

End SeedExtraction.

Lemma extractSeedTrajectory_accepts_exactly_witness :
  snd (extractSeedTrajectory Fixture.seeded_planner
         (request_ Fixture.seeded_planner) JointTrajectory_new) =
    {| joint_names := ["j1"; "j2"];
       points := [seed_sample (Fixture.joint_goal 0 0);
                  seed_sample (Fixture.joint_goal 1 1)] |}.
Proof.
  apply (extractSeedTrajectory_accepts_exactly Fixture.seeded_planner
           (request_ Fixture.seeded_planner) JointTrajectory_new).
  reflexivity.
Defined.

Lemma extractSeedTrajectory_rejection_leaves_prefix_witness :
  extractSeedTrajectory Fixture.seeded_planner
    (Fixture.request [] [Fixture.joint_goal 0 0; Fixture.three_joint_waypoint;
                         Fixture.joint_goal 1 1])
    JointTrajectory_new =
    (false, {| joint_names := [];
               points := [seed_sample (Fixture.joint_goal 0 0)] |}).
Proof.
  apply (extractSeedTrajectory_rejection_leaves_prefix Fixture.seeded_planner
           (Fixture.request [] [Fixture.joint_goal 0 0;
                                Fixture.three_joint_waypoint;
                                Fixture.joint_goal 1 1])
           JointTrajectory_new [Fixture.joint_goal 0 0]
           Fixture.three_joint_waypoint [Fixture.joint_goal 1 1]).
  - reflexivity.
  - constructor; [| constructor]. split; reflexivity.
  - intros [Hcount _]. cbn in Hcount. lia.
Defined.

Lemma seed_parameters_hold_the_waypoints_witness :
  coeff (snd (jointTrajectorytoParameters
                {| joint_names := ["j1"; "j2"];
                   points := [seed_sample (Fixture.joint_goal 0 0);
                              seed_sample (Fixture.joint_goal 1 1)] |}))
        1 1 = 1%Q.
Proof.
  destruct (seed_parameters_hold_the_waypoints Fixture.seeded_planner
              (request_ Fixture.seeded_planner)
              {| joint_names := ["j1"; "j2"];
                 points := [seed_sample (Fixture.joint_goal 0 0);
                            seed_sample (Fixture.joint_goal 1 1)] |})
    as (_ & _ & _ & Hcoeff).
  - reflexivity.
  - apply (Hcoeff 1 (Fixture.joint_goal 1 1) 1
             {| jc_joint_name := "j2"; jc_position := 1%Q |});
      reflexivity.
Defined.

(** ** Boundary resolution *)

Section BoundaryResolution.

Context (env : Collaborators).

(** X5. A goal constraint on a joint that the robot model does not have
    makes [getStartAndGoal] return [false] through the exception handler of
    line 445, without an inverse-kinematics query; a solve without seed then
    returns [false] with INVALID_MOTION_PLAN and has called nobody. *)
Theorem goal_on_unknown_joint_is_rejected (res : MotionPlanDetailedResponse)
    (w : World) (gc : Constraints) (rest : list Constraints)
    (jc : JointConstraint) :
  let P := planner w in
  fst (extractSeedTrajectory P (request_ P) JointTrajectory_new) = false ->
  goal_constraints (request_ P) = gc :: rest ->
  jc ∈ joint_constraints gc ->
  variable_bounds (robot_model_ P) !! jc_joint_name jc = None ->
  getStartAndGoal env P = (None, []) /\
  exists res' w',
    solve_detailed env res w = Some ((false, res'), w') /\
    error_code_ res' = MoveItErrorCodes.INVALID_MOTION_PLAN /\
    new_calls w w' = [] /\ planner w' = planner w.
Proof.
  intros P Hseed Hgoals Hin Hunknown.
  assert (getStartAndGoal env P = (None, [])) as Hfail.
  { unfold getStartAndGoal.
    destruct (robotStateMsgToRobotState env _ _) as [[|] state0]; [| done].
    cbn [negb]. destruct (read_positions _ _ _ _ _) as [start|]; [| done].
    rewrite Hgoals.
    destruct (joint_constraints gc) as [|jc' jcs] eqn:Hjcs;
      [by apply elem_of_nil in Hin |].
    by rewrite (set_goal_positions_unknown _ _ _ jc Hin Hunknown). }
  split; [done |].
  destruct (extractSeedTrajectory P (request_ P) JointTrajectory_new)
    as [provided seed] eqn:Hextract.
  cbn in Hseed. subst provided.
  rewrite (solve_detailed_unresolved env res w seed Hextract)
    by (fold P; by rewrite Hfail).
  fold P. rewrite Hfail. eexists _, _. split; [done |].
  split; [done |]. split; [apply new_calls_advance | done].
Qed.

Lemma carries_pose_goal_pose (gc : Constraints) (pose : Pose) :
  carries_pose gc pose -> goal_pose gc = pose.
Proof.
  intros (pc & oc & pp & Hpc & Hoc & Hpp & ->).
  unfold goal_pose. rewrite Hpc, Hoc. cbn. by rewrite Hpp.
Qed.

Lemma last_link (links : list string) (tool_link d : string) :
  last links = Some tool_link -> List.last links d = tool_link.
Proof.
  induction links as [|l [|l' links] IH]; intros Hlast.
  - done.
  - by injection Hlast.
  - by apply IH.
Qed.

(** X6. Take a robot model that has every active joint of the group as a
    variable, no lower bound above its upper one and a last link for the
    group, a start state that parses, and a first goal constraint set that
    has no joint constraints and carries a pose: a first position constraint
    with a first primitive pose, and a first orientation constraint. When
    inverse kinematics succeeds from the bounds-enforced start state for that
    pose, [getStartAndGoal] succeeds after exactly one query, which asks for
    the position of the primitive pose and the orientation of the
    orientation constraint at the last link, with 10 attempts and timeout 0;
    the start vector holds the bounds-enforced start-state positions and the
    goal vector the bounds-enforced positions of the state the solver
    produced, all within the joints' bounds. *)
Theorem getStartAndGoal_cartesian_goal (P : StompPlanner)
    (state0 state1 : RobotState) (gc : Constraints) (rest : list Constraints)
    (pose : Pose) (tool_link : string) :
  let model := robot_model_ P in
  let names := active_joint_model_names model in
  group_in_model model ->
  bounds_ordered model ->
  last (link_model_names model) = Some tool_link ->
  robotStateMsgToRobotState env (start_state (request_ P)) RobotState_new
    = (true, state0) ->
  goal_constraints (request_ P) = gc :: rest ->
  joint_constraints gc = [] ->
  carries_pose gc pose ->
  setFromIK env (enforceBounds model state0) (group_ P) pose tool_link
    10%Z 0%Q = (true, state1) ->
  exists start goal,
    getStartAndGoal env P =
      (Some (start, goal), [EvSetFromIK pose tool_link 10%Z 0%Q]) /\
    length start = length names /\ length goal = length names /\
    forall j name b,
      names !! j = Some name -> variable_bounds model !! name = Some b ->
      start !! j = Some (clamp b (position_of state0 name)) /\
      goal !! j = Some (clamp b (position_of state1 name)) /\
      within_bounds b (clamp b (position_of state0 name)) /\
      within_bounds b (clamp b (position_of state1 name)).
Proof.
  intros model names Hgroup Hord Hlink Hparse Hgoals Hcartesian Hpose Hik.
  apply carries_pose_goal_pose in Hpose.
  exists (position_of (enforceBounds model state0) <$> names),
         (position_of (enforceBounds model state1) <$> names).
  split; [| split; [| split]].
  - unfold getStartAndGoal. fold model. rewrite Hparse. cbn [negb].
    rewrite read_positions_group by done. rewrite Hgoals, Hcartesian.
    change (double_of_int IK_TIMEOUT) with 0%Q.
    change IK_ATTEMPTS with 10%Z.
    rewrite Hpose, (last_link _ tool_link "" Hlink).
    rewrite Hik. cbn [negb]. by rewrite read_positions_group.
  - by rewrite length_fmap.
  - by rewrite length_fmap.
  - intros j name b Hj Hb.
    assert (name ∈ active_joint_model_names model) as Hin
      by (by eapply list_elem_of_lookup_2).
    rewrite !list_lookup_fmap, Hj. cbn [fmap option_fmap option_map].
    rewrite !(enforceBounds_position model _ name b) by done.
    repeat split; try done; by apply clamp_within, (Hord name).
Qed.

(** X7. [canServiceRequest] accepts exactly the requests for the
    planner's own group whose goal is a single constraint set with at least
    one joint constraint; start state and trajectory constraints play no
    part. For a request it accepts, [getStartAndGoal] never queries inverse
    kinematics: the Cartesian branch serves only requests that
    [canServiceRequest] turns down. *)
Theorem canServiceRequest_accepts_exactly (P : StompPlanner)
    (req : MotionPlanRequest) :
  (canServiceRequest P req = true <->
   group_name req = group_ P /\
   exists gc, goal_constraints req = [gc] /\ joint_constraints gc <> []) /\
  (canServiceRequest P (request_ P) = true ->
   snd (getStartAndGoal env P) = []).
Proof.
  assert (canServiceRequest P req = true <->
          group_name req = group_ P /\
          exists gc, goal_constraints req = [gc] /\ joint_constraints gc <> [])
    as Hiff.
  { unfold canServiceRequest.
    destruct (goal_constraints req) as [|gc [|gc' gcs]] eqn:Hgoals; cbn.
    - case_bool_decide; (split; [done | by intros [_ (gc & ? & _)]]).
    - case_bool_decide as Hgroup.
      + split; [done | by intros [? _]].
      + destruct (joint_constraints gc) as [|jc jcs] eqn:Hjcs; cbn.
        * split; [done |]. intros [_ (gc0 & [= <-] & Hne)]. by rewrite Hjcs in Hne.
        * split; [| done]. intros _. split; [done |].
          exists gc. split; [done |]. by rewrite Hjcs.
    - case_bool_decide; (split; [done | by intros [_ (gc0 & ? & _)]]). }
  split; [exact Hiff |].
  clear Hiff. intros Hok.
  assert (exists gc, goal_constraints (request_ P) = [gc] /\
                     joint_constraints gc <> []) as (gc & Hgoals & Hjoint).
  { revert Hok. unfold canServiceRequest.
    destruct (goal_constraints (request_ P)) as [|gc [|gc' gcs]]; cbn.
    - by case_bool_decide.
    - case_bool_decide; [done |].
      destruct (joint_constraints gc) as [|jc jcs] eqn:Hjcs; cbn; [done |].
      intros _. exists gc. by rewrite Hjcs.
    - by case_bool_decide. }
  destruct (getStartAndGoal_calls env P)
    as [Hnone | (gc' & rest & Hgoals' & Hcartesian & _)]; [done |].
  rewrite Hgoals in Hgoals'. injection Hgoals' as <- _. done.
Qed.

End BoundaryResolution.

Lemma goal_on_unknown_joint_is_rejected_witness :
  getStartAndGoal Fixture.env
    (Fixture.stomp_planner
       (Fixture.request [Fixture.three_joint_waypoint] []) None)
    = (None, []).
Proof.
  apply (goal_on_unknown_joint_is_rejected Fixture.env Fixture.fresh_response
           (Fixture.world
              (Fixture.stomp_planner
                 (Fixture.request [Fixture.three_joint_waypoint] []) None))
           Fixture.three_joint_waypoint []
           {| jc_joint_name := "j3"; jc_position := 0%Q |}).
  - reflexivity.
  - reflexivity.
  - cbn. do 2 apply list_elem_of_further. apply list_elem_of_here.
  - reflexivity.
Defined.

Lemma getStartAndGoal_cartesian_goal_witness :
  exists start goal,
    getStartAndGoal Fixture.env Fixture.cartesian_planner =
      (Some (start, goal), [EvSetFromIK Pose_new "tool0" 10%Z 0%Q]) /\
    length start = 2 /\ length goal = 2.
Proof.
  destruct (getStartAndGoal_cartesian_goal Fixture.env
              Fixture.cartesian_planner
              (list_to_map [("j1", 0%Q); ("j2", 0%Q)] ∪ RobotState_new)
              (<["j1" := (1 # 2)%Q]>
                 (<["j2" := (3 # 2)%Q]>
                    (enforceBounds Fixture.model
                       (list_to_map [("j1", 0%Q); ("j2", 0%Q)]
                          ∪ RobotState_new))))
              Fixture.cartesian_goal [] Pose_new "tool0")
    as (start & goal & Hrun & Hstart & Hgoal & _).
  - exact fixture_group_in_model.
  - exact fixture_bounds_ordered.
  - reflexivity.
  - reflexivity.
  - reflexivity.
  - reflexivity.
  - exists {| primitive_poses := [Pose_new] |},
           {| oc_orientation := Quaternion_new |}, Pose_new.
    repeat split.
  - reflexivity.
  - exists start, goal. split; [exact Hrun |]. split; [exact Hstart |].
    exact Hgoal.
Defined.

Lemma canServiceRequest_accepts_exactly_witness :
  snd (getStartAndGoal Fixture.env Fixture.far_goal_planner) = [].
Proof.
  apply (canServiceRequest_accepts_exactly Fixture.env
           Fixture.far_goal_planner (request_ Fixture.far_goal_planner)).
  reflexivity.
Defined.

(** ** Solve orchestration *)

Lemma insert_head_singleton {A} (l : list A) (x : A) :
  length l = 1 -> <[0 := x]> l = [x].
Proof. by destruct l as [|y [|z l]]. Qed.

(** The seven ways through the detailed solve when the optimizer exists:
    with a seed or without, the task refusing or accepting, the optimizer
    failing or succeeding, and boundary resolution failing. *)
Ltac solve_paths env res w s Hstomp :=
  let seed := fresh "seed" in
  let Hseed := fresh "Hseed" in
  destruct (extractSeedTrajectory (planner w) (request_ (planner w))
              JointTrajectory_new) as [[|] seed] eqn:Hseed;
  [ rewrite (solve_detailed_seeded env res w s seed Hstomp Hseed); cbv zeta;
    let code := fresh "code" in
    let Hbound := fresh "Hbound" in
    destruct (task_setMotionPlanRequest env _ _ _ _)
      as [[|] code] eqn:Hbound; cbn [fst snd];
    [ let parameters := fresh "parameters" in
      let Hsolved := fresh "Hsolved" in
      destruct (stomp_solve_seeded env _ _)
        as [[|] parameters] eqn:Hsolved; cbn [fst snd];
      [ rewrite handle_results_optimizer_success
          by apply initialize_response_shape
      | rewrite handle_results_optimizer_failure ]
    | ]
  | rewrite (solve_detailed_boundary env res w s seed Hstomp Hseed); cbv zeta;
    let start := fresh "start" in
    let goal := fresh "goal" in
    let calls := fresh "calls" in
    let Hresolved := fresh "Hresolved" in
    destruct (getStartAndGoal env (planner w))
      as [[[start goal]|] calls] eqn:Hresolved; cbn [fst snd];
    [ let code := fresh "code" in
      let Hbound := fresh "Hbound" in
      destruct (task_setMotionPlanRequest env _ _ _ _)
        as [[|] code] eqn:Hbound; cbn [fst snd];
      [ let parameters := fresh "parameters" in
        let Hsolved := fresh "Hsolved" in
        destruct (stomp_solve_boundary env _ _ _)
          as [[|] parameters] eqn:Hsolved; cbn [fst snd];
        [ rewrite handle_results_optimizer_success
            by apply initialize_response_shape
        | rewrite handle_results_optimizer_failure ]
      | ]
    | ] ].

Section SolveOutcomes.

Context (env : Collaborators).

(** X8. When the optimizer succeeds and the planning scene, if there is
    one, finds the reified trajectory valid, the detailed solve returns
    [true]; the response holds that trajectory in its single slot, the time
    between the two clock readings, and as error code what the task left
    there when it was handed SUCCESS. *)
Theorem valid_path_is_reported (res : MotionPlanDetailedResponse) (w : World)
    (s : Stomp) (parameters : MatrixXd) :
  let P := planner w in
  stomp_ P = Some s ->
  optimizer_succeeds env w parameters ->
  match planning_scene_ P with
  | Some scene =>
      isPathValid scene (reified_trajectory env P parameters) (group_ P) true
        = true
  | None => True
  end ->
  exists res' w' config,
    solve_detailed env res w = Some ((true, res'), w') /\
    trajectory_ res' = [Some (reified_trajectory env P parameters)] /\
    processing_time_ res' =
      [toSec (wall_time env (S (clock_reads w))
              - wall_time env (clock_reads w))] /\
    EvSetMotionPlanRequest config ∈ new_calls w w' /\
    error_code_ res' =
      snd (task_setMotionPlanRequest env (planning_scene_ P) (request_ P)
             config MoveItErrorCodes.SUCCESS).
Proof.
  intros P Hstomp Hopt Hvalid. unfold optimizer_succeeds in Hopt. fold P in Hopt.
  assert (<[0 := Some (reified_trajectory env P parameters)]>
            (trajectory_ (initialize_response res))
          = [Some (reified_trajectory env P parameters)]) as Hslot.
  { apply insert_head_singleton, (initialize_response_shape res 0). }
  assert (forall t : Q,
            <[0 := t]> (processing_time_ (initialize_response res)) = [t])
    as Htime.
  { intros t. apply insert_head_singleton, (initialize_response_shape res 0). }
  destruct (extractSeedTrajectory P (request_ P) JointTrajectory_new)
    as [[|] seed] eqn:Hseed.
  - destruct Hopt as [Hbound Hsolved].
    rewrite (solve_detailed_seeded env res w s seed Hstomp Hseed).
    cbv zeta. fold P. rewrite Hbound, Hsolved. cbn [fst snd].
    rewrite handle_results_optimizer_success
      by apply initialize_response_shape.
    eexists _, _, _. split; [done |].
    change (planning_scene_ (planner (solving_world _ _ w)))
      with (planning_scene_ P).
    change (reified_trajectory env (planner (solving_world _ _ w)) parameters)
      with (reified_trajectory env P parameters).
    change (group_ (planner (solving_world _ _ w))) with (group_ P).
    assert (new_calls w (advance 1 [] (solving_world
              (set_num_timesteps (int_of_size_t (length (points seed)))
                 (stomp_config_ P))
              (EvSolveSeeded (snd (jointTrajectorytoParameters seed))) w))
            = [EvSetMotionPlanRequest
                 (set_num_timesteps (int_of_size_t (length (points seed)))
                    (stomp_config_ P));
               EvSetConfig
                 (set_num_timesteps (int_of_size_t (length (points seed)))
                    (stomp_config_ P));
               EvSolveSeeded (snd (jointTrajectorytoParameters seed))])
      as -> by (apply new_calls_app; cbn; by rewrite app_nil_r).
    destruct (planning_scene_ P) as [scene|]; [rewrite Hvalid |];
      cbn [negb set_processing_time set_trajectory trajectory_
           processing_time_ error_code_ set_error_code];
      rewrite Hslot, Htime;
      (split; [done |]); (split; [done |]);
      (split; [apply list_elem_of_here | done]).
  - destruct Hopt as (start & goal & Hresolved & Hbound & Hsolved).
    rewrite (solve_detailed_boundary env res w s seed Hstomp Hseed).
    cbv zeta. fold P. rewrite Hresolved, Hbound, Hsolved. cbn [fst snd].
    rewrite handle_results_optimizer_success
      by apply initialize_response_shape.
    eexists _, _, _. split; [done |].
    change (planning_scene_ (planner (solving_world _ _ _)))
      with (planning_scene_ P).
    change (reified_trajectory env (planner (solving_world _ _ _)) parameters)
      with (reified_trajectory env P parameters).
    change (group_ (planner (solving_world _ _ _))) with (group_ P).
    assert (new_calls w (advance 1 [] (solving_world (stomp_config_ P)
              (EvSolveBoundary start goal)
              (advance 0 (snd (getStartAndGoal env P)) w)))
            = (snd (getStartAndGoal env P) ++
               [EvSetMotionPlanRequest (stomp_config_ P);
                EvSetConfig (stomp_config_ P);
                EvSolveBoundary start goal])%list)
      as -> by (apply new_calls_app; cbn;
                by rewrite app_nil_r, <- app_assoc).
    destruct (planning_scene_ P) as [scene|]; [rewrite Hvalid |];
      cbn [negb set_processing_time set_trajectory trajectory_
           processing_time_ error_code_ set_error_code];
      rewrite Hslot, Htime;
      (split; [done |]); (split; [done |]);
      (split; [apply elem_of_app; right; apply list_elem_of_here | done]).
Qed.

Lemma solve_detailed_response (res : MotionPlanDetailedResponse) (w : World)
    (s : Stomp) :
  stomp_ (planner w) = Some s ->
  exists out w',
    solve_detailed env res w = Some (out, w') /\
    length (trajectory_ (snd out)) = 1 /\
    length (description_ (snd out)) = 1 /\
    length (processing_time_ (snd out)) = 1 /\
    (fst out = false ->
     is_failure_code (error_code_ (snd out)) /\
     error_code_ (snd out) <> MoveItErrorCodes.SUCCESS /\
     trajectory_ (snd out) = resize 1 None (trajectory_ res) /\
     (trajectory_ res = [] -> trajectory_ (snd out) = [None])) /\
    (fst out = true -> exists path, trajectory_ (snd out) = [Some path]).
Proof.
  intros Hstomp.
  pose proof (initialize_response_shape res 0) as [Htraj Htime].
  assert (length (description_ (initialize_response res)) = 1) as Hdesc
    by apply length_resize.
  cbn [set_error_code trajectory_ processing_time_] in Htraj, Htime.
  unfold is_failure_code.
  solve_paths env res w s Hstomp;
    eexists _, _; (split; [done |]);
    try match goal with
        | |- context [if ?b then set_error_code _ _ else _] => destruct b
        end;
    cbn [fst snd set_processing_time set_trajectory set_error_code
         trajectory_ description_ processing_time_ error_code_];
    rewrite ?length_insert;
    (split; [done |]); (split; [done |]); (split; [done |]);
    (split;
     [ try (intros ?; discriminate);
       intros _;
       (split; [by auto |]); (split; [done |]); (split; [done |]);
       intros Hfresh; unfold initialize_response; cbn [trajectory_];
       by rewrite Hfresh
     | try (intros ?; discriminate);
       intros _; eexists;
       apply insert_head_singleton, (initialize_response_shape res 0) ]).
Qed.

(** X9. Whatever happens, the detailed solve leaves a response with exactly
    one trajectory slot, one description and one processing time. When it
    returns [false] the error code is FAILURE, INVALID_MOTION_PLAN or
    PLANNING_FAILED, never SUCCESS, and the trajectory slot was not written:
    a fresh response holds the null trajectory. When it returns [true] the
    slot holds a trajectory. *)
Theorem failed_solve_response (res : MotionPlanDetailedResponse) (w : World)
    (s : Stomp) :
  stomp_ (planner w) = Some s ->
  exists out w',
    solve_detailed env res w = Some (out, w') /\
    length (trajectory_ (snd out)) = 1 /\
    length (description_ (snd out)) = 1 /\
    length (processing_time_ (snd out)) = 1 /\
    (fst out = false ->
     is_failure_code (error_code_ (snd out)) /\
     error_code_ (snd out) <> MoveItErrorCodes.SUCCESS /\
     trajectory_ (snd out) = resize 1 None (trajectory_ res) /\
     (trajectory_ res = [] -> trajectory_ (snd out) = [None])) /\
    (fst out = true -> exists path, trajectory_ (snd out) = [Some path]).
Proof. apply solve_detailed_response. Qed.

(** X10. Whatever response object it is handed, the compact solve reads
    the clock, runs the detailed solve on a fresh response and reads the
    clock again; it returns the detailed solve's return value, and its
    response holds the trajectory of the detailed response's last slot, the
    detailed response's error code and the time between the two readings.
    With [false] come a null trajectory and one of the three failure codes,
    never SUCCESS; with [true] comes a trajectory. *)
Theorem compact_solve_response (r : MotionPlanResponse) (w : World)
    (s : Stomp) :
  stomp_ (planner w) = Some s ->
  exists success detailed_res w1,
    solve_detailed env MotionPlanDetailedResponse_new (advance 1 [] w)
      = Some ((success, detailed_res), w1) /\
    (forall r0,
       solve env r0 w =
         Some ((success,
                {| r_trajectory_ := trajectory_back detailed_res;
                   r_planning_time_ :=
                     toSec (wall_time env (clock_reads w1)
                            - wall_time env (clock_reads w));
                   r_error_code_ := error_code_ detailed_res |}),
               advance 1 [] w1)) /\
    (success = false ->
     trajectory_back detailed_res = None /\
     is_failure_code (error_code_ detailed_res) /\
     error_code_ detailed_res <> MoveItErrorCodes.SUCCESS) /\
    (success = true ->
     exists path, trajectory_back detailed_res = Some path).
Proof.
  intros Hstomp.
  destruct (solve_detailed_response MotionPlanDetailedResponse_new
              (advance 1 [] w) s Hstomp)
    as ([success detailed_res] & w1 & Hrun & _ & _ & _ & Hfalse & Htrue).
  exists success, detailed_res, w1. split; [exact Hrun |].
  split; [| split].
  - intros r0. unfold solve.
    assert (now env w = Some (wall_time env (clock_reads w), advance 1 [] w))
      as Hentry by (unfold now, advance; by rewrite app_nil_r).
    assert (now env w1 = Some (wall_time env (clock_reads w1),
                               advance 1 [] w1))
      as Hexit by (unfold now, advance; by rewrite app_nil_r).
    unfold mbind, M_bind. rewrite Hentry, Hrun, Hexit. done.
  - intros Hfailed. cbn [fst snd] in Hfalse.
    destruct (Hfalse Hfailed) as (Hcode & Hne & _ & Hslot).
    split; [| done]. unfold trajectory_back. by rewrite Hslot.
  - intros Hok. cbn [fst snd] in Htrue.
    destruct (Htrue Hok) as [path Hslot]. exists path.
    unfold trajectory_back. by rewrite Hslot.
Qed.

(** X11. The detailed solve writes no member of the planner but the
    optimizer handle. Either the optimizer was not configured and the handle
    is as before, or it holds the configuration of this solve, which is the
    baseline up to the timestep count and, without a seed, the baseline
    itself, whatever the optimizer held before. *)
Theorem solve_detailed_frame (res : MotionPlanDetailedResponse) (w : World)
    (s : Stomp) :
  let P := planner w in
  stomp_ P = Some s ->
  exists out w',
    solve_detailed env res w = Some (out, w') /\
    group_ (planner w') = group_ P /\
    robot_model_ (planner w') = robot_model_ P /\
    stomp_config_ (planner w') = stomp_config_ P /\
    request_ (planner w') = request_ P /\
    planning_scene_ (planner w') = planning_scene_ P /\
    ((stomp_ (planner w') = stomp_ P /\
      forall config, EvSetConfig config ∉ new_calls w w') \/
     (exists config,
        stomp_ (planner w') = Some {| stomp_applied_config := config |} /\
        EvSetConfig config ∈ new_calls w w' /\
        config = set_num_timesteps (num_timesteps config) (stomp_config_ P) /\
        (fst (extractSeedTrajectory P (request_ P) JointTrajectory_new)
           = false -> config = stomp_config_ P))).
Proof.
  intros P Hstomp.
  assert (forall calls : list Event,
            (forall e, e ∈ calls -> is_optimizer_call e = false) ->
            forall config, EvSetConfig config ∉ calls) as Hquiet.
  { intros calls Hcalls config Hin. by apply Hcalls in Hin. }
  assert (forall e, e ∈ snd (getStartAndGoal env P) ->
                    is_optimizer_call e = false) as Hik.
  { intros e. destruct (getStartAndGoal_calls env P)
      as [-> | (gc & rest & _ & _ & ->)].
    - by intros ?%elem_of_nil.
    - by intros ->%list_elem_of_singleton. }
  assert (forall c : StompConfiguration,
            c = set_num_timesteps (num_timesteps c) c) as Hsame
    by (by intros []).
  solve_paths env res w s Hstomp;
    eexists _, _; (split; [done |]);
    cbn [planner advance solving_world set_stomp group_ robot_model_
         stomp_config_ request_ planning_scene_ stomp_];
    do 5 (split; [done |]).
  - right. eexists. split; [done |].
    rewrite (new_calls_app w _
               [EvSetMotionPlanRequest _; EvSetConfig _; EvSolveSeeded _])
      by (cbn; by rewrite app_nil_r).
    split; [apply list_elem_of_further, list_elem_of_here |].
    split; [done |]. unfold P. by rewrite Hseed.
  - right. eexists. split; [done |].
    rewrite (new_calls_app w _
               [EvSetMotionPlanRequest _; EvSetConfig _; EvSolveSeeded _])
      by done.
    split; [apply list_elem_of_further, list_elem_of_here |].
    split; [done |]. unfold P. by rewrite Hseed.
  - left. split; [done |]. intros config. rewrite new_calls_advance.
    intros Hin. by apply list_elem_of_singleton in Hin.
  - right. eexists. split; [done |].
    rewrite (new_calls_app w _
               (calls ++ [EvSetMotionPlanRequest _; EvSetConfig _;
                          EvSolveBoundary _ _]))
      by (cbn; by rewrite app_nil_r, <- app_assoc).
    split; [apply elem_of_app; right;
            apply list_elem_of_further, list_elem_of_here |].
    split; [apply Hsame | done].
  - right. eexists. split; [done |].
    rewrite (new_calls_app w _
               (calls ++ [EvSetMotionPlanRequest _; EvSetConfig _;
                          EvSolveBoundary _ _]))
      by (cbn; by rewrite <- app_assoc).
    split; [apply elem_of_app; right;
            apply list_elem_of_further, list_elem_of_here |].
    split; [apply Hsame | done].
  - left. split; [done |]. intros config. rewrite new_calls_advance.
    intros Hin. apply elem_of_app in Hin as [Hin | Hin].
    + fold P in Hresolved. rewrite Hresolved in Hik. by apply Hik in Hin.
    + by apply list_elem_of_singleton in Hin.
  - left. split; [done |]. intros config. rewrite new_calls_advance.
    intros Hin. fold P in Hresolved. rewrite Hresolved in Hik.
    by apply Hik in Hin.
Qed.



(** X13. When the optimizer fails, the detailed solve returns [false] with
    PLANNING_FAILED, whatever code the task left; it does not read the clock
    again, writes no trajectory, and the optimizer keeps the configuration
    this solve applied. *)
Theorem optimizer_failure_is_planning_failed
    (res : MotionPlanDetailedResponse) (w : World) (s : Stomp) :
  stomp_ (planner w) = Some s ->
  optimizer_fails env w ->
  exists res' w' config,
    solve_detailed env res w = Some ((false, res'), w') /\
    error_code_ res' = MoveItErrorCodes.PLANNING_FAILED /\
    trajectory_ res' = resize 1 None (trajectory_ res) /\
    processing_time_ res' = resize 1 0%Q (processing_time_ res) /\
    clock_reads w' = S (clock_reads w) /\
    stomp_ (planner w') = Some {| stomp_applied_config := config |} /\
    EvSetConfig config ∈ new_calls w w'.
Proof.
  intros Hstomp Hfails. unfold optimizer_fails in Hfails.
  destruct (extractSeedTrajectory (planner w) (request_ (planner w))
              JointTrajectory_new) as [[|] seed] eqn:Hseed.
  - destruct Hfails as [Hbound Hsolved].
    rewrite (solve_detailed_seeded env res w s seed Hstomp Hseed).
    cbv zeta. rewrite Hbound, Hsolved.
    rewrite handle_results_optimizer_failure.
    eexists _, _, _. split; [done |]. do 5 (split; [done |]).
    rewrite (new_calls_app w _
               [EvSetMotionPlanRequest _; EvSetConfig _; EvSolveSeeded _])
      by done.
    apply list_elem_of_further, list_elem_of_here.
  - destruct Hfails as (start & goal & Hresolved & Hbound & Hsolved).
    rewrite (solve_detailed_boundary env res w s seed Hstomp Hseed).
    cbv zeta. rewrite Hresolved, Hbound, Hsolved.
    rewrite handle_results_optimizer_failure.
    eexists _, _, _. split; [done |]. do 5 (split; [done |]).
    rewrite (new_calls_app w _
               (snd (getStartAndGoal env (planner w)) ++
                [EvSetMotionPlanRequest _; EvSetConfig _;
                 EvSolveBoundary _ _]))
      by (cbn; by rewrite <- app_assoc).
    apply elem_of_app. right.
    apply list_elem_of_further, list_elem_of_here.
Qed.

(** X14. A seeded solve resolves no boundary values: it binds the task and,
    if the task accepts, configures the optimizer and asks for one seeded
    solve from the matrix of the seed; it makes no inverse-kinematics query
    and no boundary solve, so missing or Cartesian goal constraints do not
    matter to it. *)
Theorem seeded_solve_calls (res : MotionPlanDetailedResponse) (w : World)
    (s : Stomp) (seed : JointTrajectory) :
  let P := planner w in
  let config :=
    set_num_timesteps (int_of_size_t (length (points seed)))
                      (stomp_config_ P) in
  stomp_ P = Some s ->
  extractSeedTrajectory P (request_ P) JointTrajectory_new = (true, seed) ->
  exists out w',
    solve_detailed env res w = Some (out, w') /\
    new_calls w w' =
      if fst (task_setMotionPlanRequest env (planning_scene_ P) (request_ P)
                config MoveItErrorCodes.SUCCESS)
      then [EvSetMotionPlanRequest config; EvSetConfig config;
            EvSolveSeeded (snd (jointTrajectorytoParameters seed))]
      else [EvSetMotionPlanRequest config].
Proof.
  intros P config Hstomp Hseed.
  rewrite (solve_detailed_seeded env res w s seed Hstomp Hseed).
  cbv zeta. fold P. fold config.
  destruct (task_setMotionPlanRequest env (planning_scene_ P) (request_ P)
              config MoveItErrorCodes.SUCCESS) as [[|] code]; cbn [fst snd].
  - destruct (handle_results_frame env (wall_time env (clock_reads w)) false
                (fst (stomp_solve_seeded env
                        {| stomp_applied_config := config |}
                        (snd (jointTrajectorytoParameters seed))))
                (snd (stomp_solve_seeded env
                        {| stomp_applied_config := config |}
                        (snd (jointTrajectorytoParameters seed))))
                (set_error_code code (initialize_response res))
                (solving_world config
                   (EvSolveSeeded (snd (jointTrajectorytoParameters seed))) w))
      as (res' & w' & Hrun & _ & Htrace & _);
      [apply initialize_response_shape .. |].
    rewrite Hrun. eexists _, w'. split; [done |]. by apply new_calls_app.
  - eexists _, _. split; [done |]. apply new_calls_advance.
Qed.

End SolveOutcomes.

Lemma valid_path_is_reported_witness :
  exists res' w',
    solve_detailed Fixture.env Fixture.fresh_response
      (Fixture.world Scenario.reachable_planner) = Some ((true, res'), w') /\
    error_code_ res' = MoveItErrorCodes.SUCCESS.
Proof.
  destruct (valid_path_is_reported Fixture.env Fixture.fresh_response
              (Fixture.world Scenario.reachable_planner)
              {| stomp_applied_config := Fixture.config |}
              {| rows := 2; cols := 2; data := [0; 0; 1; 1 # 2]%Q |})
    as (res' & w' & config & Hrun & _ & _ & _ & Hcode).
  - reflexivity.
  - exists [0; 0]%Q, [1; 1 # 2]%Q. vm_compute. repeat split.
  - reflexivity.
  - exists res', w'. split; [exact Hrun | exact Hcode].
Defined.

Lemma failed_solve_response_witness :
  exists out w',
    solve_detailed Scenario.env_diverging Fixture.fresh_response
      (Fixture.world Scenario.reachable_planner) = Some (out, w') /\
    length (trajectory_ (snd out)) = 1.
Proof.
  destruct (failed_solve_response Scenario.env_diverging
              Fixture.fresh_response
              (Fixture.world Scenario.reachable_planner)
              {| stomp_applied_config := Fixture.config |})
    as (out & w' & Hrun & Hslot & _).
  - reflexivity.
  - exists out, w'. split; [exact Hrun | exact Hslot].
Defined.

Lemma compact_solve_response_witness :
  exists planning_time w',
    solve Scenario.env_diverging Scenario.compact_response
      (Fixture.world Scenario.reachable_planner)
    = Some ((false,
             {| r_trajectory_ := None;
                r_planning_time_ := planning_time;
                r_error_code_ := MoveItErrorCodes.PLANNING_FAILED |}), w').
Proof.
  destruct (compact_solve_response Scenario.env_diverging
              Scenario.compact_response
              (Fixture.world Scenario.reachable_planner)
              {| stomp_applied_config := Fixture.config |})
    as (success & detailed_res & w1 & Hdetailed & Hcompact & _).
  - reflexivity.
  - vm_compute in Hdetailed. injection Hdetailed as <- <- <-.
    eexists _, _.
    rewrite (Hcompact Scenario.compact_response). reflexivity.
Defined.

Lemma solve_detailed_frame_witness :
  exists out w',
    solve_detailed Fixture.env Fixture.fresh_response
      (Fixture.world Fixture.seeded_planner) = Some (out, w') /\
    request_ (planner w') = request_ Fixture.seeded_planner.
Proof.
  destruct (solve_detailed_frame Fixture.env Fixture.fresh_response
              (Fixture.world Fixture.seeded_planner)
              {| stomp_applied_config := Fixture.config |})
    as (out & w' & Hrun & _ & _ & _ & Hrequest & _).
  - reflexivity.
  - exists out, w'. split; [exact Hrun | exact Hrequest].
Defined.


Lemma optimizer_failure_is_planning_failed_witness :
  exists res' w',
    solve_detailed Scenario.env_diverging Fixture.fresh_response
      (Fixture.world Scenario.reachable_planner) = Some ((false, res'), w') /\
    error_code_ res' = MoveItErrorCodes.PLANNING_FAILED.
Proof.
  destruct (optimizer_failure_is_planning_failed Scenario.env_diverging
              Fixture.fresh_response
              (Fixture.world Scenario.reachable_planner)
              {| stomp_applied_config := Fixture.config |})
    as (res' & w' & config & Hrun & Hcode & _).
  - reflexivity.
  - exists [0; 0]%Q, [1; 1 # 2]%Q. vm_compute. repeat split.
  - exists res', w'. split; [exact Hrun | exact Hcode].
Defined.

Lemma seeded_solve_calls_witness :
  exists out w',
    solve_detailed Fixture.env Fixture.fresh_response
      (Fixture.world Fixture.seeded_planner) = Some (out, w') /\
    length (new_calls (Fixture.world Fixture.seeded_planner) w') = 3.
Proof.
  destruct (seeded_solve_calls Fixture.env Fixture.fresh_response
              (Fixture.world Fixture.seeded_planner)
              {| stomp_applied_config := Fixture.config |}
              {| joint_names := ["j1"; "j2"];
                 points := [seed_sample (Fixture.joint_goal 0 0);
                            seed_sample (Fixture.joint_goal 1 1)] |})
    as (out & w' & Hrun & Hcalls).
  - reflexivity.
  - reflexivity.
  - exists out, w'. split; [exact Hrun |]. rewrite Hcalls. reflexivity.
Defined.

(** ** Solver configuration from parameters *)

Lemma hasMember_struct (config : XmlRpcValue) (key : string) :
  hasMember config key = true ->
  exists members v,
    config = TypeStruct members /\ struct_find key members = Some v.
Proof.
  destruct config as [| | | | | |members]; try done. cbn.
  intros Hhas. apply bool_decide_eq_true in Hhas as [v Hv]. by exists members, v.
Qed.

Lemma load_int_outcome (config : XmlRpcValue) (key : string)
    (set : Z -> StompConfiguration -> StompConfiguration)
    (c : StompConfiguration) :
  load_int config key set c = Value c \/
  (exists i, load_int config key set c = Value (set i c)) \/
  load_int config key set c = Raise (XmlRpcException "type error").
Proof.
  unfold load_int. destruct (hasMember config key) eqn:Hhas; [| by left].
  apply hasMember_struct in Hhas as (members & v & -> & Hv).
  cbn. rewrite Hv. cbn.
  destruct v; cbn; first [by right; right | right; left; by eexists].
Qed.

Lemma load_double_outcome (config : XmlRpcValue) (key : string)
    (set : double -> StompConfiguration -> StompConfiguration)
    (c : StompConfiguration) :
  load_double config key set c = Value c \/
  (exists d, load_double config key set c = Value (set d c)) \/
  load_double config key set c = Raise (XmlRpcException "type error").
Proof.
  unfold load_double. destruct (hasMember config key) eqn:Hhas; [| by left].
  apply hasMember_struct in Hhas as (members & v & -> & Hv).
  cbn. rewrite Hv. cbn.
  destruct v; cbn; first [by right; right | right; left; by eexists].
Qed.

(** One optional parameter is loaded the same way whatever the dimension
    field holds. *)
Lemma load_int_dimensions (config : XmlRpcValue) (key : string)
    (set : Z -> StompConfiguration -> StompConfiguration) (n : Z)
    (c : StompConfiguration) :
  (forall x c, set x (set_num_dimensions n c) = set_num_dimensions n (set x c)) ->
  load_int config key set (set_num_dimensions n c) =
    set_num_dimensions n <$> load_int config key set c.
Proof.
  intros Hcommute. unfold load_int.
  destruct (hasMember config key); [| done].
  destruct (member_of config key) as [v|e]; [| done]. cbn.
  destruct (cast_int v) as [i|e]; [| done]. cbn. by rewrite Hcommute.
Qed.

Lemma load_double_dimensions (config : XmlRpcValue) (key : string)
    (set : double -> StompConfiguration -> StompConfiguration) (n : Z)
    (c : StompConfiguration) :
  (forall x c, set x (set_num_dimensions n c) = set_num_dimensions n (set x c)) ->
  load_double config key set (set_num_dimensions n c) =
    set_num_dimensions n <$> load_double config key set c.
Proof.
  intros Hcommute. unfold load_double.
  destruct (hasMember config key); [| done].
  destruct (member_of config key) as [v|e]; [| done]. cbn.
  destruct (cast_double v) as [d|e]; [| done]. cbn. by rewrite Hcommute.
Qed.

Lemma Try_bind_fmap {A B} (f : A -> A) (m m' : Try A) (k k' : A -> Try B)
    (g : B -> B) :
  m' = f <$> m -> (forall a, k' (f a) = g <$> k a) ->
  m' ≫= k' = g <$> (m ≫= k).
Proof. intros -> Hk. destruct m as [a|e]; [apply Hk | done]. Qed.

Lemma load_parameters_dimensions (config : XmlRpcValue) (n : Z)
    (c : StompConfiguration) :
  load_parameters config (set_num_dimensions n c) =
    set_num_dimensions n <$> load_parameters config c.
Proof.
  unfold load_parameters.
  repeat (apply (Try_bind_fmap (set_num_dimensions n) _ _ _ _
                   (set_num_dimensions n));
          [ first [by apply load_int_dimensions
                  | by apply load_double_dimensions]
          | intros ?; cbv beta ]).
  by apply load_int_dimensions.
Qed.

Lemma load_int_keeps {A} (f : StompConfiguration -> A) (config : XmlRpcValue)
    (key : string) (set : Z -> StompConfiguration -> StompConfiguration)
    (c c' : StompConfiguration) :
  (forall x c, f (set x c) = f c) ->
  load_int config key set c = Value c' -> f c' = f c.
Proof.
  intros Hset Hload.
  destruct (load_int_outcome config key set c) as [H | [[i H] | H]];
    rewrite H in Hload; [| | done]; injection Hload as <-; [done | apply Hset].
Qed.

Lemma load_double_keeps {A} (f : StompConfiguration -> A)
    (config : XmlRpcValue) (key : string)
    (set : double -> StompConfiguration -> StompConfiguration)
    (c c' : StompConfiguration) :
  (forall x c, f (set x c) = f c) ->
  load_double config key set c = Value c' -> f c' = f c.
Proof.
  intros Hset Hload.
  destruct (load_double_outcome config key set c) as [H | [[d H] | H]];
    rewrite H in Hload; [| | done]; injection Hload as <-; [done | apply Hset].
Qed.

Lemma load_int_raises (config : XmlRpcValue) (key : string)
    (set : Z -> StompConfiguration -> StompConfiguration)
    (c : StompConfiguration) (e : Exception) :
  load_int config key set c = Raise e -> e = XmlRpcException "type error".
Proof.
  intros Hload.
  destruct (load_int_outcome config key set c) as [H | [[i H] | H]];
    rewrite H in Hload; [done | done | by injection Hload].
Qed.

Lemma load_double_raises (config : XmlRpcValue) (key : string)
    (set : double -> StompConfiguration -> StompConfiguration)
    (c : StompConfiguration) (e : Exception) :
  load_double config key set c = Raise e -> e = XmlRpcException "type error".
Proof.
  intros Hload.
  destruct (load_double_outcome config key set c) as [H | [[d H] | H]];
    rewrite H in Hload; [done | done | by injection Hload].
Qed.

(** One step of the chain of lines 60-85, taken apart. *)
Ltac load_step H :=
  match type of H with
  | (?m ≫= _) = _ =>
      let c := fresh "c" in
      let e := fresh "e" in
      let Hstep := fresh "Hstep" in
      destruct m as [c|e] eqn:Hstep; cbn in H
  end.

Lemma load_parameters_raises (config : XmlRpcValue) (c : StompConfiguration)
    (e : Exception) :
  load_parameters config c = Raise e -> e = XmlRpcException "type error".
Proof.
  unfold load_parameters. intros H.
  repeat (load_step H;
          [| injection H as <-;
             first [by eapply load_int_raises | by eapply load_double_raises]]).
  by eapply load_int_raises.
Qed.

Lemma load_parameters_sensitivity (config : XmlRpcValue)
    (c c' : StompConfiguration) :
  load_parameters config c = Value c' ->
  exponentiated_cost_sensitivity c' = exponentiated_cost_sensitivity c \/
  exists i, exponentiated_cost_sensitivity c' = inject_Z i.
Proof.
  unfold load_parameters. intros H.
  repeat (load_step H; [| done]).
  assert (exponentiated_cost_sensitivity c7
          = exponentiated_cost_sensitivity c) as <-.
  { repeat match goal with
           | Hs : load_int _ _ _ ?a = Value ?b |- _ =>
               apply (load_int_keeps exponentiated_cost_sensitivity) in Hs;
               [| done]
           | Hs : load_double _ _ _ ?a = Value ?b |- _ =>
               apply (load_double_keeps exponentiated_cost_sensitivity) in Hs;
               [| done]
           end.
    congruence. }
  destruct (load_int_outcome config "exponentiated_cost_sensitivity"
              (fun i => set_exponentiated_cost_sensitivity (double_of_int i))
              c7) as [Hl | [[i Hl] | Hl]];
    rewrite Hl in H; [| | done]; injection H as <-.
  - by left.
  - right. by exists i.
Qed.

Lemma parseConfig_raises (config : XmlRpcValue) (group : RobotModel)
    (c : StompConfiguration) (e : Exception) :
  parseConfig config group c = Raise e -> e = XmlRpcException "type error".
Proof.
  unfold parseConfig. intros H.
  destruct (load_parameters config _) as [c'|e'] eqn:Hload.
  - cbn in H. by case_bool_decide.
  - injection H as <-. by eapply load_parameters_raises.
Qed.

Lemma member_of_raises (v : XmlRpcValue) (key : string) (e : Exception) :
  member_of v key = Raise e ->
  e = XmlRpcException "type error: expected a struct".
Proof. destruct v; cbn; by intros [= <-]. Qed.

Section ParseConfig.

Context (config : XmlRpcValue) (group : RobotModel).

#[local] Abbreviation dimensions :=
  (int_of_size_t (length (active_joint_model_names group))).

(** X15. [parseConfig] overwrites the whole structure it is handed: its
    result does not depend on what the structure held. The dimension count
    never comes from the parameters: it is the group's number of active
    joints, and the function returns [false] exactly when that count, as an
    [int], is zero, as for a group without active joints. *)
Theorem parseConfig_overwrites (c1 c2 : StompConfiguration) :
  parseConfig config group c1 = parseConfig config group c2 /\
  forall ok c',
    parseConfig config group c1 = Value (ok, c') ->
    num_dimensions c' = dimensions /\
    ok = negb (bool_decide (dimensions = 0%Z)) /\
    (active_joint_model_names group = [] -> ok = false) /\
    ((0 < Z.of_nat (length (active_joint_model_names group)) <= 2147483647)%Z
     -> ok = true).
Proof.
  split.
  - assert (forall c,
              parseConfig config group c =
              parseConfig config group (set_num_dimensions 0 c)) as Hzero.
    { intros c. unfold parseConfig.
      change (default_parameters c)
        with (set_num_dimensions (num_dimensions c)
                (default_parameters (set_num_dimensions 0 c))).
      rewrite load_parameters_dimensions.
      by destruct (load_parameters config _). }
    rewrite (Hzero c1), (Hzero c2).
    by destruct c1, c2.
  - intros ok c' Hparse. unfold parseConfig in Hparse.
    destruct (load_parameters config _) as [c|e]; [| done].
    cbn in Hparse.
    assert (ok = negb (bool_decide (dimensions = 0%Z)) /\
            num_dimensions c' = dimensions) as [Hok Hdim].
    { case_bool_decide; injection Hparse as <- <-; done. }
    split; [done |]. split; [done |]. split.
    + intros Hnone. rewrite Hok, Hnone. done.
    + intros Hrange. rewrite Hok. apply negb_true_iff, bool_decide_eq_false.
      unfold int_of_size_t, wrap_int32. rewrite Z.mod_small by lia. lia.
Qed.

(** X16. [parseConfig] raises nothing but an XML-RPC type error. The cost
    sensitivity it returns is always a whole number, the default 10 or an
    integer parameter: line 85 reads it with [static_cast<int>], so a
    parameter given as a double raises, and so does a control cost weight
    given as an integer, which line 61 reads as a double. *)
Theorem parseConfig_type_errors (c : StompConfiguration) :
  (forall e, parseConfig config group c = Raise e ->
             e = XmlRpcException "type error") /\
  (forall ok c', parseConfig config group c = Value (ok, c') ->
     exists i, exponentiated_cost_sensitivity c' = inject_Z i) /\
  (forall members d,
     config = TypeStruct members ->
     struct_find "exponentiated_cost_sensitivity" members
       = Some (TypeDouble d) ->
     parseConfig config group c = Raise (XmlRpcException "type error")) /\
  (forall members i,
     config = TypeStruct members ->
     struct_find "control_cost_weight" members = Some (TypeInt i) ->
     parseConfig config group c = Raise (XmlRpcException "type error")).
Proof.
  assert (forall e, parseConfig config group c = Raise e ->
                    e = XmlRpcException "type error") as Hraise
    by apply parseConfig_raises.
  split; [done |]. split; [| split].
  - unfold parseConfig. intros ok c' H.
    destruct (load_parameters config _) as [c0|e] eqn:Hload; [| done].
    cbn in H.
    assert (exponentiated_cost_sensitivity c'
            = exponentiated_cost_sensitivity c0) as ->
      by (case_bool_decide; by injection H as <- <-).
    apply load_parameters_sensitivity in Hload as [-> | Hint]; [| done].
    by exists 10%Z.
  - intros members d -> Hfind.
    destruct (parseConfig (TypeStruct members) group c) as [[ok c']|e] eqn:H;
      [| by rewrite (Hraise e eq_refl)].
    exfalso. unfold parseConfig in H.
    destruct (load_parameters _ _) as [c0|e0] eqn:Hload; [| done].
    unfold load_parameters in Hload.
    repeat (load_step Hload; [| done]).
    unfold load_int in Hload. cbn in Hload. rewrite Hfind in Hload. done.
  - intros members i -> Hfind.
    destruct (parseConfig (TypeStruct members) group c) as [[ok c']|e] eqn:H;
      [| by rewrite (Hraise e eq_refl)].
    exfalso. unfold parseConfig in H.
    destruct (load_parameters _ _) as [c0|e0] eqn:Hload; [| done].
    unfold load_parameters in Hload.
    load_step Hload; [| done].
    match goal with
    | Hs : load_double _ "control_cost_weight" _ _ = Value _ |- _ =>
        unfold load_double in Hs; cbn in Hs; rewrite Hfind in Hs; done
    end.
Qed.

End ParseConfig.

Lemma load_int_typed (members : list (string * XmlRpcValue)) (key : string)
    (set : Z -> StompConfiguration -> StompConfiguration)
    (get : StompConfiguration -> Z) (c : StompConfiguration) :
  int_typed members key -> (forall c, set (get c) c = c) ->
  load_int (TypeStruct members) key set c =
    Value (set (int_parameter members key (get c)) c).
Proof.
  intros [Hnone | [i Hint]] Hlens; unfold load_int, int_parameter; cbn.
  - by rewrite Hnone, Hlens.
  - by rewrite Hint.
Qed.

Lemma load_double_typed (members : list (string * XmlRpcValue)) (key : string)
    (set : double -> StompConfiguration -> StompConfiguration)
    (get : StompConfiguration -> double) (c : StompConfiguration) :
  double_typed members key -> (forall c, set (get c) c = c) ->
  load_double (TypeStruct members) key set c =
    Value (set (double_parameter members key (get c)) c).
Proof.
  intros [Hnone | [d Hd]] Hlens; unfold load_double, double_parameter; cbn.
  - by rewrite Hnone, Hlens.
  - by rewrite Hd.
Qed.

Lemma load_sensitivity_typed (members : list (string * XmlRpcValue))
    (c : StompConfiguration) :
  int_typed members "exponentiated_cost_sensitivity" ->
  load_int (TypeStruct members) "exponentiated_cost_sensitivity"
    (fun i => set_exponentiated_cost_sensitivity (double_of_int i)) c =
    Value (set_exponentiated_cost_sensitivity
             (match struct_find "exponentiated_cost_sensitivity" members with
              | Some (TypeInt i) => inject_Z i
              | _ => exponentiated_cost_sensitivity c
              end) c).
Proof.
  intros [Hnone | [i Hint]]; unfold load_int; cbn.
  - rewrite Hnone. by destruct c.
  - by rewrite Hint.
Qed.

Lemma load_int_absent (config : XmlRpcValue) (key : string)
    (set : Z -> StompConfiguration -> StompConfiguration)
    (c : StompConfiguration) :
  hasMember config key = false -> load_int config key set c = Value c.
Proof. intros H. unfold load_int. by rewrite H. Qed.

Lemma load_double_absent (config : XmlRpcValue) (key : string)
    (set : double -> StompConfiguration -> StompConfiguration)
    (c : StompConfiguration) :
  hasMember config key = false -> load_double config key set c = Value c.
Proof. intros H. unfold load_double. by rewrite H. Qed.

Section ParseConfigResult.

Context (group : RobotModel) (c : StompConfiguration).

#[local] Abbreviation joint_count :=
  (int_of_size_t (length (active_joint_model_names group))).

(** X17. What [parseConfig] computes. From a configuration that holds none
    of the nine optional parameters, a value that is no struct included, it
    returns the defaults of lines 49-57. From a struct whose optional
    parameters, where present, have the type their cast expects, each field
    is the parameter's value, or its default where the parameter is absent;
    the cost sensitivity is the integer parameter as a double. In both cases
    the dimension count is the group's number of active joints. *)
Theorem parseConfig_result :
  (forall config,
     (forall key, key ∈ optional_parameters -> hasMember config key = false) ->
     parseConfig config group c =
       Value (negb (bool_decide (joint_count = 0%Z)),
              {| num_iterations := 50;
                 num_iterations_after_valid := 0;
                 num_timesteps := 40;
                 num_dimensions := joint_count;
                 delta_t := 1%Q;
                 initialization_method := 1;
                 num_rollouts := 10;
                 max_rollouts := 100;
                 control_cost_weight := 0%Q;
                 exponentiated_cost_sensitivity := 10%Q |})) /\
  (forall members,
     Forall (double_typed members) ["control_cost_weight"; "delta_t"] ->
     Forall (int_typed members)
       ["initialization_method"; "num_timesteps"; "num_iterations";
        "num_iterations_after_valid"; "max_rollouts"; "num_rollouts";
        "exponentiated_cost_sensitivity"] ->
     parseConfig (TypeStruct members) group c =
       Value (negb (bool_decide (joint_count = 0%Z)),
              {| num_iterations := int_parameter members "num_iterations" 50;
                 num_iterations_after_valid :=
                   int_parameter members "num_iterations_after_valid" 0;
                 num_timesteps := int_parameter members "num_timesteps" 40;
                 num_dimensions := joint_count;
                 delta_t := double_parameter members "delta_t" 1%Q;
                 initialization_method :=
                   int_parameter members "initialization_method" 1;
                 num_rollouts := int_parameter members "num_rollouts" 10;
                 max_rollouts := int_parameter members "max_rollouts" 100;
                 control_cost_weight :=
                   double_parameter members "control_cost_weight" 0%Q;
                 exponentiated_cost_sensitivity :=
                   match struct_find "exponentiated_cost_sensitivity" members
                   with
                   | Some (TypeInt i) => inject_Z i
                   | _ => 10%Q
                   end |})).
Proof.
  split.
  - intros config Habsent. unfold parseConfig, load_parameters.
    repeat (first [rewrite load_double_absent | rewrite load_int_absent];
            [cbn [mbind Try_bind]
            | apply Habsent; unfold optional_parameters;
              repeat first [apply list_elem_of_here
                           | apply list_elem_of_further]]).
    cbn. by case_bool_decide.
  - intros members Hdouble Hint.
    repeat match goal with
           | H : Forall _ (_ :: _) |- _ =>
               apply Forall_cons in H as [? H]
           end.
    unfold parseConfig, load_parameters.
    rewrite (load_double_typed _ _ _ control_cost_weight)
      by (first [done | by intros []]).
    cbn [mbind Try_bind].
    rewrite (load_int_typed _ _ _ initialization_method)
      by (first [done | by intros []]).
    cbn [mbind Try_bind].
    rewrite (load_int_typed _ _ _ num_timesteps)
      by (first [done | by intros []]).
    cbn [mbind Try_bind].
    rewrite (load_double_typed _ _ _ delta_t)
      by (first [done | by intros []]).
    cbn [mbind Try_bind].
    rewrite (load_int_typed _ _ _ num_iterations)
      by (first [done | by intros []]).
    cbn [mbind Try_bind].
    rewrite (load_int_typed _ _ _ num_iterations_after_valid)
      by (first [done | by intros []]).
    cbn [mbind Try_bind].
    rewrite (load_int_typed _ _ _ max_rollouts)
      by (first [done | by intros []]).
    cbn [mbind Try_bind].
    rewrite (load_int_typed _ _ _ num_rollouts)
      by (first [done | by intros []]).
    cbn [mbind Try_bind].
    rewrite load_sensitivity_typed by done.
    cbn. by case_bool_decide.
Qed.

End ParseConfigResult.

(** ** Construction of the planner *)

Lemma rethrow_as_logic_error_value {A} (group : string) (body : Try A)
    (a : A) :
  rethrow_as_logic_error group body = Value a -> body = Value a.
Proof. by destruct body as [|[]]. Qed.

Section Setup.

Context (ext : Construction) (config_ : XmlRpcValue) (P : StompPlanner).

#[local] Abbreviation failed_to_load :=
  (logic_error ("Stomp 'optimization' parameter for group '"
                ++ group_ P ++ "' failed to load")).

Lemma setup_value (P' : StompPlanner) :
  setup ext config_ P = Value P' ->
  group_ P' = group_ P /\ robot_model_ P' = robot_model_ P /\
  request_ P' = request_ P /\
  planning_scene_ P' =
    Some (default (new_PlanningScene ext (robot_model_ P))
                  (planning_scene_ P)) /\
  stomp_ P' = Some {| stomp_applied_config := stomp_config_ P' |} /\
  hasJointModelGroup ext (robot_model_ P) (group_ P) = true /\
  hasMember config_ "optimization" = true /\
  exists optimization,
    member_of config_ "optimization" = Value optimization /\
    parseConfig optimization (robot_model_ P) (stomp_config_ P)
      = Value (true, stomp_config_ P').
Proof.
  unfold setup. intros Hsetup.
  apply rethrow_as_logic_error_value in Hsetup.
  assert (forall Q : StompPlanner,
            Q = match planning_scene_ P with
                | Some _ => P
                | None =>
                    set_planning_scene
                      (Some (new_PlanningScene ext (robot_model_ P))) P
                end ->
            group_ Q = group_ P /\ robot_model_ Q = robot_model_ P /\
            request_ Q = request_ P /\ stomp_config_ Q = stomp_config_ P /\
            planning_scene_ Q =
              Some (default (new_PlanningScene ext (robot_model_ P))
                            (planning_scene_ P))) as Hscene.
  { intros Q ->. destruct (planning_scene_ P) eqn:Hp; cbn; by rewrite ?Hp. }
  destruct (Hscene _ eq_refl) as (Hg & Hm & Hr & Hc & Hs).
  revert Hsetup. generalize dependent
    (match planning_scene_ P with
     | Some _ => P
     | None =>
         set_planning_scene
           (Some (new_PlanningScene ext (robot_model_ P))) P
     end).
  intros Q _ Hg Hm Hr Hc Hs Hsetup.
  destruct (member_of config_ "task") as [task_config|e]; [| done].
  cbn in Hsetup.
  destruct (new_StompOptimizationTask ext _ _ _); [done |].
  destruct (hasJointModelGroup ext (robot_model_ Q) (group_ Q)) eqn:Hgroup;
    [| done].
  destruct (hasMember config_ "optimization") eqn:Hhas; [| done].
  cbn in Hsetup.
  destruct (member_of config_ "optimization") as [optimization|e] eqn:Hopt;
    [| done].
  cbn in Hsetup.
  destruct (parseConfig optimization (robot_model_ Q) (stomp_config_ Q))
    as [[[|] stomp_config]|e] eqn:Hparse; [| done | done].
  cbn in Hsetup. injection Hsetup as <-. cbn.
  rewrite Hg, Hm in Hgroup. rewrite Hm, Hc in Hparse.
  do 6 (split; [done |]). split; [done |]. by exists optimization.
Qed.

(** X18. A planner whose [setup()] returned has an optimizer and a
    baseline configuration that are both the configuration [parseConfig]
    produced, with [true], from the [optimization] member of the
    configuration struct, the group's robot model and the baseline the
    planner held; and a planning scene: its own when it had one, a new one
    for the robot model otherwise. Its group exists in the robot model and
    has active joints, whose number is the dimension count; group, robot
    model and request are as they were. *)
Theorem setup_establishes (P' : StompPlanner) :
  setup ext config_ P = Value P' ->
  group_ P' = group_ P /\ robot_model_ P' = robot_model_ P /\
  request_ P' = request_ P /\
  planning_scene_ P' =
    Some (default (new_PlanningScene ext (robot_model_ P))
                  (planning_scene_ P)) /\
  stomp_ P' = Some {| stomp_applied_config := stomp_config_ P' |} /\
  (exists members optimization,
     config_ = TypeStruct members /\
     struct_find "optimization" members = Some optimization /\
     parseConfig optimization (robot_model_ P) (stomp_config_ P)
       = Value (true, stomp_config_ P')) /\
  hasJointModelGroup ext (robot_model_ P) (group_ P) = true /\
  active_joint_model_names (robot_model_ P) <> [] /\
  num_dimensions (stomp_config_ P') =
    int_of_size_t (length (active_joint_model_names (robot_model_ P))) /\
  num_dimensions (stomp_config_ P') <> 0%Z.
Proof.
  intros Hsetup.
  destruct (setup_value P' Hsetup)
    as (Hg & Hm & Hr & Hs & Hstomp & Hgroup & Hhas & opt & Hopt & Hparse).
  do 5 (split; [done |]).
  split.
  { destruct config_ as [| | | | | |members]; try done.
    exists members, opt. split; [done |]. split; [| done].
    cbn in Hhas, Hopt. apply bool_decide_eq_true in Hhas as [x Hx].
    rewrite Hx in Hopt |- *. cbn in Hopt. by injection Hopt as ->. }
  split; [done |].
  unfold parseConfig in Hparse.
  destruct (load_parameters opt _) as [c|e]; [| done]. cbn in Hparse.
  case_bool_decide as Hdim; [done |]. injection Hparse as <-.
  split; [| done].
  intros Hnone. apply Hdim. by rewrite Hnone.
Qed.

(** X19. [setup()] lets no XML-RPC exception out: whatever it raises is a
    [std::logic_error], or what the task's constructor raised. A
    configuration that is neither a struct nor unset, a group the robot
    model does not have, and a struct without [optimization] member each end
    in the [std::logic_error] of lines 148, 133 and 141. *)
Theorem setup_failures :
  (forall message, setup ext config_ P <> Raise (XmlRpcException message)) /\
  (forall e, setup ext config_ P = Raise e ->
     (exists what, e = logic_error what) \/
     (exists task_config,
        new_StompOptimizationTask ext (robot_model_ P) (group_ P) task_config
          = Some e)) /\
  (member_of config_ "task" =
     Raise (XmlRpcException "type error: expected a struct") ->
   setup ext config_ P =
     Raise (logic_error
              ("Stomp Planner failed to load configuration for group '"
               ++ group_ P ++ "'; type error: expected a struct"))) /\
  ((forall task_config,
      new_StompOptimizationTask ext (robot_model_ P) (group_ P) task_config
        = None) ->
   (forall members, config_ = TypeStruct members ->
      hasJointModelGroup ext (robot_model_ P) (group_ P) = false ->
      setup ext config_ P =
        Raise (logic_error ("Stomp Planning Group '" ++ group_ P
                            ++ "' was not found"))) /\
   (forall members, config_ = TypeStruct members ->
      hasJointModelGroup ext (robot_model_ P) (group_ P) = true ->
      struct_find "optimization" members = None ->
      setup ext config_ P = Raise failed_to_load)).
Proof.
  assert (forall Q : StompPlanner,
            Q = match planning_scene_ P with
                | Some _ => P
                | None =>
                    set_planning_scene
                      (Some (new_PlanningScene ext (robot_model_ P))) P
                end ->
            group_ Q = group_ P /\ robot_model_ Q = robot_model_ P) as Hscene.
  { intros Q ->. by destruct (planning_scene_ P). }
  destruct (Hscene _ eq_refl) as (Hg & Hm).
  unfold setup.
  generalize dependent
    (match planning_scene_ P with
     | Some _ => P
     | None =>
         set_planning_scene
           (Some (new_PlanningScene ext (robot_model_ P))) P
     end).
  intros Q _ Hg Hm. rewrite Hg, Hm.
  assert (forall e,
            rethrow_as_logic_error (group_ P)
              (task_config ← member_of config_ "task";
               match new_StompOptimizationTask ext (robot_model_ P)
                       (group_ P) task_config with
               | Some e => Raise e
               | None =>
                   if negb (hasJointModelGroup ext (robot_model_ P)
                              (group_ P))
                   then Raise (logic_error ("Stomp Planning Group '"
                                            ++ group_ P ++ "' was not found"))
                   else
                     if negb (hasMember config_ "optimization")
                     then Raise failed_to_load
                     else
                       optimization ← member_of config_ "optimization";
                       '(parsed, stomp_config) ←
                         parseConfig optimization (robot_model_ P)
                           (stomp_config_ Q);
                       if negb parsed then Raise failed_to_load
                       else
                         mret (set_stomp
                                 (Some {| stomp_applied_config :=
                                            stomp_config |})
                                 (set_stomp_config stomp_config Q))
               end) = Raise e ->
            (exists what, e = logic_error what) \/
            (exists task_config,
               new_StompOptimizationTask ext (robot_model_ P) (group_ P)
                 task_config = Some e /\
               forall message, e <> XmlRpcException message)) as Hkinds.
  { intros e.
    destruct (member_of config_ "task") as [task_config|e0] eqn:Htask; cbn.
    2: { apply member_of_raises in Htask as ->. cbn.
         intros [= <-]. left. by eexists. }
    destruct (new_StompOptimizationTask ext _ _ task_config) as [[]|] eqn:Hnew;
      cbn; try (intros [= <-]; left; by eexists).
    - intros [= <-]. right. exists task_config. split; [done | done].
    - destruct (hasJointModelGroup ext _ _); cbn;
        [| intros [= <-]; left; by eexists].
      destruct (hasMember config_ "optimization"); cbn;
        [| intros [= <-]; left; by eexists].
      destruct (member_of config_ "optimization") as [optimization|e0]
        eqn:Hopt; cbn.
      2: { apply member_of_raises in Hopt as ->. cbn.
           intros [= <-]. left. by eexists. }
      destruct (parseConfig optimization _ _) as [[[|] stomp_config]|e0]
        eqn:Hparse; cbn.
      + done.
      + intros [= <-]. left. by eexists.
      + apply parseConfig_raises in Hparse as ->. cbn.
        intros [= <-]. left. by eexists. }
  split; [| split; [| split]].
  - intros message Hraise. apply Hkinds in Hraise as [[what ?] | (tc & _ & Hne)];
      [done | by eapply Hne].
  - intros e Hraise. apply Hkinds in Hraise as [? | (tc & ? & _)];
      [by left | right; by exists tc].
  - intros ->. done.
  - intros Htask. split.
    + intros members -> Hgroup. cbn. by rewrite Htask, Hgroup.
    + intros members -> Hgroup Hnone. cbn. rewrite Htask, Hgroup. cbn.
      by rewrite Hnone.
Qed.

End Setup.

Section AfterSetup.

Context (ext : Construction) (env : Collaborators).


End AfterSetup.

(** ** Planner configurations by group *)

Lemma insert_if_absent_union (k : string) (v : XmlRpcValue)
    (config entries : gmap string XmlRpcValue) :
  insert_if_absent k v config ∪ entries = config ∪ <[k := v]> entries.
Proof.
  unfold insert_if_absent. apply map_eq. intros i.
  destruct (config !! k) as [x|] eqn:Hk.
  - rewrite !lookup_union.
    destruct (decide (k = i)) as [<- | Hne].
    + rewrite Hk, lookup_insert_eq. by destruct (entries !! k).
    + by rewrite lookup_insert_ne.
  - rewrite !lookup_union.
    destruct (decide (k = i)) as [<- | Hne].
    + rewrite !lookup_insert_eq, Hk. by destruct (entries !! k).
    + by rewrite !lookup_insert_ne.
Qed.

Lemma collect_groups_all (members : list (string * XmlRpcValue))
    (entries : list (string * XmlRpcValue))
    (config : gmap string XmlRpcValue) :
  Forall2 (fun member entry =>
             string_member_of (snd member) "group_name" = Value entry)
          members entries ->
  collect_groups members config = (true, config ∪ list_to_map entries).
Proof.
  intros Hall. revert config.
  induction Hall as [|[key element] [group_name element'] members entries
                       Hentry Hall IH]; intros config.
  - cbn. by rewrite (right_id_L ∅ (∪)).
  - cbn in *. rewrite Hentry, IH. by rewrite insert_if_absent_union.
Qed.

Lemma collect_groups_until (good : list (string * XmlRpcValue))
    (entries : list (string * XmlRpcValue)) (key : string)
    (bad : XmlRpcValue) (rest : list (string * XmlRpcValue)) (e : Exception)
    (config : gmap string XmlRpcValue) :
  Forall2 (fun member entry =>
             string_member_of (snd member) "group_name" = Value entry)
          good entries ->
  string_member_of bad "group_name" = Raise e ->
  collect_groups (good ++ (key, bad) :: rest) config
    = (false, config ∪ list_to_map entries).
Proof.
  intros Hall Hbad. revert config.
  induction Hall as [|[key' element] [group_name element'] members entries
                       Hentry Hall IH]; intros config.
  - cbn. rewrite Hbad. by rewrite (right_id_L ∅ (∪)).
  - cbn in *. rewrite Hentry, IH. by rewrite insert_if_absent_union.
Qed.

Section ConfigData.

Context (getParam : string -> option XmlRpcValue)
        (config : gmap string XmlRpcValue) (param : string).

(** X21. When the parameter is a struct whose elements all yield a group
    name, [getConfigData] returns [true] and the map holds what it held
    before, joined by each element under its group name; the element's key
    in the parameter plays no part. An entry already in the map stays, and
    of several elements with one group name the first in iteration order is
    the one kept. *)
Theorem getConfigData_collects (members entries : list (string * XmlRpcValue)) :
  getParam param = Some (TypeStruct members) ->
  Forall2 (fun member entry =>
             string_member_of (snd member) "group_name" = Value entry)
          members entries ->
  getConfigData getParam config param
    = (true, config ∪ list_to_map entries) /\
  (forall group value,
     config !! group = Some value ->
     snd (getConfigData getParam config param) !! group = Some value) /\
  (forall first group value later,
     entries = (first ++ (group, value) :: later)%list ->
     config !! group = None ->
     group ∉ fst <$> first ->
     snd (getConfigData getParam config param) !! group = Some value).
Proof.
  intros Hparam Hall.
  assert (getConfigData getParam config param
          = (true, config ∪ list_to_map entries)) as Hrun.
  { unfold getConfigData. rewrite Hparam. by apply collect_groups_all. }
  split; [done |]. rewrite Hrun. cbn [snd]. split.
  - intros group value Hold. by apply lookup_union_Some_l.
  - intros first group value later -> Hnew Hfirst.
    rewrite lookup_union_r by done.
    clear Hall Hrun. induction first as [|[g v] first IH]; cbn.
    + apply lookup_insert_eq.
    + cbn in Hfirst. apply not_elem_of_cons in Hfirst as [Hne Hfirst].
      rewrite lookup_insert_ne by done. by apply IH.
Qed.

(** X22. [getConfigData] returns [false] and leaves the map alone when the
    parameter is not set or is a value other than a struct; when an element
    raises, for being no struct or for a group name that is no string, it
    returns [false] with the elements before that one already in the map.
    An unset (invalid) value counts as an empty struct. *)
Theorem getConfigData_failures :
  (getParam param = None ->
   getConfigData getParam config param = (false, config)) /\
  (forall value,
     getParam param = Some value ->
     (forall members, value <> TypeStruct members) ->
     getConfigData getParam config param =
       (match value with TypeInvalid => true | _ => false end, config)) /\
  (forall good entries key bad rest e,
     getParam param = Some (TypeStruct (good ++ (key, bad) :: rest)) ->
     Forall2 (fun member entry =>
                string_member_of (snd member) "group_name" = Value entry)
             good entries ->
     string_member_of bad "group_name" = Raise e ->
     getConfigData getParam config param
       = (false, config ∪ list_to_map entries)).
Proof.
  unfold getConfigData. split; [| split].
  - by intros ->.
  - intros value -> Hkind.
    destruct value as [| | | | | |members]; try done.
    by destruct (Hkind members).
  - intros good entries key bad rest e -> Hall Hbad.
    by eapply collect_groups_until.
Qed.

End ConfigData.

(** ** The further statements at the two-joint group *)

Lemma parseConfig_overwrites_witness :
  num_dimensions Launch.parsed_config = 2%Z /\
  true = negb (bool_decide (int_of_size_t 2 = 0%Z)).
Proof.
  destruct (proj2 (parseConfig_overwrites Launch.optimization Fixture.model
                     Fixture.config Launch.parsed_config)
              true Launch.parsed_config) as (Hdim & Hok & _).
  - reflexivity.
  - split; [exact Hdim | exact Hok].
Defined.

Lemma parseConfig_type_errors_witness :
  parseConfig
    (TypeStruct [("exponentiated_cost_sensitivity", TypeDouble (21 # 2)%Q)])
    Fixture.model Fixture.config = Raise (XmlRpcException "type error").
Proof.
  destruct (parseConfig_type_errors
              (TypeStruct [("exponentiated_cost_sensitivity",
                            TypeDouble (21 # 2)%Q)])
              Fixture.model Fixture.config) as (_ & _ & Hdouble & _).
  apply (Hdouble [("exponentiated_cost_sensitivity", TypeDouble (21 # 2)%Q)]
           (21 # 2)%Q); reflexivity.
Defined.

Lemma parseConfig_result_witness :
  parseConfig Launch.optimization Fixture.model Fixture.config
    = Value (true, Launch.parsed_config).
Proof.
  destruct (parseConfig_result Fixture.model Fixture.config) as [_ Htyped].
  unfold Launch.optimization. rewrite Htyped.
  - reflexivity.
  - repeat match goal with |- Forall _ _ => constructor end; by left.
  - repeat match goal with |- Forall _ _ => constructor end;
      first [by left | right; by eexists].
Defined.

Lemma setup_establishes_witness :
  stomp_ Launch.configured =
    Some {| stomp_applied_config := stomp_config_ Launch.configured |} /\
  parseConfig Launch.optimization Fixture.model Fixture.config
    = Value (true, stomp_config_ Launch.configured) /\
  num_dimensions (stomp_config_ Launch.configured) <> 0%Z.
Proof.
  destruct (setup_establishes Launch.construction Launch.arm_config
              (Launch.unconfigured "arm") Launch.configured)
    as (_ & _ & _ & _ & Hstomp & Hparsed & _ & _ & _ & Hdim).
  - reflexivity.
  - split; [exact Hstomp |]. split; [| exact Hdim].
    destruct Hparsed as (members & optimization & Hconfig & Hfind & Hparse).
    injection Hconfig as <-. injection Hfind as <-. exact Hparse.
Defined.

Lemma setup_failures_witness :
  setup Launch.construction Launch.arm_config (Launch.unconfigured "leg") =
    Raise (logic_error "Stomp Planning Group 'leg' was not found").
Proof.
  destruct (setup_failures Launch.construction Launch.arm_config
              (Launch.unconfigured "leg")) as (_ & _ & _ & Hcases).
  destruct Hcases as [Hmissing _]; [reflexivity |].
  apply (Hmissing [("group_name", TypeString "arm");
                   ("optimization", Launch.optimization);
                   ("task", TypeStruct [])]); reflexivity.
Defined.


Lemma getConfigData_collects_witness :
  snd (getConfigData Launch.parameters ∅ "stomp") !! "arm"
    = Some Launch.arm_config.
Proof.
  destruct (getConfigData_collects Launch.parameters ∅ "stomp"
              [("a", Launch.arm_config); ("b", Launch.arm_again)]
              [("arm", Launch.arm_config); ("arm", Launch.arm_again)])
    as (_ & _ & Hfirst).
  - reflexivity.
  - repeat constructor.
  - apply (Hfirst [] "arm" Launch.arm_config [("arm", Launch.arm_again)]).
    + reflexivity.
    + reflexivity.
    + apply not_elem_of_nil.
Defined.

Lemma getConfigData_failures_witness :
  getConfigData
    (fun _ => Some (TypeStruct [("a", Launch.arm_config);
                                ("b", Launch.misnamed);
                                ("c", Launch.arm_again)]))
    ∅ "stomp"
    = (false, ∅ ∪ list_to_map [("arm", Launch.arm_config)]).
Proof.
  destruct (getConfigData_failures
              (fun _ => Some (TypeStruct [("a", Launch.arm_config);
                                          ("b", Launch.misnamed);
                                          ("c", Launch.arm_again)]))
              ∅ "stomp") as (_ & _ & Hraise).
  apply (Hraise [("a", Launch.arm_config)] [("arm", Launch.arm_config)]
           "b" Launch.misnamed [("c", Launch.arm_again)]
           (XmlRpcException "type error")).
  - reflexivity.
  - repeat constructor.
  - reflexivity.
Defined.
